(** * A cooperative fiber scheduler (main.cpp), embedded and verified

    The program keeps a FIFO queue of saved execution contexts, runs each
    fiber on a private stack taken from a recycling pool, and switches
    between the scheduler and the fibers with a hand-written primitive that
    swaps (eip, esp) pairs.

    The embedding keeps the program's objects (the pool's vector, the
    queue, the static [main_loop] slot, the [FiberKeeper] stored at the top
    of each stack, the global scheduler pointer) and abstracts the machine:
    a stack pointer is identified with the stack it points into, and the
    frames a parked fiber left on its stack are represented by the rest of
    its body. *)

From Stdlib Require Import ZArith List Lia String Relations Wellfounded.
From stdpp Require Import base gmap list.

Local Open Scope Z_scope.

(** ** Fiber bodies

    [using Fiber = std::function<void()>].  A body is seen through what it
    does to the variables it captured by reference (a value of type [W]) and
    through its calls to the free functions [schedule] and [yield]. *)

Inductive Fiber (W : Type) : Type :=
| Return                                   (* the closure returns *)
| AssertFail                               (* a failing [assert] in the body *)
| Upd (f : W -> W) (k : Fiber W)           (* write captured variables *)
| Look (k : W -> Fiber W)                  (* read captured variables *)
| CallYield (k : Fiber W)                  (* [yield();] then [k] *)
| CallSchedule (body k : Fiber W).         (* [schedule(body);] then [k] *)

Arguments Return {W}.
Arguments AssertFail {W}.
Arguments Upd {W} f k.
Arguments Look {W} k.
Arguments CallYield {W} k.
Arguments CallSchedule {W} body k.

(** ** Machine-level data *)

(** Values an [eip] field takes: zero, the address of [run_fiber], and the
    [ret_label] inside [switch_context]. *)
Inductive Eip := EipNull | EipRunFiber | EipRetLabel.

(** Values an [esp] field takes: zero, a position in the stack [run] was
    called on, or a position in the pool block starting at [block]. *)
Inductive Esp := EspNull | EspMain | EspIn (block : Z).

#[global] Instance Eip_eq_dec : EqDecision Eip.
Proof. solve_decision. Defined.
#[global] Instance Esp_eq_dec : EqDecision Esp.
Proof. solve_decision. Defined.

(** [struct Context { intptr_t eip = 0; intptr_t esp = 0; }] *)
Record Context := { eip : Eip; esp : Esp }.

#[global] Instance Context_eq_dec : EqDecision Context.
Proof. solve_decision. Defined.

(** [struct FiberKeeper { Fiber fiber; void *stack; }].  [fiber = None] is
    the empty [std::function]; [stack = 0] is [nullptr].  [fk_id] is ghost:
    the number of keepers constructed before this one. *)
Record FiberKeeper (W : Type) := {
  fiber : option (Fiber W);
  stack : Z;
  fk_id : nat
}.
Arguments fiber {W} _.
Arguments stack {W} _.
Arguments fk_id {W} _.

(** What lies on a stack block below the keeper. *)
Inductive Frames (W : Type) :=
| FrZero                     (* untouched bytes *)
| FrParked (k : Fiber W)     (* a fiber suspended inside [yield]; [k] is the rest of its body *)
| FrDead.                    (* [run_fiber] after its last switch *)
Arguments FrZero {W}.
Arguments FrParked {W} k.
Arguments FrDead {W}.

(** A block obtained from [calloc]: its size, the keeper bytes copied to its
    top by [schedule], and the frames below. *)
Record Block (W : Type) := {
  blk_size : Z;
  blk_keeper : FiberKeeper W;
  blk_frames : Frames W
}.
Arguments blk_size {W} _.
Arguments blk_keeper {W} _.
Arguments blk_frames {W} _.

(** Dynamic type of the object behind [global_scheduler]. *)
Inductive SchedulerKind := InlineSchedulerK | FiberSchedulerK.

(** Ghost events. *)
Inductive Event :=
| EvEnter (id : nat)      (* [run_fiber] calls the body of fiber [id] *)
| EvResume (id : nat)     (* fiber [id] comes back from [yield] *)
| EvExit (id : nat).      (* the body of fiber [id] has returned *)

#[global] Instance Event_eq_dec : EqDecision Event.
Proof. solve_decision. Defined.

(** The whole process. *)
Record State (W : Type) := {
  world : W;                                 (* variables captured by the bodies *)
  global_scheduler : option SchedulerKind;   (* [std::unique_ptr<Scheduler>] *)
  stacks : list Z;                           (* [stack_pool.stacks]; back = last *)
  queue : list Context;                      (* [FiberScheduler::queue]; front = head *)
  main_loop : Context;                       (* [FiberScheduler::main_loop] *)
  heap : gmap Z (Block W);                   (* blocks handed out by [calloc] *)
  brk : Z;                                   (* next address [calloc] hands out *)
  spawned : nat;                             (* ghost: keepers constructed so far *)
  log : list Event                           (* ghost: oldest event first *)
}.
Arguments world {W} _.
Arguments global_scheduler {W} _.
Arguments stacks {W} _.
Arguments queue {W} _.
Arguments main_loop {W} _.
Arguments heap {W} _.
Arguments brk {W} _.
Arguments spawned {W} _.
Arguments log {W} _.

Section Setters.
Context {W : Type}.
Implicit Type s : State W.

Definition set_world (w : W) s : State W :=
  {| world := w; global_scheduler := global_scheduler s; stacks := stacks s;
     queue := queue s; main_loop := main_loop s; heap := heap s; brk := brk s;
     spawned := spawned s; log := log s |}.
Definition set_global_scheduler (g : option SchedulerKind) s : State W :=
  {| world := world s; global_scheduler := g; stacks := stacks s;
     queue := queue s; main_loop := main_loop s; heap := heap s; brk := brk s;
     spawned := spawned s; log := log s |}.
Definition set_stacks (l : list Z) s : State W :=
  {| world := world s; global_scheduler := global_scheduler s; stacks := l;
     queue := queue s; main_loop := main_loop s; heap := heap s; brk := brk s;
     spawned := spawned s; log := log s |}.
Definition set_queue (q : list Context) s : State W :=
  {| world := world s; global_scheduler := global_scheduler s; stacks := stacks s;
     queue := q; main_loop := main_loop s; heap := heap s; brk := brk s;
     spawned := spawned s; log := log s |}.
Definition set_main_loop (c : Context) s : State W :=
  {| world := world s; global_scheduler := global_scheduler s; stacks := stacks s;
     queue := queue s; main_loop := c; heap := heap s; brk := brk s;
     spawned := spawned s; log := log s |}.
Definition set_heap (h : gmap Z (Block W)) s : State W :=
  {| world := world s; global_scheduler := global_scheduler s; stacks := stacks s;
     queue := queue s; main_loop := main_loop s; heap := h; brk := brk s;
     spawned := spawned s; log := log s |}.
Definition set_brk (b : Z) s : State W :=
  {| world := world s; global_scheduler := global_scheduler s; stacks := stacks s;
     queue := queue s; main_loop := main_loop s; heap := heap s; brk := b;
     spawned := spawned s; log := log s |}.
Definition set_spawned (n : nat) s : State W :=
  {| world := world s; global_scheduler := global_scheduler s; stacks := stacks s;
     queue := queue s; main_loop := main_loop s; heap := heap s; brk := brk s;
     spawned := n; log := log s |}.
Definition push_log (e : Event) s : State W :=
  {| world := world s; global_scheduler := global_scheduler s; stacks := stacks s;
     queue := queue s; main_loop := main_loop s; heap := heap s; brk := brk s;
     spawned := spawned s; log := log s ++ [e] |}.

(** [queue.push(c)] *)
Definition queue_push (c : Context) s : State W := set_queue (queue s ++ [c]) s.
End Setters.

(** How an operation ends. *)
Inductive Outcome (W : Type) :=
| Returned (s : State W)                    (* normal return to the caller *)
| Thrown (what : string) (s : State W)      (* a [std::runtime_error] reaches the caller *)
| Aborted (s : State W)                     (* an [assert] failed *)
| Undefined.                                (* behaviour the language leaves undefined *)
Arguments Returned {W} s.
Arguments Thrown {W} what s.
Arguments Aborted {W} s.
Arguments Undefined {W}.

(** ** The C allocator

    [calloc(nmemb, size)] is taken to succeed (the program never checks its
    result) and to hand out consecutive zero-filled blocks. *)

Definition FiberKeeper_zero {W} : FiberKeeper W :=
  {| fiber := None; stack := 0; fk_id := 0%nat |}.

Definition zero_block {W} (size : Z) : Block W :=
  {| blk_size := size; blk_keeper := FiberKeeper_zero; blk_frames := FrZero |}.

Definition calloc {W} (nmemb size : Z) (s : State W) : Z * State W :=
  let ptr := brk s in
  (ptr, set_brk (ptr + nmemb * size)
          (set_heap (<[ptr := zero_block (nmemb * size)]> (heap s)) s)).

(** ** StackPool *)

Module StackPool.

Definition STACK_SIZE : Z := 1024 * 1024.

(** [void *alloc()] *)
Definition alloc {W} (s : State W) : Z * State W :=
  match last (stacks s) with
  | Some ptr => (ptr, set_stacks (removelast (stacks s)) s)
  | None => calloc 1 STACK_SIZE s
  end.

(** [void free(void *stack)] *)
Definition free {W} (stack : Z) (s : State W) : State W :=
  set_stacks (stacks s ++ [stack]) s.

End StackPool.

(** ** InlineScheduler *)

Module InlineScheduler.

(** [schedule(fiber) { fiber(); }] with this scheduler installed: the body
    runs at once on the caller's stack, the [schedule] calls it makes run
    their argument the same way, and its [yield] calls do nothing.
    [None] is a failed assertion. *)
Fixpoint schedule {W} (fiber : Fiber W) (w : W) : option W :=
  match fiber with
  | Return => Some w
  | AssertFail => None
  | Upd f k => schedule k (f w)
  | Look k => schedule (k w) w
  | CallYield k => schedule k w
  | CallSchedule body k =>
      match schedule body w with
      | Some w' => schedule k w'
      | None => None
      end
  end.

End InlineScheduler.

(** ** FiberScheduler *)

Module FiberScheduler.

(** [Context::switch_context()], run on the slot [slot] by code whose stack
    pointer is [self]: the slot receives ([ret_label], [self]) and control
    goes to what the slot held. *)
Definition switch_context (slot : Context) (self : Esp) : Context * Context :=
  ({| eip := EipRetLabel; esp := self |}, slot).

(** The context [run_one] leaves behind when it switches away. *)
Definition scheduler_context : Context := {| eip := EipRetLabel; esp := EspMain |}.

(** [explicit FiberKeeper(Fiber fiber)] *)
Definition FiberKeeper_new {W} (f : Fiber W) (s : State W) : FiberKeeper W * State W :=
  let '(ptr, s1) := StackPool.alloc s in
  ({| fiber := Some f; stack := ptr; fk_id := spawned s1 |},
   set_spawned (S (spawned s1)) s1).

(** [FiberKeeper(FiberKeeper &&other)]: the new keeper and what is left in
    [other]. *)
Definition FiberKeeper_move {W} (other : FiberKeeper W) : FiberKeeper W * FiberKeeper W :=
  ({| fiber := fiber other; stack := stack other; fk_id := fk_id other |},
   {| fiber := None; stack := 0; fk_id := fk_id other |}).

(** [~FiberKeeper()] *)
Definition FiberKeeper_delete {W} (fk : FiberKeeper W) (s : State W) : State W :=
  if decide (stack fk = 0) then s else StackPool.free (stack fk) s.

(** The two [memcpy] calls of [schedule]: the keeper's bytes go to the top
    of the block at [b] (the pointer to them, stored just below, is where
    the new context's [esp] points).  For a [b] that is not a block of the
    heap nothing is stored here, where the program's [memcpy] is not
    defined: what is stated about [schedule] is stated under the invariant,
    under which [alloc] hands out live blocks only. *)
Definition store_keeper {W} (b : Z) (fk : FiberKeeper W) (s : State W) : State W :=
  set_heap (alter (fun blk => {| blk_size := blk_size blk; blk_keeper := fk;
                                 blk_frames := blk_frames blk |}) b (heap s)) s.

(** The frames the running code leaves on the block at [b] when it
    switches away. *)
Definition store_frames {W} (b : Z) (fr : Frames W) (s : State W) : State W :=
  set_heap (alter (fun blk => {| blk_size := blk_size blk; blk_keeper := blk_keeper blk;
                                 blk_frames := fr |}) b (heap s)) s.

(** [void schedule(Fiber fiber) override] *)
Definition schedule {W} (fiber : Fiber W) (s : State W) : State W :=
  let '(fk, s1) := FiberKeeper_new fiber s in
  let s2 := store_keeper (stack fk) fk s1 in
  let context := {| eip := EipRunFiber; esp := EspIn (stack fk) |} in
  let fk := @FiberKeeper_zero W in                 (* memset(&fk, 0, sizeof(fk)) *)
  let s3 := queue_push context s2 in
  FiberKeeper_delete fk s3.                        (* fk goes out of scope *)

(** Control arrives at [target] from a fiber.  Only the context parked by
    [run_one] is followed. *)
Definition to_scheduler {W} (target : Context) (s : State W) : Outcome W :=
  if decide (target = scheduler_context) then Returned s else Undefined.

(** [void yield() override], called by the fiber running on the block at
    [cur] whose remaining body is [k]. *)
Definition yield {W} (k : Fiber W) (cur : Z) (s : State W) : Outcome W :=
  let s1 := queue_push (main_loop s) s in
  match last (queue s1) with
  | Some back =>
      let '(slot, target) := switch_context back (EspIn cur) in
      let s2 := set_queue (removelast (queue s1) ++ [slot]) s1 in
      to_scheduler target (store_frames cur (FrParked k) s2)
  | None => Undefined
  end.

(** The part of [run_fiber] after [fiber.fiber()] has returned. *)
Definition run_fiber_tail {W} (cur : Z) (s : State W) : Outcome W :=
  match heap s !! cur with
  | Some blk =>
      let fk := blk_keeper blk in
      let s1 := FiberKeeper_delete fk (push_log (EvExit (fk_id fk)) s) in
      let '(slot, target) := switch_context (main_loop s1) (EspIn cur) in
      to_scheduler target (store_frames cur FrDead (set_main_loop slot s1))
  | None => Undefined
  end.

(** The free function [schedule], as a running body calls it.  When a body
    run by the [InlineScheduler] fails an assertion, [Aborted] carries the
    state from before the call. *)
Definition call_schedule {W} (body : Fiber W) (s : State W) : Outcome W :=
  match global_scheduler s with
  | None => Thrown "Global scheduler is empty" s
  | Some FiberSchedulerK => Returned (schedule body s)
  | Some InlineSchedulerK =>
      match InlineScheduler.schedule body (world s) with
      | Some w => Returned (set_world w s)
      | None => Aborted s
      end
  end.

(** The body [p] runs on the block at [cur] until it parks in [yield],
    returns into [run_fiber], or stops the process.  An exception leaving
    the body crosses the stack switch, which the program does not define. *)
Fixpoint exec {W} (p : Fiber W) (cur : Z) (s : State W) : Outcome W :=
  match p with
  | Return => run_fiber_tail cur s
  | AssertFail => Aborted s
  | Upd f k => exec k cur (set_world (f (world s)) s)
  | Look k => exec (k (world s)) cur s
  | CallYield k =>
      match global_scheduler s with
      | None => Undefined
      | Some InlineSchedulerK => exec k cur s
      | Some FiberSchedulerK => yield k cur s
      end
  | CallSchedule body k =>
      match call_schedule body s with
      | Returned s' => exec k cur s'
      | Thrown _ _ => Undefined
      | o => o
      end
  end.

(** [static void run_fiber(FiberKeeper fiber)], entered through a context
    whose [esp] lies in the block at [cur]. *)
Definition run_fiber {W} (cur : Z) (s : State W) : Outcome W :=
  match heap s !! cur with
  | Some blk =>
      match fiber (blk_keeper blk) with
      | Some body => exec body cur (push_log (EvEnter (fk_id (blk_keeper blk))) s)
      | None => Undefined
      end
  | None => Undefined
  end.

(** Control arrives at [target] from [run_one]. *)
Definition to_fiber {W} (target : Context) (s : State W) : Outcome W :=
  match esp target, eip target with
  | EspIn b, EipRunFiber => run_fiber b s
  | EspIn b, EipRetLabel =>
      match heap s !! b with
      | Some blk =>
          match blk_frames blk with
          | FrParked k => exec k b (push_log (EvResume (fk_id (blk_keeper blk))) s)
          | _ => Undefined
          end
      | None => Undefined
      end
  | _, _ => Undefined
  end.

(** [void run_one()]; returns when the fiber switches back. *)
Definition run_one {W} (s : State W) : Outcome W :=
  match queue s with
  | [] => Aborted s                                   (* assert(!queue.empty()) *)
  | front :: rest =>
      let s1 := set_queue rest (set_main_loop front s) in
      let '(slot, target) := switch_context (main_loop s1) EspMain in
      to_fiber target (set_main_loop slot s1)
  end.

(** [void run() override]; [None] when [fuel] turns of the loop were not
    enough. *)
Fixpoint run {W} (fuel : nat) (s : State W) : option (Outcome W) :=
  match queue s with
  | [] => Some (Returned s)
  | _ :: _ =>
      match fuel with
      | O => None
      | S fuel' =>
          match run_one s with
          | Returned s' => run fuel' s'
          | o => Some o
          end
      end
  end.

End FiberScheduler.

(** ** The free functions *)

(** [void schedule(Fiber fiber)], called from outside any fiber. *)
Definition schedule {W} (fiber : Fiber W) (s : State W) : Outcome W :=
  FiberScheduler.call_schedule fiber s.

(** [void yield()], called from outside any fiber.  [FiberScheduler::yield]
    switches to whatever [main_loop] holds, which is then not a context
    waiting for this call. *)
Definition yield {W} (s : State W) : Outcome W :=
  match global_scheduler s with
  | None => Thrown "Global scheduler is empty" s
  | Some InlineSchedulerK => Returned s
  | Some FiberSchedulerK => Undefined
  end.

(** [void init_global_scheduler()]: the previous object, if any, is
    destroyed, and [~FiberScheduler] asserts that its queue is empty. *)
Definition init_global_scheduler {W} (s : State W) : Outcome W :=
  match global_scheduler s, queue s with
  | Some FiberSchedulerK, _ :: _ => Aborted s
  | _, _ => Returned (set_queue [] (set_global_scheduler (Some FiberSchedulerK) s))
  end.

(** [void run_global_scheduler()]: [global_scheduler->run()] with no test of
    the pointer. *)
Definition run_global_scheduler {W} (fuel : nat) (s : State W) : option (Outcome W) :=
  match global_scheduler s with
  | None => Some Undefined
  | Some InlineSchedulerK => Some (Returned s)
  | Some FiberSchedulerK => FiberScheduler.run fuel s
  end.

(** The process at the start of [main]: no scheduler, an empty pool, a
    zeroed [main_loop]. *)
Definition initial_state {W} (w : W) : State W :=
  {| world := w; global_scheduler := None; stacks := []; queue := [];
     main_loop := {| eip := EipNull; esp := EspNull |}; heap := ∅;
     brk := StackPool.STACK_SIZE; spawned := 0%nat; log := [] |}.

(** ** The test programs of main.cpp *)

(** The locals of a test function that its fibers capture by reference. *)
Record TestVars := { x : Z; cur_fiber : Z }.

(** [int] arithmetic wraps to 32 bits. *)
Definition int_wrap (z : Z) : Z := (z + 2 ^ 31) mod 2 ^ 32 - 2 ^ 31.

(** [++x;] *)
Definition incr_x (w : TestVars) : TestVars :=
  {| x := int_wrap (x w + 1); cur_fiber := cur_fiber w |}.

(** [cur_fiber = fiber_id;] *)
Definition set_cur_fiber (fiber_id : Z) (w : TestVars) : TestVars :=
  {| x := x w; cur_fiber := fiber_id |}.

Definition ITERS : nat := 10.

(** [for (int i = 0; i != n; ++i) { body }] followed by [k]; the counter
    lives in the fiber's own frame. *)
Fixpoint for_loop {W} (n : nat) (body : Fiber W -> Fiber W) (k : Fiber W) : Fiber W :=
  match n with
  | O => k
  | S n' => body (for_loop n' body k)
  end.

(** The lambda every test passes innermost: [++x;] (the line written to
    [std::cout] is not modelled). *)
Definition incr_fiber : Fiber TestVars := Upd incr_x Return.

(** [schedule(f)] nested [depth] times around [f]. *)
Fixpoint nested (depth : nat) (f : Fiber TestVars) : Fiber TestVars :=
  match depth with
  | O => f
  | S d => CallSchedule (nested d f) Return
  end.

(** The fiber of [test_yield_one], with the bound of its loop as a
    parameter. *)
Definition yield_loop (iters : nat) : Fiber TestVars :=
  for_loop iters (fun k => Upd incr_x (CallYield k)) Return.

Definition yield_one_fiber : Fiber TestVars := yield_loop ITERS.

(** One turn of the loop of [create_fiber(fiber_id)]. *)
Definition create_fiber_turn (fiber_id : Z) (k : Fiber TestVars) : Fiber TestVars :=
  Look (fun w =>
    if decide (cur_fiber w = fiber_id) then AssertFail
    else Upd (set_cur_fiber fiber_id) (Upd incr_x (CallYield k))).

(** [create_fiber(fiber_id)] of [test_yield_many], with the bound of its
    loop as a parameter. *)
Definition create_fiber_loop (iters : nat) (fiber_id : Z) : Fiber TestVars :=
  for_loop iters (create_fiber_turn fiber_id) Return.

Definition create_fiber (fiber_id : Z) : Fiber TestVars :=
  create_fiber_loop ITERS fiber_id.

(** Sequencing of the statements of a test. *)
Definition and_then {W} (o : option (Outcome W)) (f : State W -> option (Outcome W))
  : option (Outcome W) :=
  match o with
  | Some (Returned s) => f s
  | _ => o
  end.

(** [assert(c);] in a test function. *)
Definition assert_that {W} (c : W -> bool) (s : State W) : option (Outcome W) :=
  if c (world s) then Some (Returned s) else Some (Aborted s).

(** Declaration of the locals [int x = 0; int cur_fiber = -1;]. *)
Definition fresh_locals (s : State TestVars) : State TestVars :=
  set_world {| x := 0; cur_fiber := -1 |} s.

Definition schedule_all {W} (fs : list (Fiber W)) (s : State W)
  : option (Outcome W) :=
  foldl (fun o f => and_then o (fun s => Some (schedule f s))) (Some (Returned s)) fs.

Definition test_simple (fuel : nat) (s : State TestVars) : option (Outcome TestVars) :=
  and_then (schedule_all [incr_fiber] (fresh_locals s)) (fun s =>
  and_then (run_global_scheduler fuel s)
           (assert_that (fun w => bool_decide (x w = 1)))).

Definition test_multiple (fuel : nat) (s : State TestVars) : option (Outcome TestVars) :=
  and_then (schedule_all [incr_fiber; incr_fiber; incr_fiber] (fresh_locals s)) (fun s =>
  and_then (run_global_scheduler fuel s)
           (assert_that (fun w => bool_decide (x w = 3)))).

Definition test_recursive (fuel : nat) (s : State TestVars) : option (Outcome TestVars) :=
  and_then (schedule_all [nested 1 incr_fiber; nested 2 incr_fiber; nested 3 incr_fiber]
                         (fresh_locals s)) (fun s =>
  and_then (run_global_scheduler fuel s)
           (assert_that (fun w => bool_decide (x w = 3)))).

Definition test_yield_one (fuel : nat) (s : State TestVars) : option (Outcome TestVars) :=
  and_then (schedule_all [yield_one_fiber] (fresh_locals s)) (fun s =>
  and_then (assert_that (fun w => bool_decide (x w = 0)) s) (fun s =>
  and_then (run_global_scheduler fuel s)
           (assert_that (fun w => bool_decide (x w = Z.of_nat ITERS))))).

Definition test_yield_many (fuel : nat) (s : State TestVars) : option (Outcome TestVars) :=
  and_then (schedule_all [create_fiber 1; create_fiber 2; create_fiber 3]
                         (fresh_locals s)) (fun s =>
  and_then (assert_that (fun w => bool_decide (x w = 0)) s) (fun s =>
  and_then (run_global_scheduler fuel s)
           (assert_that (fun w => bool_decide (x w = 3 * Z.of_nat ITERS))))).

Definition test_secret (fuel : nat) (s : State TestVars) : option (Outcome TestVars) :=
  run_global_scheduler fuel s.

(** [int main()] *)
Definition main (fuel : nat) : option (Outcome TestVars) :=
  and_then (Some (init_global_scheduler (initial_state {| x := 0; cur_fiber := 0 |})))
    (fun s =>
  and_then (test_simple fuel s) (fun s =>
  and_then (test_multiple fuel s) (fun s =>
  and_then (test_recursive fuel s) (fun s =>
  and_then (test_yield_one fuel s) (fun s =>
  and_then (test_yield_many fuel s) (test_secret fuel)))))).

(** What the ghost log says. *)
Definition entered (l : list Event) : list nat :=
  omap (fun e => match e with EvEnter i => Some i | _ => None end) l.
Definition exited (l : list Event) : list nat :=
  omap (fun e => match e with EvExit i => Some i | _ => None end) l.
(** The fiber switched into at each turn of the loop of [run]. *)
Definition activations (l : list Event) : list nat :=
  omap (fun e => match e with EvEnter i | EvResume i => Some i | EvExit _ => None end) l.

(** What a program that returned leaves behind: the captured variables,
    the fibers switched to, and the free list of the pool. *)
Definition out_world {W} (o : option (Outcome W)) : option W :=
  match o with Some (Returned s) => Some (world s) | _ => None end.
Definition out_activations {W} (o : option (Outcome W)) : list nat :=
  match o with Some (Returned s) => activations (log s) | _ => [] end.
Definition out_stacks {W} (o : option (Outcome W)) : list Z :=
  match o with Some (Returned s) => stacks s | _ => [] end.

(** ** Vocabulary of the specification *)

(** The block a context's stack pointer lies in. *)
Definition ctx_block (c : Context) : Z :=
  match esp c with EspIn b => b | _ => 0 end.

(** What a queued context runs when it is switched to: the whole body of a
    fiber that has not started, or the rest of a parked one. *)
Definition ctx_todo {W} (h : gmap Z (Block W)) (c : Context) : option (Fiber W) :=
  match h !! ctx_block c with
  | Some blk =>
      match eip c with
      | EipRunFiber => fiber (blk_keeper blk)
      | EipRetLabel => match blk_frames blk with FrParked k => Some k | _ => None end
      | EipNull => None
      end
  | None => None
  end.

Definition todos {W} (s : State W) : list (Fiber W) :=
  omap (ctx_todo (heap s)) (queue s).

(** The ghost identity of the keeper stored in the block at [b]. *)
Definition blk_id {W} (h : gmap Z (Block W)) (b : Z) : nat :=
  match h !! b with Some blk => fk_id (blk_keeper blk) | None => 0%nat end.

Definition ctx_id {W} (h : gmap Z (Block W)) (c : Context) : nat :=
  blk_id h (ctx_block c).

(** Queued contexts of fibers that have not started. *)
Definition unstarted (q : list Context) : list Context :=
  filter (fun c => eip c = EipRunFiber) q.

(** A queued context is usable: it points into a live block whose keeper
    owns that block, and it is either the initial context of a keeper with
    a body or the context of a fiber parked in [yield]. *)
Definition ctx_ok {W} (h : gmap Z (Block W)) (c : Context) : Prop :=
  exists b blk,
    esp c = EspIn b /\ h !! b = Some blk /\ stack (blk_keeper blk) = b /\
    ((eip c = EipRunFiber /\ is_Some (fiber (blk_keeper blk))) \/
     (eip c = EipRetLabel /\ exists k, blk_frames blk = FrParked k)).

(** The state invariant.  [r] lists the blocks of the fibers that are
    executing: empty while [run] is between two fibers, one block while a
    body runs. *)
Record Inv {W} (r : list Z) (s : State W) : Prop := {
  inv_global : global_scheduler s = Some FiberSchedulerK;
  inv_brk : 0 < brk s /\ (forall b, is_Some (heap s !! b) -> 0 < b < brk s);
  inv_size : forall b blk, heap s !! b = Some blk -> blk_size blk = StackPool.STACK_SIZE;
  (* every block is in the free list or under exactly one keeper *)
  inv_owned : elements (dom (heap s)) ≡ₚ stacks s ++ r ++ (ctx_block <$> queue s);
  inv_queue : Forall (ctx_ok (heap s)) (queue s);
  inv_running : Forall (fun b => exists blk, heap s !! b = Some blk /\
                                             stack (blk_keeper blk) = b) r;
  (* every keeper ever constructed has left its body, is running or is queued *)
  inv_exited : seq 0 (spawned s) ≡ₚ
               exited (log s) ++ (blk_id (heap s) <$> r) ++ (ctx_id (heap s) <$> queue s);
  (* every keeper ever constructed has entered its body or is queued unstarted *)
  inv_entered : seq 0 (spawned s) ≡ₚ
                entered (log s) ++ (ctx_id (heap s) <$> unstarted (queue s))
}.

(** The points a body passes while the fiber on the block at [cur] is
    running, up to its next [yield] or its return: from [p] in state [s]
    the fiber gets to [p'] in state [s']. *)
Inductive body_reaches {W} (cur : Z) : Fiber W -> State W -> Fiber W -> State W -> Prop :=
| reaches_here p s : body_reaches cur p s p s
| reaches_upd f k s p' s' :
    body_reaches cur k (set_world (f (world s)) s) p' s' ->
    body_reaches cur (Upd f k) s p' s'
| reaches_look k s p' s' :
    body_reaches cur (k (world s)) s p' s' ->
    body_reaches cur (Look k) s p' s'
| reaches_schedule body k s p' s' :
    global_scheduler s = Some FiberSchedulerK ->
    body_reaches cur k (FiberScheduler.schedule body s) p' s' ->
    body_reaches cur (CallSchedule body k) s p' s'.

(** [y] is a proper part of the body [p]. *)
Fixpoint below {W} (y p : Fiber W) : Prop :=
  match p with
  | Return | AssertFail => False
  | Upd _ k | CallYield k => y = k \/ below y k
  | Look k => exists w, y = k w \/ below y (k w)
  | CallSchedule body k => (y = body \/ below y body) \/ (y = k \/ below y k)
  end.

(** No path through the body reaches a failing assertion. *)
Fixpoint NoAbort {W} (p : Fiber W) : Prop :=
  match p with
  | Return => True
  | AssertFail => False
  | Upd _ k | CallYield k => NoAbort k
  | Look k => forall w, NoAbort (k w)
  | CallSchedule body k => NoAbort body /\ NoAbort k
  end.

(** One step of the multiset order: an element is replaced by finitely many
    elements below it. *)
Definition shrinks {W} (N M : list (Fiber W)) : Prop :=
  exists a M0 K, M ≡ₚ a :: M0 /\ N ≡ₚ K ++ M0 /\ Forall (fun y => below y a) K.

(** The pool holds only blocks of the fixed size, and [calloc] has not yet
    handed out the addresses it will hand out from now on. *)
Definition pool_ok {W} (s : State W) : Prop :=
  Forall (fun b => exists blk, heap s !! b = Some blk /\
                               blk_size blk = StackPool.STACK_SIZE) (stacks s) /\
  (forall b, brk s <= b -> heap s !! b = None).

(** No two consecutive entries of a list are equal. *)
Fixpoint no_repeat {A} `{EqDecision A} (l : list A) : bool :=
  match l with
  | a :: (b :: _) as t => bool_decide (a <> b) && no_repeat t
  | _ => true
  end.

(** The process right after [init_global_scheduler()] in [main]. *)
Definition started_state {W} (w : W) : State W :=
  set_global_scheduler (Some FiberSchedulerK) (initial_state w).

(** ** The ready queue as a queue of fibers

    The specification describes the scheduler without stacks and saved
    registers: the ready queue holds fibers that have not started or are
    suspended in [yield], [run] takes the front one and lets it go on until
    it yields (it is put at the back) or completes, and [schedule] puts a
    new fiber at the back.  [Abstract] is that description; [abstract]
    reads it off a state of the program. *)

Inductive Entry (W : Type) :=
| Unstarted (id : nat) (body : Fiber W)
| Suspended (id : nat) (rest : Fiber W).
Arguments Unstarted {W} id body.
Arguments Suspended {W} id rest.

Definition entry_id {W} (e : Entry W) : nat :=
  match e with Unstarted i _ | Suspended i _ => i end.
Definition entry_todo {W} (e : Entry W) : Fiber W :=
  match e with Unstarted _ p | Suspended _ p => p end.
Definition entry_event {W} (e : Entry W) : Event :=
  match e with Unstarted i _ => EvEnter i | Suspended i _ => EvResume i end.

Module Abstract.

Record state (W : Type) := {
  vars : W;                      (* the captured variables *)
  ready : list (Entry W);        (* the ready queue, front first *)
  next_id : nat;                 (* fibers created so far *)
  trace : list Event             (* what has happened, oldest first *)
}.
Arguments vars {W} _.
Arguments ready {W} _.
Arguments next_id {W} _.
Arguments trace {W} _.

(** [schedule(body)]: a new fiber at the back of the queue. *)
Definition schedule {W} (body : Fiber W) (a : state W) : state W :=
  {| vars := vars a; ready := ready a ++ [Unstarted (next_id a) body];
     next_id := S (next_id a); trace := trace a |}.

(** Fiber [id] runs [p] until it yields or completes; [None] is a failed
    assertion. *)
Fixpoint exec {W} (p : Fiber W) (id : nat) (a : state W) : option (state W) :=
  match p with
  | Return =>
      Some {| vars := vars a; ready := ready a; next_id := next_id a;
              trace := trace a ++ [EvExit id] |}
  | AssertFail => None
  | Upd f k =>
      exec k id {| vars := f (vars a); ready := ready a; next_id := next_id a;
                   trace := trace a |}
  | Look k => exec (k (vars a)) id a
  | CallYield k =>
      Some {| vars := vars a; ready := ready a ++ [Suspended id k];
              next_id := next_id a; trace := trace a |}
  | CallSchedule body k => exec k id (schedule body a)
  end.

(** One turn of [run]: the front fiber is taken off the queue and runs. *)
Definition run_one {W} (a : state W) : option (state W) :=
  match ready a with
  | [] => None
  | e :: rest =>
      exec (entry_todo e) (entry_id e)
           {| vars := vars a; ready := rest; next_id := next_id a;
              trace := trace a ++ [entry_event e] |}
  end.

(** [run()]: outer [None] is lack of fuel, inner [None] a failed
    assertion. *)
Fixpoint run {W} (fuel : nat) (a : state W) : option (option (state W)) :=
  match ready a with
  | [] => Some (Some a)
  | _ :: _ =>
      match fuel with
      | O => None
      | S fuel' =>
          match run_one a with
          | Some a' => run fuel' a'
          | None => Some None
          end
      end
  end.

End Abstract.

(** The fiber a queued context stands for. *)
Definition ctx_entry {W} (h : gmap Z (Block W)) (c : Context) : option (Entry W) :=
  match h !! ctx_block c with
  | Some blk =>
      match eip c with
      | EipRunFiber => Unstarted (fk_id (blk_keeper blk)) <$> fiber (blk_keeper blk)
      | EipRetLabel =>
          match blk_frames blk with
          | FrParked k => Some (Suspended (fk_id (blk_keeper blk)) k)
          | _ => None
          end
      | EipNull => None
      end
  | None => None
  end.

Definition abstract {W} (s : State W) : Abstract.state W :=
  {| Abstract.vars := world s;
     Abstract.ready := omap (ctx_entry (heap s)) (queue s);
     Abstract.next_id := spawned s;
     Abstract.trace := log s |}.

(** How an outcome of the program reads as an outcome of the description. *)
Definition abstract_outcome {W} (o : option (Outcome W)) : option (option (Abstract.state W)) :=
  match o with
  | Some (Returned s) => Some (Some (abstract s))
  | Some _ => Some None
  | None => None
  end.

(** The queue entries of fibers made by [create_fiber], each given by its
    ghost identity and its [fiber_id], with [m] turns of the loop left. *)
Definition rr_entry (started : bool) (m : nat) (f : nat * Z) : Entry TestVars :=
  (if started then Suspended (fst f) else Unstarted (fst f))
    (create_fiber_loop m (snd f)).

Definition rr_event (started : bool) (f : nat * Z) : Event :=
  if started then EvResume (fst f) else EvEnter (fst f).

(** The locals after each fiber of [l] has gone through one turn. *)
Definition rr_vars (w : TestVars) (l : list (nat * Z)) : TestVars :=
  {| x := x w + Z.of_nat (length l);
     cur_fiber := foldl (fun _ f => snd f) (cur_fiber w) l |}.

(** A loop body that works on the captured variables and calls [yield]
    once, at its end; [k] stands for the turns that follow. *)
Inductive YieldsOnce {W} : (Fiber W -> Fiber W) -> Prop :=
| yields_once_yield : YieldsOnce CallYield
| yields_once_upd f t : YieldsOnce t -> YieldsOnce (fun k => Upd f (t k))
| yields_once_look t :
    (forall w, YieldsOnce (t w)) -> YieldsOnce (fun k => Look (fun w => t w k)).

(** The queue entry of a fiber that loops over the turn [snd f], with [m]
    turns left. *)
Definition loop_entry {W} (started : bool) (m : nat) (f : nat * (Fiber W -> Fiber W))
  : Entry W :=
  (if started then Suspended (fst f) else Unstarted (fst f)) (for_loop m (snd f) Return).

(** A caller passes the bodies [fs] to [schedule], one after the other. *)
Definition schedule_each {W} (fs : list (Fiber W)) (s : State W) : State W :=
  foldl (fun s f => FiberScheduler.schedule f s) s fs.

(** The process when [main] reaches its first test. *)
Definition test_start : State TestVars :=
  started_state {| x := 0; cur_fiber := -1 |}.

(** The process when [run] has switched to the fiber of [test_simple],
    which runs on the first block of the pool. *)
Definition test_running : State TestVars :=
  push_log (EvEnter 0)
    (set_main_loop FiberScheduler.scheduler_context
       (set_queue [] (FiberScheduler.schedule incr_fiber test_start))).

Definition test_running_block : Block TestVars :=
  {| blk_size := 1048576;
     blk_keeper := {| fiber := Some incr_fiber; stack := 1048576; fk_id := 0 |};
     blk_frames := FrZero |}.

(** The same process on a machine where [calloc] hands out its first
    block at another address. *)
Definition test_start_high : State TestVars := set_brk 3145728 test_start.

(** ** The end of the process

    [stack_pool] and [global_scheduler] have static storage duration: their
    destructors run when [main] has returned, in the reverse order of the
    definitions, so the pool's comes first. *)

(** [::free(ptr)] of the C library: a null pointer is left alone, a block
    [calloc] handed out is released, and any other pointer (one released
    before, too) is not defined. *)
Definition free {W} (ptr : Z) (s : State W) : Outcome W :=
  if decide (ptr = 0) then Returned s
  else match heap s !! ptr with
       | Some _ => Returned (set_heap (delete ptr (heap s)) s)
       | None => Undefined
       end.

(** [for (auto elem : stacks) { ::free(elem); }] *)
Fixpoint free_each {W} (elems : list Z) (s : State W) : Outcome W :=
  match elems with
  | [] => Returned s
  | elem :: rest =>
      match free elem s with
      | Returned s' => free_each rest s'
      | o => o
      end
  end.

(** [~StackPool()]: the loop, then the vector goes. *)
Definition StackPool_delete {W} (s : State W) : Outcome W :=
  match free_each (stacks s) s with
  | Returned s' => Returned (set_stacks [] s')
  | o => o
  end.

(** [~FiberScheduler() override { assert(queue.empty()); }] *)
Definition FiberScheduler_delete {W} (s : State W) : Outcome W :=
  match queue s with
  | [] => Returned s
  | _ :: _ => Aborted s
  end.

(** The destructor of [global_scheduler] deletes the scheduler it owns. *)
Definition global_scheduler_delete {W} (s : State W) : Outcome W :=
  match global_scheduler s with
  | None => Returned s
  | Some InlineSchedulerK => Returned (set_global_scheduler None s)
  | Some FiberSchedulerK =>
      match FiberScheduler_delete s with
      | Returned s' => Returned (set_global_scheduler None s')
      | o => o
      end
  end.

(** What follows the return of [main]. *)
Definition exit_process {W} (s : State W) : Outcome W :=
  match StackPool_delete s with
  | Returned s' => global_scheduler_delete s'
  | o => o
  end.

(** ** More vocabulary *)

(** The body calls neither [yield] nor [schedule]. *)
Fixpoint Straight {W} (p : Fiber W) : Prop :=
  match p with
  | Return | AssertFail => True
  | Upd _ k => Straight k
  | Look k => forall w, Straight (k w)
  | CallYield _ | CallSchedule _ _ => False
  end.

(** The body does not call [schedule]. *)
Fixpoint NoSchedule {W} (p : Fiber W) : Prop :=
  match p with
  | Return | AssertFail => True
  | Upd _ k | CallYield k => NoSchedule k
  | Look k => forall w, NoSchedule (k w)
  | CallSchedule _ _ => False
  end.

(** [schedule(f1); schedule(f2); ...] with the [InlineScheduler] installed,
    as a function of the captured variables. *)
Fixpoint inline_each {W} (fs : list (Fiber W)) (w : W) : option W :=
  match fs with
  | [] => Some w
  | f :: rest =>
      match InlineScheduler.schedule f w with
      | Some w' => inline_each rest w'
      | None => None
      end
  end.

(** The fibers of a queue that have not started. *)
Definition unstarted_ids {W} (q : list (Entry W)) : list nat :=
  omap (fun e => match e with Unstarted i _ => Some i | Suspended _ _ => None end) q.

(** The keepers constructed so far, in the order of their construction,
    are those whose body has been entered, in the order of entry, followed
    by those still queued unstarted, in the order of the queue. *)
Definition starts_in_order {W} (s : State W) : Prop :=
  entered (log s) ++ (ctx_id (heap s) <$> unstarted (queue s)) = seq 0 (spawned s).

(** The addresses of the next [n] blocks [calloc] hands out. *)
Definition next_blocks {W} (s : State W) (n : nat) : list Z :=
  (fun i => brk s + Z.of_nat i * StackPool.STACK_SIZE) <$> seq 0 n.

(** The blocks of the contexts that [fs] added to the queue of [s]. *)
Definition new_blocks {W} (fs : list (Fiber W)) (s : State W) : list Z :=
  ctx_block <$> drop (length (queue s)) (queue (schedule_each fs s)).

(** The queue entry of a chain of [snd f] nested [schedule] calls around
    the body [++x], numbered [fst f]. *)
Definition nested_entry (f : nat * nat) : Entry TestVars :=
  Unstarted (fst f) (nested (snd f) incr_fiber).

(** * Facts *)

(** Projections of updated states. *)
Ltac state_simpl :=
  cbn [world global_scheduler stacks queue main_loop heap brk spawned log
       set_world set_global_scheduler set_stacks set_queue set_main_loop
       set_heap set_brk set_spawned push_log queue_push
       fiber stack fk_id blk_size blk_keeper blk_frames eip esp fst snd
       Abstract.vars Abstract.ready Abstract.next_id Abstract.trace] in *.

(** ** The stack pool *)

Section PoolFacts.
Context {W : Type}.
Implicit Type s : State W.

Lemma alloc_recycles s l b :
  stacks s = l ++ [b] -> StackPool.alloc s = (b, set_stacks l s).
Proof.
  intros E. unfold StackPool.alloc.
  by rewrite E, last_snoc, removelast_last.
Qed.

Lemma alloc_fresh s :
  stacks s = [] -> StackPool.alloc s = calloc 1 StackPool.STACK_SIZE s.
Proof. intros E. unfold StackPool.alloc. by rewrite E. Qed.

Lemma alloc_after_free s b : StackPool.alloc (StackPool.free b s) = (b, s).
Proof.
  rewrite (alloc_recycles _ (stacks s) b) by done.
  by destruct s.
Qed.

Lemma last_cases (l : list Z) :
  (l = [] /\ last l = None) \/ (exists l' b, l = l' ++ [b] /\ last l = Some b).
Proof.
  destruct l as [|a l] using rev_ind; [by left|right].
  exists l, a. by rewrite last_snoc.
Qed.

(** C7: [alloc] hands out a block of [STACK_SIZE] = 1 MiB bytes.  With a
    non-empty free list it is the block freed last, which leaves the list
    while memory stays as it was (so the block keeps its old contents);
    with an empty free list it is a block [calloc] zero-filled, at an
    address not in use before.  [free] puts the block at the back of the
    list, so that of two freed blocks the second comes out first. *)
Theorem StackPool_alloc_free_contract s :
  pool_ok s ->
  let '(p, s') := StackPool.alloc s in
  StackPool.STACK_SIZE = 1048576 /\
  (exists blk, heap s' !! p = Some blk /\ blk_size blk = 1048576) /\
  pool_ok s' /\
  match last (stacks s) with
  | Some b => p = b /\ stacks s = stacks s' ++ [b] /\ heap s' = heap s /\ brk s' = brk s
  | None => stacks s = [] /\ stacks s' = [] /\ heap s !! p = None /\
            heap s' = <[p := zero_block 1048576]> (heap s)
  end /\
  (forall b, stacks (StackPool.free b s) = stacks s ++ [b] /\
             heap (StackPool.free b s) = heap s) /\
  (forall b1 b2,
      let '(q1, s1) := StackPool.alloc (StackPool.free b2 (StackPool.free b1 s)) in
      q1 = b2 /\ fst (StackPool.alloc s1) = b1).
Proof.
  intros [Hsz Hbrk].
  destruct (StackPool.alloc s) as [p s'] eqn:Ea.
  split; [done|].
  assert (Hfree : forall b, stacks (StackPool.free b s) = stacks s ++ [b] /\
                            heap (StackPool.free b s) = heap s) by done.
  assert (Hlifo : forall b1 b2,
      let '(q1, s1) := StackPool.alloc (StackPool.free b2 (StackPool.free b1 s)) in
      q1 = b2 /\ fst (StackPool.alloc s1) = b1).
  { intros b1 b2. rewrite alloc_after_free. split; [done|].
    by rewrite alloc_after_free. }
  destruct (last_cases (stacks s)) as [[E El]|(l & b & E & El)]; rewrite El.
  - rewrite alloc_fresh in Ea by done. injection Ea as <- <-.
    change (1 * StackPool.STACK_SIZE) with 1048576. unfold pool_ok. state_simpl.
    refine (conj _ (conj (conj _ _) (conj _ (conj Hfree Hlifo)))).
    + exists (zero_block 1048576). by rewrite lookup_insert_eq.
    + rewrite E. constructor.
    + intros b Hb. rewrite lookup_insert_ne by lia. apply Hbrk. lia.
    + repeat split; try done. apply Hbrk. lia.
  - rewrite (alloc_recycles _ l b) in Ea by done. injection Ea as <- <-.
    unfold pool_ok. state_simpl.
    rewrite E, Forall_app, Forall_singleton in Hsz. destruct Hsz as [Hl Hb].
    refine (conj Hb (conj (conj Hl Hbrk) (conj _ (conj Hfree Hlifo)))).
    by rewrite E.
Qed.
End PoolFacts.

Lemma StackPool_alloc_free_contract_witness :
  pool_ok test_start /\
  let '(p, s') := StackPool.alloc test_start in
  (exists blk, heap s' !! p = Some blk /\ blk_size blk = 1048576) /\ pool_ok s'.
Proof.
  assert (H : pool_ok test_start).
  { split; [constructor|]. intros b _. apply lookup_empty. }
  split; [exact H|].
  pose proof (StackPool_alloc_free_contract test_start H) as C.
  destruct (StackPool.alloc test_start) as [p s'].
  destruct C as (_ & Hblk & Hok & _). by split.
Defined.

Ltac state_unfold :=
  unfold queue_push, set_world, set_global_scheduler, set_stacks, set_queue,
    set_main_loop, set_heap, set_brk, set_spawned, push_log; state_simpl.

(** ** The invariant is kept by every operation *)

Section Frame.
Context {W : Type}.
Implicit Types (h : gmap Z (Block W)) (s : State W) (c : Context).

Lemma ctx_todo_frame h b blk c :
  ctx_block c ≠ b -> ctx_todo (<[b:=blk]> h) c = ctx_todo h c.
Proof. intros. unfold ctx_todo. by rewrite lookup_insert_ne. Qed.

Lemma blk_id_frame h b blk b' :
  b' ≠ b -> blk_id (<[b:=blk]> h) b' = blk_id h b'.
Proof. intros. unfold blk_id. by rewrite lookup_insert_ne. Qed.

Lemma ctx_id_frame h b blk c :
  ctx_block c ≠ b -> ctx_id (<[b:=blk]> h) c = ctx_id h c.
Proof. intros. by apply blk_id_frame. Qed.

Lemma ctx_ok_frame h b blk c :
  ctx_block c ≠ b -> ctx_ok h c -> ctx_ok (<[b:=blk]> h) c.
Proof.
  intros Hne (b0 & blk0 & He & Hh & Hrest).
  exists b0, blk0. split; [done|]. split; [|done].
  rewrite lookup_insert_ne; [done|]. unfold ctx_block in Hne. by rewrite He in Hne.
Qed.

Lemma todos_frame h b blk (q : list Context) :
  b ∉ ctx_block <$> q ->
  omap (ctx_todo (<[b:=blk]> h)) q = omap (ctx_todo h) q.
Proof.
  induction q as [|c q IH]; [done|]. rewrite fmap_cons, not_elem_of_cons.
  intros [Hc Hq]. cbn [omap list_omap]. rewrite ctx_todo_frame by done.
  by rewrite <- IH.
Qed.

Lemma ctx_entry_frame h b blk c :
  ctx_block c ≠ b -> ctx_entry (<[b:=blk]> h) c = ctx_entry h c.
Proof. intros. unfold ctx_entry. by rewrite lookup_insert_ne. Qed.

Lemma entries_frame h b blk (q : list Context) :
  b ∉ ctx_block <$> q ->
  omap (ctx_entry (<[b:=blk]> h)) q = omap (ctx_entry h) q.
Proof.
  induction q as [|c q IH]; [done|]. rewrite fmap_cons, not_elem_of_cons.
  intros [Hc Hq]. cbn [omap list_omap]. rewrite ctx_entry_frame by done.
  by rewrite <- IH.
Qed.

Lemma ids_frame h b blk (q : list Context) :
  b ∉ ctx_block <$> q ->
  ctx_id (<[b:=blk]> h) <$> q = ctx_id h <$> q.
Proof.
  induction q as [|c q IH]; [done|]. rewrite fmap_cons, not_elem_of_cons.
  intros [Hc Hq]. rewrite !fmap_cons, ctx_id_frame by done. by rewrite IH.
Qed.

Lemma blk_ids_frame h b blk (r : list Z) :
  b ∉ r -> blk_id (<[b:=blk]> h) <$> r = blk_id h <$> r.
Proof.
  induction r as [|c q IH]; [done|]. rewrite not_elem_of_cons.
  intros [Hc Hq]. rewrite !fmap_cons, blk_id_frame by done. by rewrite IH.
Qed.

Lemma ok_frame h b blk (q : list Context) :
  b ∉ ctx_block <$> q ->
  Forall (ctx_ok h) q -> Forall (ctx_ok (<[b:=blk]> h)) q.
Proof.
  induction q as [|c q IH]; [done|]. rewrite fmap_cons, not_elem_of_cons.
  intros [Hc Hq]. rewrite !Forall_cons. intros [? ?].
  split; [by apply ctx_ok_frame|by apply IH].
Qed.

Lemma unstarted_sub (q : list Context) b :
  b ∉ ctx_block <$> q -> b ∉ ctx_block <$> unstarted q.
Proof.
  intros Hb Hin. apply Hb. apply list_elem_of_fmap in Hin as (c & -> & Hc).
  apply list_elem_of_fmap. exists c. split; [done|].
  unfold unstarted in Hc. by apply list_elem_of_filter in Hc as [_ ?].
Qed.

Lemma inv_nodup r s :
  Inv r s -> NoDup (stacks s ++ r ++ (ctx_block <$> queue s)).
Proof.
  intros I. rewrite <- (inv_owned _ _ I). apply NoDup_elements.
Qed.

Lemma inv_dom r s b :
  Inv r s ->
  is_Some (heap s !! b) <-> b ∈ stacks s ++ r ++ (ctx_block <$> queue s).
Proof.
  intros I. rewrite <- (inv_owned _ _ I), elem_of_elements. symmetry. apply elem_of_dom.
Qed.

Lemma schedule_shape f r s :
  Inv r s ->
  exists b l brk' blk',
    FiberScheduler.schedule f s =
      {| world := world s; global_scheduler := global_scheduler s; stacks := l;
         queue := queue s ++ [{| eip := EipRunFiber; esp := EspIn b |}];
         main_loop := main_loop s; heap := <[b := blk']> (heap s); brk := brk';
         spawned := S (spawned s); log := log s |} /\
    blk_keeper blk' = {| fiber := Some f; stack := b; fk_id := spawned s |} /\
    blk_size blk' = StackPool.STACK_SIZE /\
    0 < b < brk' /\ brk s <= brk' /\
    (b ∉ r ++ (ctx_block <$> queue s)) /\
    elements (dom (<[b := blk']> (heap s))) ≡ₚ l ++ r ++ (ctx_block <$> queue s) ++ [b].
Proof.
  intros I. pose proof (inv_nodup _ _ I) as ND. pose proof (inv_brk _ _ I) as [Hb0 Hb].
  unfold FiberScheduler.schedule, FiberScheduler.FiberKeeper_new.
  destruct (last_cases (stacks s)) as [[E El]|(l & b & E & El)].
  - rewrite alloc_fresh by done. unfold calloc. state_simpl.
    unfold FiberScheduler.store_keeper. state_simpl. rewrite alter_insert_eq.
    unfold FiberScheduler.FiberKeeper_delete.
    change (stack (@FiberKeeper_zero W)) with 0. rewrite decide_True by done.
    unfold zero_block. state_unfold. rewrite E.
    assert (Hnone : heap s !! brk s = None).
    { destruct (heap s !! brk s) eqn:Eh; [|done].
      assert (0 < brk s < brk s) by (apply Hb; by rewrite Eh). lia. }
    eexists (brk s), [], _, _. split; [reflexivity|]. state_simpl.
    assert (StackPool.STACK_SIZE = 1048576) by done.
    split_and!; try done; try lia.
    + intros Hin. assert (is_Some (heap s !! brk s)) as [? ?]; [|congruence].
      apply (inv_dom r s); [done|]. rewrite elem_of_app. by right.
    + rewrite dom_insert_L, elements_union_singleton by (by apply not_elem_of_dom).
      rewrite (inv_owned _ _ I), E. solve_Permutation.
  - rewrite (alloc_recycles _ l b) by done. state_simpl.
    unfold FiberScheduler.store_keeper. state_simpl.
    unfold FiberScheduler.FiberKeeper_delete.
    change (stack (@FiberKeeper_zero W)) with 0. rewrite decide_True by done. state_unfold.
    assert (is_Some (heap s !! b)) as [blk Hblk].
    { apply (inv_dom r s); [done|]. rewrite E, !elem_of_app, list_elem_of_singleton. auto. }
    rewrite (alter_alt_Some _ _ _ _ Hblk).
    eexists b, l, _, _. split; [reflexivity|]. state_simpl.
    rewrite E in ND.
    split_and!; try done.
    + eapply inv_size; eauto.
    + apply Hb. by rewrite Hblk.
    + apply Hb. by rewrite Hblk.
    + rewrite <- app_assoc in ND. apply NoDup_app in ND as (_ & _ & ND).
      apply NoDup_cons in ND as [ND _]. done.
    + rewrite dom_insert_lookup_L by (by rewrite Hblk).
      rewrite (inv_owned _ _ I), E. solve_Permutation.
Qed.

Lemma schedule_inv f r s :
  Inv r s ->
  Inv r (FiberScheduler.schedule f s) /\
  todos (FiberScheduler.schedule f s) = todos s ++ [f] /\
  (exists b, queue (FiberScheduler.schedule f s) =
             queue s ++ [{| eip := EipRunFiber; esp := EspIn b |}]) /\
  main_loop (FiberScheduler.schedule f s) = main_loop s /\
  world (FiberScheduler.schedule f s) = world s /\
  log (FiberScheduler.schedule f s) = log s /\
  spawned (FiberScheduler.schedule f s) = S (spawned s) /\
  abstract (FiberScheduler.schedule f s) = Abstract.schedule f (abstract s) /\
  blk_id (heap (FiberScheduler.schedule f s)) <$> r = blk_id (heap s) <$> r.
Proof.
  intros I.
  destruct (schedule_shape f r s I)
    as (b & l & brk' & blk' & -> & Hk & Hsz & Hb & Hbrk & Hnin & Hperm).
  pose proof (inv_brk _ _ I) as [Hb0 Hlt].
  apply not_elem_of_app in Hnin as [Hr Hq].
  assert (Hid : ctx_id (<[b:=blk']> (heap s)) {| eip := EipRunFiber; esp := EspIn b |}
                = spawned s).
  { unfold ctx_id, blk_id, ctx_block. state_simpl. by rewrite lookup_insert_eq, Hk. }
  split_and!; try done;
    [|unfold todos; state_simpl|by exists b|unfold abstract, Abstract.schedule; state_simpl; f_equal
     |state_simpl; by apply blk_ids_frame].
  - constructor; state_simpl.
    + apply (inv_global _ _ I).
    + split; [lia|]. intros b0 [->|[? Hs]]%lookup_insert_is_Some; [lia|].
      apply Hlt in Hs. lia.
    + intros b0 blk [[-> <-]|[? Hs]]%lookup_insert_Some; [done|].
      by apply (inv_size _ _ I) in Hs.
    + by rewrite fmap_app.
    + apply Forall_app. split; [apply ok_frame; [done|apply (inv_queue _ _ I)]|].
      apply Forall_singleton. exists b, blk'. state_simpl.
      rewrite lookup_insert_eq, Hk. state_simpl. split_and!; try done. left. by split.
    + eapply Forall_impl; [apply Forall_and; split;
                           [apply (inv_running _ _ I)|apply Forall_forall; intros ? H; exact H]|].
      intros b0 [(blk & Hblk & Hst) Hin]. exists blk. split; [|done].
      rewrite lookup_insert_ne; [done|]. intros ->. done.
    + rewrite seq_S, fmap_app, blk_ids_frame, ids_frame by done.
      rewrite fmap_cons, Hid. state_simpl. rewrite (inv_exited _ _ I). solve_Permutation.
    + unfold unstarted. rewrite filter_app, filter_cons_True by done.
      rewrite filter_nil, fmap_app, fmap_cons, Hid.
      rewrite ids_frame by (by apply unstarted_sub).
      rewrite seq_S. state_simpl. fold (unstarted (queue s)).
      rewrite (inv_entered _ _ I). solve_Permutation.
  - rewrite omap_app, todos_frame by done. f_equal.
    cbn [omap list_omap]. unfold ctx_todo, ctx_block. state_simpl.
    by rewrite lookup_insert_eq, Hk.
  - rewrite omap_app, entries_frame by done. f_equal.
    cbn [omap list_omap]. unfold ctx_entry, ctx_block. state_simpl.
    by rewrite lookup_insert_eq, Hk.
Qed.

Lemma exited_snoc l e :
  exited (l ++ [e]) = exited l ++ match e with EvExit i => [i] | _ => [] end.
Proof. unfold exited. rewrite omap_app. by destruct e. Qed.

Lemma entered_snoc l e :
  entered (l ++ [e]) = entered l ++ match e with EvEnter i => [i] | _ => [] end.
Proof. unfold entered. rewrite omap_app. by destruct e. Qed.

Lemma inv_running_lookup cur s :
  Inv [cur] s -> exists blk, heap s !! cur = Some blk /\ stack (blk_keeper blk) = cur.
Proof. intros I. pose proof (inv_running _ _ I) as H. by rewrite Forall_singleton in H. Qed.

Lemma inv_running_fresh cur s :
  Inv [cur] s -> cur ∉ ctx_block <$> queue s.
Proof.
  intros I. pose proof (inv_nodup _ _ I) as ND.
  apply NoDup_app in ND as (_ & _ & ND). by apply NoDup_cons in ND as [? _].
Qed.

Lemma yield_inv k cur s :
  Inv [cur] s -> main_loop s = FiberScheduler.scheduler_context ->
  exists s', FiberScheduler.yield k cur s = Returned s' /\
    Inv [] s' /\ todos s' = todos s ++ [k] /\
    queue s' = queue s ++ [{| eip := EipRetLabel; esp := EspIn cur |}] /\
    world s' = world s /\ log s' = log s /\ spawned s' = spawned s /\
    stacks s' = stacks s /\
    abstract s' =
      {| Abstract.vars := world s;
         Abstract.ready := Abstract.ready (abstract s) ++
                           [Suspended (blk_id (heap s) cur) k];
         Abstract.next_id := spawned s; Abstract.trace := log s |}.
Proof.
  intros I Hm.
  destruct (inv_running_lookup _ _ I) as (blk & Hblk & Hst).
  pose proof (inv_running_fresh _ _ I) as Hq.
  pose proof (inv_brk _ _ I) as [Hb0 Hlt].
  unfold FiberScheduler.yield. state_simpl. rewrite last_snoc, removelast_last.
  unfold FiberScheduler.switch_context, FiberScheduler.to_scheduler.
  rewrite decide_True by done. eexists. split; [reflexivity|].
  unfold FiberScheduler.store_frames. state_simpl. rewrite (alter_alt_Some _ _ _ _ Hblk).
  set (blk' := {| blk_size := _ |}).
  assert (Hid : blk_id (<[cur:=blk']> (heap s)) cur = blk_id (heap s) cur).
  { unfold blk_id. by rewrite lookup_insert_eq, Hblk. }
  split_and!; try done; [|unfold todos; state_simpl|unfold abstract; state_simpl; f_equal].
  - constructor; state_simpl.
    + apply (inv_global _ _ I).
    + split; [done|].
      intros b0 [->|[? Hs]]%lookup_insert_is_Some; apply Hlt; [by rewrite Hblk|done].
    + intros b0 blk0 [[-> <-]|[? Hs]]%lookup_insert_Some;
        [by apply (inv_size _ _ I) in Hblk|by apply (inv_size _ _ I) in Hs].
    + rewrite dom_insert_lookup_L by (by rewrite Hblk).
      rewrite (inv_owned _ _ I), fmap_app. solve_Permutation.
    + apply Forall_app. split; [apply ok_frame; [done|apply (inv_queue _ _ I)]|].
      apply Forall_singleton. exists cur, blk'. state_simpl.
      rewrite lookup_insert_eq. split_and!; try done. right. split; [done|by exists k].
    + constructor.
    + rewrite fmap_app, ids_frame by done. rewrite fmap_cons.
      change (ctx_id (<[cur:=blk']> (heap s)) {| eip := EipRetLabel; esp := EspIn cur |})
        with (blk_id (<[cur:=blk']> (heap s)) cur).
      rewrite Hid, (inv_exited _ _ I). solve_Permutation.
    + unfold unstarted. rewrite filter_app, filter_cons_False by done.
      rewrite filter_nil, app_nil_r. fold (unstarted (queue s)).
      rewrite ids_frame by (by apply unstarted_sub). apply (inv_entered _ _ I).
  - rewrite omap_app, todos_frame by done. f_equal.
    cbn [omap list_omap]. unfold ctx_todo, ctx_block. state_simpl.
    by rewrite lookup_insert_eq.
  - rewrite omap_app, entries_frame by done. f_equal.
    cbn [omap list_omap]. unfold ctx_entry, ctx_block. state_simpl.
    rewrite lookup_insert_eq. unfold blk_id. by rewrite Hblk.
Qed.

Lemma tail_inv cur s :
  Inv [cur] s -> main_loop s = FiberScheduler.scheduler_context ->
  exists s', FiberScheduler.run_fiber_tail cur s = Returned s' /\
    Inv [] s' /\ todos s' = todos s /\ queue s' = queue s /\
    world s' = world s /\ log s' = log s ++ [EvExit (blk_id (heap s) cur)] /\
    spawned s' = spawned s /\ stacks s' = stacks s ++ [cur] /\
    abstract s' =
      {| Abstract.vars := world s; Abstract.ready := Abstract.ready (abstract s);
         Abstract.next_id := spawned s;
         Abstract.trace := log s ++ [EvExit (blk_id (heap s) cur)] |}.
Proof.
  intros I Hm.
  destruct (inv_running_lookup _ _ I) as (blk & Hblk & Hst).
  pose proof (inv_running_fresh _ _ I) as Hq.
  pose proof (inv_brk _ _ I) as [Hb0 Hlt].
  assert (Hpos : 0 < cur) by (apply Hlt; by rewrite Hblk).
  unfold FiberScheduler.run_fiber_tail. rewrite Hblk.
  unfold FiberScheduler.FiberKeeper_delete. rewrite Hst, decide_False by lia.
  unfold StackPool.free, FiberScheduler.switch_context, FiberScheduler.to_scheduler.
  state_simpl. rewrite Hm, decide_True by done. eexists. split; [reflexivity|].
  unfold FiberScheduler.store_frames. state_simpl. rewrite (alter_alt_Some _ _ _ _ Hblk).
  set (blk' := {| blk_size := _ |}).
  assert (Hid : blk_id (heap s) cur = fk_id (blk_keeper blk)).
  { unfold blk_id. by rewrite Hblk. }
  split_and!; try done;
    [|unfold todos; state_simpl; by apply todos_frame|by rewrite Hid
     |unfold abstract; state_simpl; rewrite Hid; f_equal; by apply entries_frame].
  constructor; state_simpl.
  - apply (inv_global _ _ I).
  - split; [done|].
    intros b0 [->|[? Hs]]%lookup_insert_is_Some; apply Hlt; [by rewrite Hblk|done].
  - intros b0 blk0 [[-> <-]|[? Hs]]%lookup_insert_Some;
      [by apply (inv_size _ _ I) in Hblk|by apply (inv_size _ _ I) in Hs].
  - rewrite dom_insert_lookup_L by (by rewrite Hblk).
    rewrite (inv_owned _ _ I). solve_Permutation.
  - apply ok_frame; [done|apply (inv_queue _ _ I)].
  - constructor.
  - rewrite ids_frame, exited_snoc by done.
    rewrite (inv_exited _ _ I), fmap_cons, Hid. solve_Permutation.
  - rewrite entered_snoc, app_nil_r.
    rewrite ids_frame by (by apply unstarted_sub). apply (inv_entered _ _ I).
Qed.

Lemma set_world_inv w r s : Inv r s -> Inv r (set_world w s).
Proof. intros I. destruct I. by constructor. Qed.

Lemma run_one_enter c q s :
  Inv [] s -> queue s = c :: q ->
  exists p s1,
    FiberScheduler.run_one s = FiberScheduler.exec p (ctx_block c) s1 /\
    Inv [ctx_block c] s1 /\ main_loop s1 = FiberScheduler.scheduler_context /\
    todos s = p :: todos s1 /\ queue s1 = q /\ world s1 = world s /\
    stacks s1 = stacks s /\ spawned s1 = spawned s /\ heap s1 = heap s /\
    log s1 = log s ++ [match eip c with
                       | EipRunFiber => EvEnter (ctx_id (heap s) c)
                       | _ => EvResume (ctx_id (heap s) c)
                       end] /\
    exists e, ctx_entry (heap s) c = Some e /\ entry_todo e = p /\
              entry_id e = blk_id (heap s1) (ctx_block c) /\
              log s1 = log s ++ [entry_event e].
Proof.
  intros I Hq.
  pose proof (inv_queue _ _ I) as Hok. rewrite Hq in Hok.
  apply Forall_cons in Hok as [(b & blk & He & Hblk & Hst & Hc) Hok].
  assert (Hb : ctx_block c = b) by (unfold ctx_block; by rewrite He).
  assert (Hid : ctx_id (heap s) c = fk_id (blk_keeper blk)).
  { unfold ctx_id, blk_id. by rewrite Hb, Hblk. }
  pose proof (inv_owned _ _ I) as Hown. pose proof (inv_exited _ _ I) as Hex.
  pose proof (inv_entered _ _ I) as Hen. rewrite Hq in Hown, Hex, Hen.
  rewrite fmap_cons, Hb in Hown. rewrite fmap_cons in Hex.
  assert (Inv0 : forall e, exited [e] = [] ->
            seq 0 (spawned s) ≡ₚ entered (log s ++ [e]) ++ (ctx_id (heap s) <$> unstarted q) ->
            Inv [b] (push_log e (set_main_loop FiberScheduler.scheduler_context
                                   (set_queue q (set_main_loop c s))))).
  { intros e He1 He2. constructor; state_simpl.
    - apply (inv_global _ _ I).
    - apply (inv_brk _ _ I).
    - apply (inv_size _ _ I).
    - rewrite Hown. solve_Permutation.
    - done.
    - apply Forall_singleton. by exists blk.
    - unfold exited in *. rewrite omap_app, He1, app_nil_r, Hex.
      rewrite Hid. change (blk_id (heap s) <$> [b]) with [blk_id (heap s) b].
      unfold blk_id. rewrite Hblk. solve_Permutation.
    - done. }
  unfold FiberScheduler.run_one. rewrite Hq. unfold FiberScheduler.switch_context.
  state_simpl. unfold FiberScheduler.to_fiber. rewrite He, Hb.
  destruct Hc as [[Hi [body Hbody]]|[Hi [k Hk]]]; rewrite Hi in *.
  - unfold FiberScheduler.run_fiber. state_simpl. rewrite Hblk, Hbody.
    eexists body, _. split; [reflexivity|]. rewrite Hid. split_and!; try done;
      [| |exists (Unstarted (fk_id (blk_keeper blk)) body); state_simpl;
          unfold ctx_entry, blk_id; by rewrite Hb, Hblk, Hi, Hbody].
    + apply Inv0; [done|]. rewrite entered_snoc, Hen.
      unfold unstarted. rewrite filter_cons_True by done. rewrite fmap_cons, Hid.
      solve_Permutation.
    + unfold todos. rewrite Hq. cbn [omap list_omap]. unfold ctx_todo at 1.
      by rewrite Hb, Hblk, Hi, Hbody.
  - state_simpl. rewrite Hblk, Hk.
    eexists k, _. split; [reflexivity|]. rewrite Hid. split_and!; try done;
      [| |exists (Suspended (fk_id (blk_keeper blk)) k); state_simpl;
          unfold ctx_entry, blk_id; by rewrite Hb, Hblk, Hi, Hk].
    + apply Inv0; [done|]. rewrite entered_snoc, app_nil_r, Hen.
      unfold unstarted. rewrite filter_cons_False; [done|]. by rewrite Hi.
    + unfold todos. rewrite Hq. cbn [omap list_omap]. unfold ctx_todo at 1.
      by rewrite Hb, Hblk, Hi, Hk.
Qed.

Lemma exec_inv p : forall cur s,
  Inv [cur] s -> main_loop s = FiberScheduler.scheduler_context ->
  (exists s' K, FiberScheduler.exec p cur s = Returned s' /\ Inv [] s' /\
      todos s' = todos s ++ K /\ Forall (fun y => below y p) K /\
      (spawned s <= spawned s')%nat) \/
  (exists s', FiberScheduler.exec p cur s = Aborted s' /\ ~ NoAbort p).
Proof.
  induction p as [| |f k IH|k IH|k IH|body _ k IH]; intros cur s I Hm; simpl.
  - destruct (tail_inv _ _ I Hm) as (s' & -> & I' & Ht & _ & _ & _ & Hsp & _).
    left. exists s', []. rewrite app_nil_r, Hsp. by split_and!.
  - right. exists s. split; [done|]. intros [].
  - destruct (IH cur (set_world (f (world s)) s))
      as [(s' & K & E & I' & Ht & HK & Hsp)|(s' & E & HN)];
      [by apply set_world_inv|done| |].
    + left. exists s', K. split_and!; try done.
      eapply Forall_impl; [exact HK|]. intros; by right.
    + right. by exists s'.
  - destruct (IH (world s) cur s)
      as [(s' & K & E & I' & Ht & HK & Hsp)|(s' & E & HN)]; [done..| |].
    + left. exists s', K. split_and!; try done.
      eapply Forall_impl; [exact HK|]. intros y ?. exists (world s). by right.
    + right. exists s'. split; [done|]. intros HA. apply HN, HA.
  - rewrite (inv_global _ _ I).
    destruct (yield_inv k _ _ I Hm) as (s' & -> & I' & Ht & _ & _ & _ & Hsp & _).
    left. exists s', [k]. rewrite Hsp. split_and!; try done.
    apply Forall_singleton. by left.
  - unfold FiberScheduler.call_schedule. rewrite (inv_global _ _ I).
    destruct (schedule_inv body _ _ I) as (I1 & Ht1 & _ & Hm1 & _ & _ & Hsp1).
    destruct (IH cur (FiberScheduler.schedule body s))
      as [(s' & K & E & I' & Ht & HK & Hsp)|(s' & E & HN)]; [done|congruence| |].
    + left. exists s', (body :: K). split_and!; try done.
      * by rewrite Ht, Ht1, <- app_assoc.
      * constructor; [left; by left|].
        eapply Forall_impl; [exact HK|]. intros; right; by right.
      * lia.
    + right. exists s'. split; [done|]. intros [_ HA]. by apply HN.
Qed.

(** Every point a running body passes is a point [exec] passes, and the
    invariant holds there. *)
Lemma body_reaches_inv cur (p p' : Fiber W) s s' :
  body_reaches cur p s p' s' ->
  FiberScheduler.exec p cur s = FiberScheduler.exec p' cur s' /\
  (Inv [cur] s -> Inv [cur] s' /\ main_loop s' = main_loop s).
Proof.
  induction 1 as [p s|f k s p' s' _ IH|k s p' s' _ IH|body k s p' s' Hg _ IH].
  - done.
  - destruct IH as (E & HI). split; [done|].
    intros I. by apply HI, set_world_inv.
  - done.
  - destruct IH as (E & HI). split.
    + simpl. unfold FiberScheduler.call_schedule. by rewrite Hg.
    + intros I. destruct (schedule_inv body _ _ I) as (I1 & _ & _ & Hm & _).
      destruct (HI I1) as [I2 Hm2]. split; [done|congruence].
Qed.

(** One turn of the loop of [run]. *)
Lemma run_one_inv s :
  Inv [] s -> queue s <> [] ->
  exists p T,
    todos s = p :: T /\
    ((exists s' K, FiberScheduler.run_one s = Returned s' /\ Inv [] s' /\
        todos s' = T ++ K /\ Forall (fun y => below y p) K /\
        (spawned s <= spawned s')%nat) \/
     (exists s', FiberScheduler.run_one s = Aborted s' /\ ~ NoAbort p)).
Proof.
  intros I Hq. destruct (queue s) as [|c q] eqn:E; [done|].
  destruct (run_one_enter c q s I E) as (p & s1 & -> & I1 & Hm & Ht & _ & _ & _ & Hsp & _).
  exists p, (todos s1). split; [done|]. rewrite <- Hsp.
  apply exec_inv; done.
Qed.
End Frame.

(** ** The program does what the queue of fibers does *)

Section Refinement.
Context {W : Type}.
Implicit Type s : State W.

Lemma exec_refines (p : Fiber W) : forall cur s,
  Inv [cur] s -> main_loop s = FiberScheduler.scheduler_context ->
  match FiberScheduler.exec p cur s with
  | Returned s' =>
      Inv [] s' /\
      Abstract.exec p (blk_id (heap s) cur) (abstract s) = Some (abstract s')
  | Aborted _ => Abstract.exec p (blk_id (heap s) cur) (abstract s) = None
  | _ => False
  end.
Proof.
  induction p as [| |f k IH|k IH|k IH|body _ k IH]; intros cur s I Hm; simpl.
  - destruct (tail_inv _ _ I Hm) as (s' & -> & I' & _ & _ & _ & _ & _ & _ & Ha).
    split; [done|]. by rewrite Ha.
  - done.
  - apply (IH cur (set_world (f (world s)) s)); [by apply set_world_inv|done].
  - by apply (IH (world s) cur s).
  - rewrite (inv_global _ _ I).
    destruct (yield_inv k _ _ I Hm) as (s' & -> & I' & _ & _ & _ & _ & _ & _ & Ha).
    split; [done|]. by rewrite Ha.
  - unfold FiberScheduler.call_schedule. rewrite (inv_global _ _ I).
    destruct (schedule_inv body _ _ I) as (I1 & _ & _ & Hm1 & _ & _ & _ & Ha & Hid).
    injection Hid as Hid. rewrite <- Ha, <- Hid.
    apply IH; [done|congruence].
Qed.

Lemma run_one_refines s :
  Inv [] s -> queue s <> [] ->
  Abstract.ready (abstract s) <> [] /\
  match FiberScheduler.run_one s with
  | Returned s' => Inv [] s' /\ Abstract.run_one (abstract s) = Some (abstract s')
  | Aborted _ => Abstract.run_one (abstract s) = None
  | _ => False
  end.
Proof.
  intros I Hq. destruct (queue s) as [|c q] eqn:E; [done|].
  destruct (run_one_enter c q s I E)
    as (p & s1 & -> & I1 & Hm & _ & Hq1 & Hw & _ & Hsp & Hh & _ & e & He & <- & Hid & Hl).
  assert (Hr : Abstract.ready (abstract s) = e :: Abstract.ready (abstract s1)).
  { unfold abstract. state_simpl. rewrite E, Hq1, Hh. cbn [omap list_omap]. by rewrite He. }
  split; [by rewrite Hr|].
  unfold Abstract.run_one. rewrite Hr, Hid.
  replace {| Abstract.vars := _ |} with (abstract s1).
  - by apply exec_refines.
  - unfold abstract. state_simpl. by rewrite Hw, Hsp, Hl.
Qed.

Lemma run_refines fuel : forall s,
  Inv [] s ->
  match FiberScheduler.run fuel s with
  | None => Abstract.run fuel (abstract s) = None
  | Some (Returned s') =>
      Inv [] s' /\ queue s' = [] /\
      Abstract.run fuel (abstract s) = Some (Some (abstract s'))
  | Some (Aborted _) => Abstract.run fuel (abstract s) = Some None
  | _ => False
  end.
Proof.
  assert (Hnil : forall s, queue s = [] -> Abstract.ready (abstract s) = []).
  { intros s E. unfold abstract. state_simpl. by rewrite E. }
  induction fuel as [|fuel IH]; intros s I; cbn [FiberScheduler.run Abstract.run].
  - destruct (queue s) as [|c q] eqn:E.
    + by rewrite (Hnil s E).
    + destruct (run_one_refines s I) as [Hr _]; [by rewrite E|].
      by destruct (Abstract.ready (abstract s)).
  - destruct (queue s) as [|c q] eqn:E.
    + by rewrite (Hnil s E).
    + destruct (run_one_refines s I) as [Hr H1]; [by rewrite E|].
      destruct (Abstract.ready (abstract s)) eqn:Er; [done|].
      destruct (FiberScheduler.run_one s) as [s1| | |]; try done.
      * destruct H1 as [I1 ->]. by apply IH.
      * by rewrite H1.
Qed.
End Refinement.

(** ** [run] comes to an end *)

Section Termination.
Context {W : Type}.
Implicit Types (p y a : Fiber W) (M N K : list (Fiber W)).

Lemma below_wf : well_founded (@below W).
Proof.
  intros p. induction p as [| |f k IH|k IH|k IH|body IHb k IHk];
    constructor; simpl; intros y Hy.
  - done.
  - done.
  - destruct Hy as [->|Hy]; [done|]. by apply (Acc_inv IH).
  - destruct Hy as [w [->|Hy]]; [done|]. by apply (Acc_inv (IH w)).
  - destruct Hy as [->|Hy]; [done|]. by apply (Acc_inv IH).
  - destruct Hy as [[->|Hy]|[->|Hy]]; [done| |done|].
    + by apply (Acc_inv IHb).
    + by apply (Acc_inv IHk).
Qed.

Lemma NoAbort_below y p : below y p -> NoAbort p -> NoAbort y.
Proof.
  induction p as [| |f k IH|k IH|k IH|body IHb k IHk]; simpl; intros Hy HA.
  - done.
  - done.
  - destruct Hy as [->|Hy]; auto.
  - destruct Hy as [w [->|Hy]]; eauto.
  - destruct Hy as [->|Hy]; auto.
  - destruct HA as [HA1 HA2]. destruct Hy as [[->|Hy]|[->|Hy]]; auto.
Qed.

Lemma shrinks_perm N N' M M' :
  N ≡ₚ N' -> M ≡ₚ M' -> shrinks N M -> shrinks N' M'.
Proof.
  intros HN HM (a & M0 & K & H1 & H2 & H3). exists a, M0, K.
  split_and!; [by rewrite <- HM|by rewrite <- HN|done].
Qed.

Lemma Acc_shrinks_perm M M' : M ≡ₚ M' -> Acc shrinks M -> Acc shrinks M'.
Proof.
  intros HM HA. constructor. intros N HN.
  apply (Acc_inv HA). by apply (shrinks_perm N N M' M).
Qed.

(** What a step below [a :: M0] can be: a step inside [M0], or [a]
    itself replaced. *)
Lemma shrinks_cons_inv N a M0 :
  shrinks N (a :: M0) ->
  (exists M, shrinks M M0 /\ N ≡ₚ a :: M) \/
  (exists K, Forall (fun y => below y a) K /\ N ≡ₚ K ++ M0).
Proof.
  intros (a' & M0' & K & HM & HN & HK).
  assert (Hin : a ∈ a' :: M0') by (rewrite <- HM; left).
  apply elem_of_cons in Hin as [->|Hin].
  - right. exists K. split; [done|]. apply Permutation_cons_inv in HM.
    by rewrite HN, HM.
  - left. apply list_elem_of_split in Hin as (l1 & l2 & ->).
    assert (HM0 : M0 ≡ₚ a' :: l1 ++ l2).
    { apply (Permutation_cons_inv (a:=a)). rewrite HM. solve_Permutation. }
    exists (K ++ l1 ++ l2). split.
    + exists a', (l1 ++ l2), K. by split_and!.
    + rewrite HN. solve_Permutation.
Qed.

Lemma Acc_shrinks_cons a M : Acc shrinks M -> Acc shrinks (a :: M).
Proof.
  revert M. induction (below_wf a) as [a _ IHa].
  intros M HM. induction HM as [M HM IHM].
  constructor. intros N [(M' & HM' & HN)|(K & HK & HN)]%shrinks_cons_inv.
  - apply (Acc_shrinks_perm (a :: M')); [done|]. by apply IHM.
  - apply (Acc_shrinks_perm (K ++ M)); [done|]. clear HN.
    induction K as [|y K IHK]; [by constructor|].
    apply Forall_cons in HK as [Hy HK]. simpl. apply IHa; [done|]. by apply IHK.
Qed.

Lemma shrinks_wf : well_founded (@shrinks W).
Proof.
  intros M. induction M as [|a M IH].
  - constructor. intros N (a & M0 & K & HM & _).
    by apply Permutation_nil_cons in HM.
  - by apply Acc_shrinks_cons.
Qed.

Lemma shrinks_step p T K :
  Forall (fun y => below y p) K -> shrinks (T ++ K) (p :: T).
Proof. intros HK. exists p, T, K. split_and!; [done|solve_Permutation|done]. Qed.

Lemma NoAbort_step p T K :
  Forall (fun y => below y p) K -> Forall NoAbort (p :: T) -> Forall NoAbort (T ++ K).
Proof.
  intros HK [Hp HT]%Forall_cons. apply Forall_app. split; [done|].
  eapply Forall_impl; [exact HK|]. intros y Hy. by apply (NoAbort_below y p).
Qed.

(** Whatever fuel [run] returns with, it returns with the queue empty. *)
Lemma run_inv fuel : forall (s s' : State W),
  Inv [] s -> FiberScheduler.run fuel s = Some (Returned s') ->
  Inv [] s' /\ queue s' = [] /\ (spawned s <= spawned s')%nat.
Proof.
  induction fuel as [|fuel IH]; intros s s' I; simpl.
  - destruct (queue s) eqn:E; [|done]. intros [= <-]. by split_and!.
  - destruct (queue s) as [|c q] eqn:E; [intros [= <-]; by split_and!|].
    destruct (run_one_inv s I) as (p & T & Ht & [(s1 & K & -> & I1 & _ & _ & Hsp)|(s1 & -> & _)]);
      [by rewrite E| |done].
    intros H. apply IH in H as (? & ? & ?); [|done]. split_and!; [done..|lia].
Qed.

Lemma run_total_from M : Acc shrinks M -> forall s : State W,
  todos s = M -> Inv [] s ->
  exists fuel o, FiberScheduler.run fuel s = Some o /\
    ((exists s', o = Returned s') \/
     (exists s', o = Aborted s' /\ ~ Forall NoAbort M)).
Proof.
  induction 1 as [M _ IH]. intros s <- I.
  destruct (queue s) as [|c q] eqn:E.
  { exists 0%nat, (Returned s). simpl. rewrite E. split; [done|]. left. by exists s. }
  destruct (run_one_inv s I)
    as (p & T & Ht & [(s1 & K & E1 & I1 & Ht1 & HK & _)|(s1 & E1 & HN)]); [by rewrite E|..].
  - destruct (IH (todos s1)) with (s := s1) as (fuel & o & Hrun & Ho); [|done..|].
    { rewrite Ht, Ht1. by apply shrinks_step. }
    exists (S fuel), o. simpl. rewrite E, E1. split; [done|].
    destruct Ho as [?|(s' & -> & HN)]; [by left|right].
    exists s'. split; [done|]. intros HA. apply HN. rewrite Ht1.
    apply (NoAbort_step p); [done|]. by rewrite <- Ht.
  - exists 1%nat, (Aborted s1). simpl. rewrite E, E1. split; [done|]. right.
    exists s1. split; [done|]. rewrite Ht. intros [? _]%Forall_cons. done.
Qed.

Lemma run_total (s : State W) :
  Inv [] s ->
  exists fuel o, FiberScheduler.run fuel s = Some o /\
    ((exists s', o = Returned s' /\ Inv [] s' /\ queue s' = [] /\
                 (spawned s <= spawned s')%nat) \/
     (exists s', o = Aborted s' /\ ~ Forall NoAbort (todos s))).
Proof.
  intros I.
  destruct (run_total_from (todos s) (shrinks_wf _) s eq_refl I) as (fuel & o & Hrun & Ho).
  exists fuel, o. split; [done|]. destruct Ho as [[s' ->]|?]; [left|by right].
  exists s'. split; [done|]. by apply (run_inv fuel s).
Qed.
End Termination.

(** ** Fibers that loop and yield, as the queue of fibers runs them *)

Section AbstractLoops.

Lemma activations_app (t1 t2 : list Event) :
  activations (t1 ++ t2) = activations t1 ++ activations t2.
Proof. apply omap_app. Qed.

Lemma incr_x_iter n w :
  0 <= x w -> x w + Z.of_nat n < 2 ^ 31 ->
  x (Nat.iter n incr_x w) = x w + Z.of_nat n /\
  cur_fiber (Nat.iter n incr_x w) = cur_fiber w.
Proof.
  induction n as [|n IH]; intros H0 Hn; simpl; [split; [lia|done]|].
  destruct IH as [IHx IHc]; [lia..|].
  set (w' := Nat.iter n incr_x w) in *. unfold incr_x. simpl.
  rewrite IHx. split; [|done]. unfold int_wrap.
  rewrite Z.mod_small by lia. lia.
Qed.

Lemma abstract_run_step {W} fuel (e : Entry W) rest w nid tr :
  Abstract.run (S fuel) {| Abstract.vars := w; Abstract.ready := e :: rest;
                           Abstract.next_id := nid; Abstract.trace := tr |} =
  match Abstract.exec (entry_todo e) (entry_id e)
          {| Abstract.vars := w; Abstract.ready := rest;
             Abstract.next_id := nid; Abstract.trace := tr ++ [entry_event e] |} with
  | Some a' => Abstract.run fuel a'
  | None => Some None
  end.
Proof. reflexivity. Qed.

(** A lone fiber that yields in each of [n] turns of its loop is switched
    to [n + 1] times. *)
Lemma abstract_yield_loop_trace n : forall e w nid tr,
  entry_todo e = yield_loop n ->
  exists tr',
    Abstract.run (S n) {| Abstract.vars := w; Abstract.ready := [e];
                          Abstract.next_id := nid; Abstract.trace := tr |} =
    Some (Some {| Abstract.vars := Nat.iter n incr_x w; Abstract.ready := [];
                  Abstract.next_id := nid; Abstract.trace := tr' |}) /\
    length (activations tr') = (length (activations tr) + S n)%nat.
Proof.
  induction n as [|n IH]; intros e w nid tr He.
  - eexists. rewrite abstract_run_step, He. split; [reflexivity|].
    state_simpl. rewrite !activations_app, !length_app.
    destruct e; unfold activations; simpl; lia.
  - destruct (IH (Suspended (entry_id e) (yield_loop n)) (incr_x w) nid
                 (tr ++ [entry_event e]) eq_refl) as (tr' & Hrun & Hlen).
    exists tr'. rewrite Nat.iter_succ_r.
    rewrite <- Hrun. rewrite abstract_run_step, He. split; [reflexivity|].
    rewrite Hlen. state_simpl. rewrite !activations_app, !length_app.
    destruct e; unfold activations; simpl; lia.
Qed.
End AbstractLoops.

Section RoundRobin.
Implicit Types (l : list (nat * Z)) (w : TestVars).

Lemma activations_rr_events b l : activations (rr_event b <$> l) = fst <$> l.
Proof.
  induction l as [|f l IH]; [done|]. rewrite !fmap_cons. unfold activations in *.
  cbn [omap list_omap]. rewrite IH. by destruct b.
Qed.

Lemma rr_entry_todo b m f : entry_todo (rr_entry b m f) = create_fiber_loop m (snd f).
Proof. by destruct b. Qed.
Lemma rr_entry_id b m f : entry_id (rr_entry b m f) = fst f.
Proof. by destruct b. Qed.
Lemma rr_entry_event b m f : entry_event (rr_entry b m f) = rr_event b f.
Proof. by destruct b. Qed.

(** Every fiber at the front of the queue goes through one turn of its
    loop and lines up again at the back. *)
Lemma rr_round m b : forall l2 l1 w nid tr fuel,
  NoDup (snd <$> l2) ->
  head (snd <$> l2) <> Some (cur_fiber w) ->
  0 <= x w -> x w + Z.of_nat (length l2) < 2 ^ 31 ->
  Abstract.run (length l2 + fuel)
    {| Abstract.vars := w;
       Abstract.ready := (rr_entry b (S m) <$> l2) ++ (rr_entry true m <$> l1);
       Abstract.next_id := nid; Abstract.trace := tr |} =
  Abstract.run fuel
    {| Abstract.vars := rr_vars w l2;
       Abstract.ready := rr_entry true m <$> (l1 ++ l2);
       Abstract.next_id := nid;
       Abstract.trace := tr ++ (rr_event b <$> l2) |}.
Proof.
  induction l2 as [|[i fid] l2 IH]; intros l1 w nid tr fuel ND Hhd Hx0 Hx.
  - simpl. rewrite !app_nil_r. unfold rr_vars. simpl. rewrite Z.add_0_r. by destruct w.
  - rewrite fmap_cons in ND. apply NoDup_cons in ND as [Hfid ND].
    cbn [length Nat.add fmap list_fmap app]. rewrite abstract_run_step.
    assert (Hne : cur_fiber w <> fid) by (intros <-; by apply Hhd).
    rewrite rr_entry_todo, rr_entry_id, rr_entry_event.
    change (create_fiber_loop (S m) (snd (i, fid)))
      with (create_fiber_turn fid (create_fiber_loop m fid)).
    unfold create_fiber_turn. cbn [Abstract.exec Abstract.vars fst snd].
    rewrite decide_False by done.
    cbn [Abstract.exec Abstract.vars Abstract.ready Abstract.next_id Abstract.trace].
    rewrite <- app_assoc.
    change (rr_entry true m <$> l1) with (list_fmap _ _ (rr_entry true m) l1).
    change ([Suspended i (create_fiber_loop m fid)]) with (rr_entry true m <$> [(i, fid)]).
    change (list_fmap _ _ (rr_entry true m) l1) with (rr_entry true m <$> l1).
    rewrite <- fmap_app.
    rewrite (IH (l1 ++ [(i, fid)])); cycle 1.
    + done.
    + simpl. destruct l2 as [|[j fid'] l2]; [done|]. simpl. intros [= ->].
      apply Hfid. rewrite fmap_cons. left.
    + simpl. unfold int_wrap. rewrite Z.mod_small by (simpl in Hx; lia). lia.
    + simpl. unfold int_wrap. rewrite Z.mod_small by (simpl in Hx; lia).
      simpl in Hx. lia.
    + f_equal. f_equal.
      * unfold rr_vars. simpl. unfold int_wrap. rewrite Z.mod_small by (simpl in Hx; lia).
        f_equal. lia.
      * by rewrite <- app_assoc.
      * by rewrite <- app_assoc.
Qed.

(** With no turn left, each fiber in the queue returns when it is
    switched to. *)
Lemma rr_last b : forall l w nid tr fuel,
  exists tr',
    Abstract.run (length l + fuel)
      {| Abstract.vars := w; Abstract.ready := rr_entry b 0 <$> l;
         Abstract.next_id := nid; Abstract.trace := tr |} =
    Abstract.run fuel
      {| Abstract.vars := w; Abstract.ready := [];
         Abstract.next_id := nid; Abstract.trace := tr' |} /\
    activations tr' = activations tr ++ (fst <$> l).
Proof.
  induction l as [|[i fid] l IH]; intros w nid tr fuel.
  - exists tr. by rewrite app_nil_r.
  - cbn [length Nat.add fmap list_fmap]. rewrite abstract_run_step.
    rewrite rr_entry_todo, rr_entry_id, rr_entry_event.
    cbn [create_fiber_loop for_loop Abstract.exec Abstract.vars Abstract.ready
         Abstract.next_id Abstract.trace fst snd].
    destruct (IH w nid ((tr ++ [rr_event b (i, fid)]) ++ [EvExit i]) fuel) as (tr' & -> & Ha).
    exists tr'. split; [done|]. rewrite Ha, !activations_app, <- !app_assoc.
    f_equal. destruct b; reflexivity.
Qed.

Lemma rr_vars_x w l : x (rr_vars w l) = x w + Z.of_nat (length l).
Proof. done. Qed.

Lemma foldl_snd_in (d : Z) f l :
  foldl (fun _ g => snd g) d (f :: l) ∈ snd <$> (f :: l).
Proof.
  revert d f. induction l as [|g l IH]; intros d f.
  - apply list_elem_of_here.
  - rewrite fmap_cons. apply list_elem_of_further. apply (IH (snd f) g).
Qed.

Lemma rr_vars_cur w l :
  NoDup (snd <$> l) -> (2 <= length l)%nat ->
  head (snd <$> l) <> Some (cur_fiber (rr_vars w l)).
Proof.
  unfold rr_vars. cbn [cur_fiber]. destruct l as [|[i fid] [|f l]]; [simpl; lia..|].
  rewrite fmap_cons. intros [Hfid _]%NoDup_cons _ [= E].
  apply Hfid. rewrite E. apply (foldl_snd_in fid f l).
Qed.

(** [m] turns each, then one more switch in which each fiber returns. *)
Lemma rr_all m : forall b l w nid tr,
  NoDup (snd <$> l) -> (2 <= length l)%nat ->
  head (snd <$> l) <> Some (cur_fiber w) ->
  0 <= x w -> x w + Z.of_nat (m * length l) < 2 ^ 31 ->
  exists w' tr',
    Abstract.run (S m * length l)
      {| Abstract.vars := w; Abstract.ready := rr_entry b m <$> l;
         Abstract.next_id := nid; Abstract.trace := tr |} =
    Some (Some {| Abstract.vars := w'; Abstract.ready := [];
                  Abstract.next_id := nid; Abstract.trace := tr' |}) /\
    x w' = x w + Z.of_nat (m * length l) /\
    activations tr' = activations tr ++ concat (replicate (S m) (fst <$> l)).
Proof.
  induction m as [|m IH]; intros b l w nid tr ND Hlen Hhd Hx0 Hx.
  - destruct (rr_last b l w nid tr 0) as (tr' & Hrun & Ha).
    exists w, tr'. rewrite Nat.add_0_r in Hrun. simpl. rewrite Nat.add_0_r, Hrun.
    split_and!; [done|lia|]. by rewrite Ha, app_nil_r.
  - pose proof (rr_round m b l [] w nid tr (S m * length l) ND Hhd Hx0) as Hr.
    rewrite app_nil_r in Hr. simpl app in Hr.
    destruct (IH true l (rr_vars w l) nid (tr ++ (rr_event b <$> l)))
      as (w' & tr' & Hrun & Hxw & Ha); try done.
    + by apply rr_vars_cur.
    + rewrite rr_vars_x. lia.
    + rewrite rr_vars_x. lia.
    + exists w', tr'. split_and!.
      * change (S (S m) * length l)%nat with (length l + S m * length l)%nat.
        rewrite Hr by lia. exact Hrun.
      * rewrite Hxw, rr_vars_x. lia.
      * rewrite Ha, activations_app, activations_rr_events, <- app_assoc. done.
Qed.
End RoundRobin.

(** ** Any fibers that loop and yield once per turn *)

Section GenericRoundRobin.
Context {W : Type}.
Implicit Types (l : list (nat * (Fiber W -> Fiber W))) (w : W).

Lemma yields_once_exec (t : Fiber W -> Fiber W) :
  YieldsOnce t ->
  forall k id (a : Abstract.state W), exists w',
    Abstract.exec (t k) id a =
    Some {| Abstract.vars := w'; Abstract.ready := Abstract.ready a ++ [Suspended id k];
            Abstract.next_id := Abstract.next_id a; Abstract.trace := Abstract.trace a |}.
Proof.
  induction 1 as [|f t _ IH|t _ IH]; intros k id a; simpl.
  - by eexists.
  - destruct (IH k id {| Abstract.vars := f (Abstract.vars a);
                         Abstract.ready := Abstract.ready a;
                         Abstract.next_id := Abstract.next_id a;
                         Abstract.trace := Abstract.trace a |}) as [w' E].
    exists w'. exact E.
  - apply IH.
Qed.

Lemma loop_entry_todo b m (f : nat * (Fiber W -> Fiber W)) :
  entry_todo (loop_entry b m f) = for_loop m (snd f) Return.
Proof. by destruct b. Qed.
Lemma loop_entry_id b m (f : nat * (Fiber W -> Fiber W)) :
  entry_id (loop_entry b m f) = fst f.
Proof. by destruct b. Qed.
Lemma loop_entry_event b m (f : nat * (Fiber W -> Fiber W)) :
  entry_event (loop_entry b m f) = rr_event b (fst f, 0).
Proof. by destruct b. Qed.

Lemma loop_round m b : forall l2 l1 w nid tr fuel,
  Forall (fun f => YieldsOnce (snd f)) l2 ->
  exists w' tr',
    Abstract.run (length l2 + fuel)
      {| Abstract.vars := w;
         Abstract.ready := (loop_entry b (S m) <$> l2) ++ (loop_entry true m <$> l1);
         Abstract.next_id := nid; Abstract.trace := tr |} =
    Abstract.run fuel
      {| Abstract.vars := w';
         Abstract.ready := loop_entry true m <$> (l1 ++ l2);
         Abstract.next_id := nid; Abstract.trace := tr' |} /\
    activations tr' = activations tr ++ (fst <$> l2).
Proof.
  induction l2 as [|[i t] l2 IH]; intros l1 w nid tr fuel Hl.
  - exists w, tr. simpl. by rewrite !app_nil_r.
  - apply Forall_cons in Hl as [Ht Hl]. simpl in Ht.
    cbn [length Nat.add fmap list_fmap app]. rewrite abstract_run_step.
    rewrite loop_entry_todo, loop_entry_id, loop_entry_event. cbn [fst snd for_loop].
    match goal with |- context [Abstract.exec _ i ?a] =>
      destruct (yields_once_exec t Ht (for_loop m t Return) i a) as [w1 E]
    end.
    rewrite E.
    cbn [Abstract.ready Abstract.next_id Abstract.trace].
    rewrite <- app_assoc.
    change ([Suspended i (for_loop m t Return)]) with (loop_entry true m <$> [(i, t)]).
    rewrite <- fmap_app.
    destruct (IH (l1 ++ [(i, t)]) w1 nid (tr ++ [rr_event b (i, 0)]) fuel Hl)
      as (w' & tr' & Hrun & Hact).
    exists w', tr'. split.
    + rewrite <- app_assoc in Hrun. exact Hrun.
    + rewrite Hact, activations_app, <- app_assoc. f_equal. by destruct b.
Qed.

Lemma loop_last b : forall l w nid tr fuel,
  exists tr',
    Abstract.run (length l + fuel)
      {| Abstract.vars := w; Abstract.ready := loop_entry b 0 <$> l;
         Abstract.next_id := nid; Abstract.trace := tr |} =
    Abstract.run fuel
      {| Abstract.vars := w; Abstract.ready := [];
         Abstract.next_id := nid; Abstract.trace := tr' |} /\
    activations tr' = activations tr ++ (fst <$> l).
Proof.
  induction l as [|[i t] l IH]; intros w nid tr fuel.
  - exists tr. by rewrite app_nil_r.
  - cbn [length Nat.add fmap list_fmap]. rewrite abstract_run_step.
    rewrite loop_entry_todo, loop_entry_id, loop_entry_event.
    cbn [for_loop Abstract.exec Abstract.vars Abstract.ready
         Abstract.next_id Abstract.trace fst snd].
    destruct (IH w nid ((tr ++ [rr_event b (i, 0)]) ++ [EvExit i]) fuel) as (tr' & -> & Ha).
    exists tr'. split; [done|]. rewrite Ha, !activations_app, <- !app_assoc.
    f_equal. destruct b; reflexivity.
Qed.

(** [m] turns each in the order of the queue, then one more switch in
    which each fiber returns. *)
Lemma loop_all m : forall b l w nid tr,
  Forall (fun f => YieldsOnce (snd f)) l ->
  exists w' tr',
    Abstract.run (S m * length l)
      {| Abstract.vars := w; Abstract.ready := loop_entry b m <$> l;
         Abstract.next_id := nid; Abstract.trace := tr |} =
    Some (Some {| Abstract.vars := w'; Abstract.ready := [];
                  Abstract.next_id := nid; Abstract.trace := tr' |}) /\
    activations tr' = activations tr ++ concat (replicate (S m) (fst <$> l)).
Proof.
  induction m as [|m IH]; intros b l w nid tr Hl.
  - destruct (loop_last b l w nid tr 0) as (tr' & Hrun & Ha).
    exists w, tr'. rewrite Nat.add_0_r in Hrun. simpl. rewrite Nat.add_0_r, Hrun.
    split; [done|]. by rewrite Ha, app_nil_r.
  - destruct (loop_round m b l [] w nid tr (S m * length l) Hl) as (w1 & tr1 & Hr & Ha1).
    rewrite app_nil_r in Hr. simpl app in Hr.
    destruct (IH true l w1 nid tr1 Hl) as (w' & tr' & Hrun & Ha).
    exists w', tr'. split.
    + change (S (S m) * length l)%nat with (length l + S m * length l)%nat.
      by rewrite Hr.
    + rewrite Ha, Ha1, <- app_assoc. done.
Qed.
End GenericRoundRobin.

(** ** Lists without immediate repetition *)

Section NoRepeat.
Context {A : Type} `{EqDecision A}.
Implicit Types l : list A.

Lemma no_repeat_app l1 l2 :
  no_repeat l1 = true -> no_repeat l2 = true ->
  (forall a b, last l1 = Some a -> head l2 = Some b -> a <> b) ->
  no_repeat (l1 ++ l2) = true.
Proof.
  induction l1 as [|a [|a' l1] IH]; intros H1 H2 Hj; [done| |].
  - destruct l2 as [|b l2]; [done|]. simpl in *. rewrite H2, andb_true_r.
    apply bool_decide_eq_true. by apply Hj.
  - simpl in H1. apply andb_true_iff in H1 as [Ha H1].
    change (no_repeat (a :: a' :: (l1 ++ l2)) = true). simpl. rewrite Ha. simpl.
    apply IH; [done..|]. intros x y Hx. apply Hj. by rewrite last_cons_cons.
Qed.

Lemma NoDup_no_repeat l : NoDup l -> no_repeat l = true.
Proof.
  induction l as [|a [|b l] IH]; intros ND; [done..|].
  apply NoDup_cons in ND as [Ha ND]. simpl. rewrite andb_true_iff. split.
  - apply bool_decide_eq_true. intros ->. apply Ha. left.
  - by apply IH.
Qed.

Lemma NoDup_last_head l a b :
  NoDup l -> (2 <= length l)%nat -> last l = Some a -> head l = Some b -> a <> b.
Proof.
  destruct l as [|c [|d l]]; [simpl; lia..|]. intros [Hc _]%NoDup_cons _ Hl [= ->].
  rewrite last_cons_cons in Hl. intros ->. by apply Hc, last_Some_elem_of.
Qed.

(** Going through a duplicate-free list of two or more again and again
    never meets the same element twice in a row. *)
Lemma no_repeat_rounds n l :
  NoDup l -> (2 <= length l)%nat -> no_repeat (concat (replicate n l)) = true.
Proof.
  intros ND Hlen. induction n as [|n IH]; [done|]. simpl.
  apply no_repeat_app; [by apply NoDup_no_repeat|done|].
  intros a b Ha Hb. apply (NoDup_last_head l); [done..|].
  destruct n as [|n]; [done|]. simpl in Hb. rewrite head_app in Hb.
  destruct (head l) eqn:E; [done|]. destruct l; [simpl in Hlen; lia|done].
Qed.
End NoRepeat.

(** ** From the queue of fibers back to the program *)

Section Linking.
Context {W : Type}.
Implicit Type s : State W.

Lemma schedule_list_inv (fs : list (Fiber W)) : forall r s,
  Inv r s ->
  let s' := schedule_each fs s in
  Inv r s' /\ todos s' = todos s ++ fs /\ main_loop s' = main_loop s /\
  world s' = world s /\ log s' = log s /\
  spawned s' = (spawned s + length fs)%nat /\
  length (queue s') = (length (queue s) + length fs)%nat /\
  abstract s' = foldl (fun a f => Abstract.schedule f a) (abstract s) fs.
Proof.
  unfold schedule_each.
  induction fs as [|f fs IH]; intros r s I; simpl.
  - rewrite app_nil_r, !Nat.add_0_r. by split_and!.
  - destruct (schedule_inv f r s I) as (I1 & Ht & [b Hq] & Hm & Hw & Hl & Hsp & Ha & _).
    destruct (IH r _ I1) as (I2 & Ht2 & Hm2 & Hw2 & Hl2 & Hsp2 & Hq2 & Ha2).
    split_and!; try congruence.
    + by rewrite Ht2, Ht, <- app_assoc.
    + rewrite Hsp2, Hsp. lia.
    + rewrite Hq2, Hq, length_app. simpl. lia.
Qed.
End Linking.

Section MoreLinking.
Context {W : Type}.
Implicit Type s : State W.

Lemma started_state_inv (w : W) : Inv [] (started_state w).
Proof.
  constructor; unfold started_state, initial_state; state_simpl; try done.
  split; [done|]. intros b [? Hb]. by rewrite lookup_empty in Hb.
Qed.

(** Where [calloc] starts does not matter to the invariant. *)
Lemma set_brk_inv (b : Z) (w : W) : 0 < b -> Inv [] (set_brk b (started_state w)).
Proof.
  intros Hb. constructor; unfold started_state, initial_state; state_simpl; try done.
  split; [done|]. intros b0 [? H]. by rewrite lookup_empty in H.
Qed.

Lemma run_from_abstract fuel s a' :
  Inv [] s -> Abstract.run fuel (abstract s) = Some (Some a') ->
  exists s', FiberScheduler.run fuel s = Some (Returned s') /\
    abstract s' = a' /\ Inv [] s' /\ queue s' = [].
Proof.
  intros I Ha. pose proof (run_refines fuel s I) as H.
  destruct (FiberScheduler.run fuel s) as [[s'| | |]|]; try done; rewrite Ha in H.
  - destruct H as (I' & Hq & [= ->]). by exists s'.
  - done.
  - done.
Qed.

Lemma abstract_outcome_run fuel s :
  Inv [] s -> abstract_outcome (FiberScheduler.run fuel s) = Abstract.run fuel (abstract s).
Proof.
  intros I. pose proof (run_refines fuel s I) as H.
  destruct (FiberScheduler.run fuel s) as [[s'| | |]|]; try done.
  by destruct H as (_ & _ & ->).
Qed.

Lemma abstract_schedule_each (fs : list (Fiber W)) : forall a,
  foldl (fun a f => Abstract.schedule f a) a fs =
  {| Abstract.vars := Abstract.vars a;
     Abstract.ready := Abstract.ready a ++
                       zip_with Unstarted (seq (Abstract.next_id a) (length fs)) fs;
     Abstract.next_id := (Abstract.next_id a + length fs)%nat;
     Abstract.trace := Abstract.trace a |}.
Proof.
  induction fs as [|f fs IH]; intros a; simpl.
  - rewrite app_nil_r, Nat.add_0_r. by destruct a.
  - rewrite IH. unfold Abstract.schedule. simpl. rewrite <- app_assoc.
    f_equal. lia.
Qed.

(** [schedule] whatever the state: the body is stored, not run. *)
Lemma schedule_frame (f : Fiber W) s :
  world (FiberScheduler.schedule f s) = world s /\
  log (FiberScheduler.schedule f s) = log s /\
  main_loop (FiberScheduler.schedule f s) = main_loop s /\
  global_scheduler (FiberScheduler.schedule f s) = global_scheduler s /\
  spawned (FiberScheduler.schedule f s) = S (spawned s) /\
  queue (FiberScheduler.schedule f s) =
    queue s ++ [{| eip := EipRunFiber; esp := EspIn (fst (StackPool.alloc s)) |}] /\
  stacks (FiberScheduler.schedule f s) = stacks (snd (StackPool.alloc s)).
Proof.
  unfold FiberScheduler.schedule, FiberScheduler.FiberKeeper_new.
  destruct (last_cases (stacks s)) as [[E El]|(l & b & E & El)].
  - rewrite alloc_fresh by done.
    unfold calloc, FiberScheduler.store_keeper, FiberScheduler.FiberKeeper_delete.
    change (stack (@FiberKeeper_zero W)) with 0. rewrite decide_True by done. by state_simpl.
  - rewrite (alloc_recycles _ l b) by done.
    unfold FiberScheduler.store_keeper, FiberScheduler.FiberKeeper_delete.
    change (stack (@FiberKeeper_zero W)) with 0. rewrite decide_True by done. by state_simpl.
Qed.

(** [schedule] when the free list ends in a live block [b]. *)
Lemma schedule_recycles (f : Fiber W) s l b blk :
  stacks s = l ++ [b] -> heap s !! b = Some blk ->
  FiberScheduler.schedule f s =
    {| world := world s; global_scheduler := global_scheduler s; stacks := l;
       queue := queue s ++ [{| eip := EipRunFiber; esp := EspIn b |}];
       main_loop := main_loop s;
       heap := <[b := {| blk_size := blk_size blk;
                         blk_keeper := {| fiber := Some f; stack := b;
                                          fk_id := spawned s |};
                         blk_frames := blk_frames blk |}]> (heap s);
       brk := brk s; spawned := S (spawned s); log := log s |}.
Proof.
  intros E Hb.
  unfold FiberScheduler.schedule, FiberScheduler.FiberKeeper_new.
  rewrite (alloc_recycles _ l b) by done.
  unfold FiberScheduler.store_keeper, FiberScheduler.FiberKeeper_delete.
  change (stack (@FiberKeeper_zero W)) with 0. rewrite decide_True by done. state_unfold.
  by rewrite (alter_alt_Some _ _ _ _ Hb).
Qed.

Lemma schedule_each_frame (fs : list (Fiber W)) : forall s,
  world (schedule_each fs s) = world s /\
  log (schedule_each fs s) = log s /\
  exists new, queue (schedule_each fs s) = queue s ++ new /\
              length new = length fs /\
              Forall (fun c => eip c = EipRunFiber) new.
Proof.
  unfold schedule_each. induction fs as [|f fs IH]; intros s; simpl.
  - split_and!; [done..|]. exists []. by rewrite app_nil_r.
  - destruct (schedule_frame f s) as (Hw & Hl & _ & _ & _ & Hq & _).
    destruct (IH (FiberScheduler.schedule f s)) as (Hw' & Hl' & new & Hq' & Hn & Hf).
    split_and!; [congruence..|].
    eexists (_ :: new). rewrite Hq', Hq, <- app_assoc. split_and!; [done|simpl; lia|].
    by constructor.
Qed.

Lemma run_returned_empty fuel : forall s s',
  FiberScheduler.run fuel s = Some (Returned s') -> queue s' = [].
Proof.
  induction fuel as [|fuel IH]; intros s s'; simpl.
  - destruct (queue s) eqn:E; [|done]. by intros [= <-].
  - destruct (queue s) eqn:E; [by intros [= <-]|].
    destruct (FiberScheduler.run_one s); try done. apply IH.
Qed.

Lemma run_empty fuel s : queue s = [] -> FiberScheduler.run fuel s = Some (Returned s).
Proof. intros E. destruct fuel; simpl; by rewrite E. Qed.

Lemma run_unique fuel1 : forall fuel2 s o1 o2,
  FiberScheduler.run fuel1 s = Some o1 -> FiberScheduler.run fuel2 s = Some o2 ->
  o1 = o2.
Proof.
  induction fuel1 as [|fuel1 IH]; intros [|fuel2] s o1 o2; simpl;
    destruct (queue s) eqn:E; try congruence.
  destruct (FiberScheduler.run_one s); try congruence. apply IH.
Qed.

Lemma entries_ids (h : gmap Z (Block W)) (q : list Context) :
  Forall (ctx_ok h) q -> entry_id <$> omap (ctx_entry h) q = ctx_id h <$> q.
Proof.
  induction q as [|c q IH]; [done|]. intros [(b & blk & He & Hb & _ & Hc) Hq]%Forall_cons.
  cbn [omap list_omap]. rewrite fmap_cons, <- IH by done.
  unfold ctx_entry, ctx_id, blk_id, ctx_block. rewrite He, Hb.
  destruct Hc as [[-> [body ->]]|[-> [k ->]]]; done.
Qed.

Lemma inv_ids_nodup s : Inv [] s -> NoDup (entry_id <$> Abstract.ready (abstract s)).
Proof.
  intros I. unfold abstract. state_simpl. rewrite entries_ids by apply (inv_queue _ _ I).
  pose proof (inv_exited _ _ I) as H. simpl in H.
  eapply (NoDup_app (exited (log s))). rewrite <- H. apply NoDup_seq.
Qed.

(** While a fiber runs, the queue only grows at the back and no other
    fiber is switched to; the fibers it creates are queued unstarted, and
    if it yields it is itself the last of the queue. *)
Lemma abstract_exec_appends (p : Fiber W) : forall id a a',
  Abstract.exec p id a = Some a' ->
  exists created,
    Forall (fun e => exists i body, e = Unstarted i body) created /\
    activations (Abstract.trace a') = activations (Abstract.trace a) /\
    ((exists k, Abstract.ready a' = Abstract.ready a ++ created ++ [Suspended id k] /\
                exited (Abstract.trace a') = exited (Abstract.trace a)) \/
     (Abstract.ready a' = Abstract.ready a ++ created /\
      exited (Abstract.trace a') = exited (Abstract.trace a) ++ [id])).
Proof.
  induction p as [| |f k IH|k IH|k IH|body _ k IH]; intros id a a'; simpl.
  - intros [= <-]. exists []. simpl. rewrite app_nil_r. split_and!; [done| |right].
    + unfold activations. rewrite omap_app. simpl. by rewrite app_nil_r.
    + split; [done|]. by rewrite exited_snoc.
  - done.
  - intros H. by apply IH in H.
  - apply IH.
  - intros [= <-]. exists []. simpl. split_and!; [done..|left]. by exists k.
  - intros H. apply IH in H as (created & Hc & -> & H). simpl in H.
    exists (Unstarted (Abstract.next_id a) body :: created). split_and!.
    + constructor; [by eexists _, _|done].
    + done.
    + destruct H as [(k' & -> & ->)|[-> ->]]; [left; exists k'|right];
        by rewrite <- !app_assoc.
Qed.
End MoreLinking.

(** * The properties of the specification *)

Section Claims.
Context {W : Type}.
Implicit Type s : State W.

(** C2: [FiberScheduler::schedule] does not run the body it is given.  In
    a state the scheduler can be in (the pool holds live blocks only, which
    is part of the invariant), it takes the block [alloc] hands out, stores
    the keeper with the body in that block, leaves the captured variables
    and the log of bodies entered as they were, and puts one context at the
    back of the queue whose resume point is [run_fiber] and whose stack
    pointer lies in that block.  However many bodies are scheduled, none
    has run before [run] is called: the variables and the log are those of
    the start, the queue has grown by one such context for each, and the
    invariant still holds. *)
Theorem schedule_does_not_run_the_body (f : Fiber W) (fs : list (Fiber W))
    (r : list Z) s :
  Inv r s ->
  let s' := FiberScheduler.schedule f s in
  world s' = world s /\ log s' = log s /\
  queue s' = queue s ++
             [{| eip := EipRunFiber; esp := EspIn (fst (StackPool.alloc s)) |}] /\
  stacks s' = stacks (snd (StackPool.alloc s)) /\
  (exists blk, heap s' !! fst (StackPool.alloc s) = Some blk /\
     blk_keeper blk = {| fiber := Some f; stack := fst (StackPool.alloc s);
                         fk_id := spawned s |}) /\
  world (schedule_each fs s) = world s /\
  log (schedule_each fs s) = log s /\
  length (queue (schedule_each fs s)) = (length (queue s) + length fs)%nat /\
  Forall (fun c => eip c = EipRunFiber)
         (drop (length (queue s)) (queue (schedule_each fs s))) /\
  Inv r (schedule_each fs s).
Proof.
  intros I.
  destruct (schedule_frame f s) as (Hw & Hl & _ & _ & _ & Hq & Hst).
  destruct (schedule_each_frame fs s) as (Hw' & Hl' & new & Hq' & Hn & Hf).
  destruct (schedule_shape f r s I) as (b & l & brk' & blk' & E & Hk & _).
  assert (Hb : fst (StackPool.alloc s) = b).
  { rewrite E in Hq. state_simpl. apply app_inv_head in Hq. by injection Hq as ->. }
  cbv zeta. split_and!; try done.
  - exists blk'. rewrite Hb, E. state_simpl. by rewrite lookup_insert_eq.
  - rewrite Hq', length_app. lia.
  - by rewrite Hq', drop_app_length.
  - by apply (schedule_list_inv fs r s).
Qed.

(** C4: with no global scheduler installed, the free functions
    [schedule] and [yield] throw [std::runtime_error] and leave the state
    as it was, so that a call repeated after [init_global_scheduler]
    succeeds.  [run_global_scheduler] has no such test: it calls [run]
    through the null pointer, and no exception reaches the caller. *)
Theorem free_functions_without_scheduler (f : Fiber W) (fuel : nat) s :
  global_scheduler s = None ->
  schedule f s = Thrown "Global scheduler is empty" s /\
  yield s = Thrown "Global scheduler is empty" s /\
  run_global_scheduler fuel s = Some Undefined /\
  exists s1, init_global_scheduler s = Returned s1 /\
             schedule f s1 = Returned (FiberScheduler.schedule f s1).
Proof.
  intros E. unfold schedule, FiberScheduler.call_schedule, yield,
    run_global_scheduler, init_global_scheduler. rewrite E.
  split_and!; [done..|]. by eexists.
Qed.

(** C8: for every pool state, [alloc] right after [free(b)] returns [b]
    and the pool is as before.  Hence, when a fiber completes and the
    next thing to ask the pool for a stack is a [schedule], the new fiber
    gets the block of the completed one: its context points into that
    block, and the free list, the set of allocated blocks and the
    allocator are as they were while the completed fiber ran. *)
Theorem alloc_after_free_returns_block (b : Z) (f : Fiber W) s :
  StackPool.alloc (StackPool.free b s) = (b, s) /\
  (forall cur blk,
      heap s !! cur = Some blk -> stack (blk_keeper blk) = cur -> cur <> 0 ->
      main_loop s = FiberScheduler.scheduler_context ->
      exists s1, FiberScheduler.run_fiber_tail cur s = Returned s1 /\
        stacks s1 = stacks s ++ [cur] /\
        let s2 := FiberScheduler.schedule f s1 in
        queue s2 = queue s ++ [{| eip := EipRunFiber; esp := EspIn cur |}] /\
        stacks s2 = stacks s /\ dom (heap s2) = dom (heap s) /\ brk s2 = brk s).
Proof.
  split; [apply alloc_after_free|]. intros cur blk Hblk Hst Hcur Hm.
  unfold FiberScheduler.run_fiber_tail. rewrite Hblk.
  unfold FiberScheduler.FiberKeeper_delete. rewrite Hst, decide_False by done.
  unfold StackPool.free, FiberScheduler.switch_context, FiberScheduler.to_scheduler.
  state_simpl. rewrite Hm, decide_True by done. eexists. split; [reflexivity|].
  unfold FiberScheduler.store_frames. state_simpl. split; [done|]. cbv zeta.
  rewrite (alter_alt_Some _ _ _ _ Hblk).
  erewrite (schedule_recycles f _ (stacks s) cur); [|done|state_simpl; apply lookup_insert_eq].
  state_simpl. split_and!; [done..| |done].
  rewrite dom_insert_lookup_L by (by rewrite lookup_insert_eq).
  by rewrite dom_insert_lookup_L by (by rewrite Hblk).
Qed.

(** C9: [run] on an empty ready queue returns at once and changes nothing,
    whether the queue was never filled or a previous [run] has drained
    it; the same holds for [run_global_scheduler] once a scheduler is
    installed. *)
Theorem run_on_empty_queue_changes_nothing (fuel : nat) s :
  queue s = [] \/ (exists fuel0 s0, FiberScheduler.run fuel0 s0 = Some (Returned s)) ->
  FiberScheduler.run fuel s = Some (Returned s) /\
  (global_scheduler s <> None -> run_global_scheduler fuel s = Some (Returned s)).
Proof.
  intros H. assert (E : queue s = []).
  { destruct H as [?|(fuel0 & s0 & H)]; [done|]. by apply run_returned_empty in H. }
  split; [by apply run_empty|]. unfold run_global_scheduler.
  destruct (global_scheduler s) as [[]|]; [done|by rewrite run_empty|done].
Qed.

(** C10: [run] is a function of the state it starts from.  Two runs from
    the same state that both return give the same outcome, in particular
    the same final state and the same log of fibers switched to.  And the
    order in which fibers run does not depend on where their stacks lie:
    from two states that hold the same variables, the same fibers in the
    same queue order and the same log, whatever their pools and blocks,
    [run] switches to the same fibers in the same order and leaves the
    same variables.  Such runs exist: from two such states [run] ends
    after the same number of turns, and either both return, with the same
    variables and the same log, or both stop at a failed assertion. *)
Theorem run_is_deterministic (fuel1 fuel2 : nat) (s1 s2 : State W) o1 o2 :
  (FiberScheduler.run fuel1 s1 = Some o1 -> FiberScheduler.run fuel2 s1 = Some o2 ->
   o1 = o2) /\
  (Inv [] s1 -> Inv [] s2 -> abstract s1 = abstract s2 ->
   abstract_outcome (FiberScheduler.run fuel1 s1) =
   abstract_outcome (FiberScheduler.run fuel1 s2)) /\
  (Inv [] s1 -> Inv [] s2 -> abstract s1 = abstract s2 ->
   exists fuel r1 r2,
     FiberScheduler.run fuel s1 = Some r1 /\ FiberScheduler.run fuel s2 = Some r2 /\
     match r1, r2 with
     | Returned s1', Returned s2' =>
         world s1' = world s2' /\ log s1' = log s2' /\
         queue s1' = [] /\ queue s2' = []
     | Aborted _, Aborted _ => True
     | _, _ => False
     end).
Proof.
  split; [apply run_unique|]. split.
  - intros I1 I2 E. by rewrite !abstract_outcome_run, E.
  - intros I1 I2 E.
    destruct (run_total s1 I1) as (fuel & r1 & Hrun1 & Hr1).
    pose proof (run_refines fuel s1 I1) as H1. pose proof (run_refines fuel s2 I2) as H2.
    rewrite Hrun1 in H1. rewrite <- E in H2.
    destruct (FiberScheduler.run fuel s2) as [r2|] eqn:Hrun2.
    + exists fuel, r1, r2. split_and!; [done..|].
      destruct r1 as [s1'|? ?|s1'|]; try done;
        destruct r2 as [s2'|? ?|s2'|]; try done.
      * destruct H1 as (_ & Hq1 & H1). destruct H2 as (_ & Hq2 & H2).
        rewrite H1 in H2. injection H2 as Hw _ _ Hl. by split_and!.
      * destruct H1 as (_ & _ & H1). by rewrite H1 in H2.
      * destruct H2 as (_ & _ & H2). by rewrite H1 in H2.
    + destruct r1 as [s1'|? ?|s1'|]; try done.
      * destruct H1 as (_ & _ & H1). by rewrite H1 in H2.
      * by rewrite H1 in H2.
Qed.

(** C6: every block [calloc] has handed out is in exactly one place: the
    pool's free list, the keeper of the running fiber, or the keeper of
    one queued fiber (the list of all blocks is a rearrangement of the
    free list followed by the running and the queued fibers' blocks, so
    no block occurs twice), and the keeper stored in a fiber's block
    names that block.  This holds when the scheduler is installed and is
    kept by [schedule], also when a running fiber calls it, at every point
    a running body passes, when the fiber switches back to the scheduler,
    by each turn of [run] and by [run] as a whole.  A moved-from keeper
    holds no stack and its destructor leaves the pool alone; the keeper
    [schedule] declares is zeroed before it goes out of scope, so
    [schedule] gives nothing back to the pool; the destructor call in
    [run_fiber] puts the fiber's block at the back of the free list,
    once. *)
Theorem stack_blocks_have_one_owner (r : list Z) s :
  Inv r s ->
  (elements (dom (heap s)) ≡ₚ stacks s ++ r ++ (ctx_block <$> queue s) /\
   NoDup (stacks s ++ r ++ (ctx_block <$> queue s)) /\
   Forall (fun b => exists blk, heap s !! b = Some blk /\ stack (blk_keeper blk) = b)
          (r ++ (ctx_block <$> queue s))) /\
  (forall w : W, Inv [] (started_state w)) /\
  (forall f, Inv r (FiberScheduler.schedule f s) /\
             stacks (FiberScheduler.schedule f s) = stacks (snd (StackPool.alloc s))) /\
  (forall cur p p' s', r = [cur] -> body_reaches cur p s p' s' -> Inv [cur] s') /\
  (forall cur p, r = [cur] -> main_loop s = FiberScheduler.scheduler_context ->
      match FiberScheduler.exec p cur s with
      | Returned s' => Inv [] s'
      | Aborted _ => True
      | _ => False
      end) /\
  (forall s', r = [] -> FiberScheduler.run_one s = Returned s' -> Inv [] s') /\
  (forall fuel s', r = [] -> FiberScheduler.run fuel s = Some (Returned s') -> Inv [] s') /\
  (forall fk : FiberKeeper W,
      let '(new, old) := FiberScheduler.FiberKeeper_move fk in
      stack new = stack fk /\ fiber new = fiber fk /\ stack old = 0 /\
      FiberScheduler.FiberKeeper_delete old s = s) /\
  (forall cur, r = [cur] -> main_loop s = FiberScheduler.scheduler_context ->
      exists s', FiberScheduler.run_fiber_tail cur s = Returned s' /\
                 stacks s' = stacks s ++ [cur] /\ Inv [] s').
Proof.
  intros I. split_and!.
  - apply (inv_owned _ _ I).
  - by apply inv_nodup.
  - apply Forall_app. split; [apply (inv_running _ _ I)|].
    apply Forall_fmap. eapply Forall_impl; [apply (inv_queue _ _ I)|].
    intros c (b & blk & He & Hb & Hst & _). exists blk. unfold ctx_block.
    simpl. by rewrite He.
  - apply started_state_inv.
  - intros f. split; [by apply schedule_inv|apply schedule_frame].
  - intros cur p p' s' -> H. by apply (body_reaches_inv cur p p' s s').
  - intros cur p -> Hm. pose proof (exec_refines p cur s I Hm) as H.
    destruct (FiberScheduler.exec p cur s); try done. by destruct H.
  - intros s' -> H. destruct (queue s) as [|c q] eqn:E.
    { unfold FiberScheduler.run_one in H. by rewrite E in H. }
    destruct (run_one_refines s I) as [_ H1]; [by rewrite E|].
    rewrite H in H1. by destruct H1.
  - intros fuel s' -> H. by apply (run_inv fuel s s').
  - intros fk. simpl. split_and!; try done.
  - intros cur -> Hm.
    destruct (tail_inv cur s I Hm) as (s' & E & I' & _ & _ & _ & _ & _ & Hst & _).
    by exists s'.
Qed.
End Claims.

(** ** The tests of main.cpp, from any state with an empty queue *)

Section Tests.
Context {W : Type}.
Implicit Type s : State W.

Lemma schedule_all_each (fs : list (Fiber W)) : forall r s,
  Inv r s -> schedule_all fs s = Some (Returned (schedule_each fs s)).
Proof.
  unfold schedule_all, schedule_each.
  induction fs as [|f fs IH]; intros r s I; [done|]. simpl.
  unfold schedule at 2, FiberScheduler.call_schedule. rewrite (inv_global _ _ I).
  apply (IH r). by apply schedule_inv.
Qed.

(** Scheduling [fs] and draining, read off the queue of fibers. *)
Lemma scheduled_then_run (fs : list (Fiber W)) fuel s a' :
  Inv [] s -> queue s = [] ->
  Abstract.run fuel
    {| Abstract.vars := world s;
       Abstract.ready := zip_with Unstarted (seq (spawned s) (length fs)) fs;
       Abstract.next_id := (spawned s + length fs)%nat;
       Abstract.trace := log s |} = Some (Some a') ->
  exists s2,
    schedule_all fs s = Some (Returned (schedule_each fs s)) /\
    world (schedule_each fs s) = world s /\
    FiberScheduler.run fuel (schedule_each fs s) = Some (Returned s2) /\
    run_global_scheduler fuel (schedule_each fs s) = Some (Returned s2) /\
    abstract s2 = a' /\ Inv [] s2 /\ queue s2 = [].
Proof.
  intros I Hq Ha.
  destruct (schedule_list_inv fs [] s I) as (I1 & _ & _ & Hw & _ & _ & _ & Habs).
  rewrite abstract_schedule_each in Habs. unfold abstract at 2 3 4 5 in Habs.
  state_simpl. rewrite Hq in Habs. simpl in Habs. rewrite <- Habs in Ha.
  destruct (run_from_abstract fuel _ a' I1 Ha) as (s2 & Hrun & Ha2 & I2 & Hq2).
  exists s2. split_and!; try done.
  - by apply (schedule_all_each fs []).
  - unfold run_global_scheduler. by rewrite (inv_global _ _ I1).
Qed.
End Tests.

(** C1: whatever bodies are passed to [schedule], and whatever further
    bodies these pass to [schedule] while they run, [run] comes to an end
    (unless a body fails an assertion of its own it returns); it returns
    only with the ready queue empty; and when it returns, every keeper ever
    constructed, for a body scheduled by the caller or by a running fiber,
    has had its body entered exactly once and left exactly once.  In
    [test_recursive], three chains of nested [schedule] calls of depth 1, 2
    and 3 end in a fiber that increments [x]: one drain leaves [x == 3]. *)
Theorem run_runs_every_fiber_once :
  (forall W (fs : list (Fiber W)) (s0 : State W),
      Inv [] s0 ->
      let s := schedule_each fs s0 in
      (exists fuel o, FiberScheduler.run fuel s = Some o /\
         match o with
         | Returned _ => True
         | Aborted _ => ~ Forall NoAbort (todos s0 ++ fs)
         | _ => False
         end) /\
      (Forall NoAbort (todos s0 ++ fs) ->
       exists fuel s', FiberScheduler.run fuel s = Some (Returned s')) /\
      (forall fuel s', FiberScheduler.run fuel s = Some (Returned s') ->
         queue s' = [] /\
         entered (log s') ≡ₚ seq 0 (spawned s') /\
         exited (log s') ≡ₚ seq 0 (spawned s') /\
         (spawned s0 + length fs <= spawned s')%nat)) /\
  (forall s0 : State TestVars,
      Inv [] s0 -> queue s0 = [] ->
      exists s', test_recursive 9 s0 = Some (Returned s') /\ x (world s') = 3 /\
                 queue s' = []).
Proof.
  split.
  - intros W fs s0 I0. cbv zeta.
    destruct (schedule_list_inv fs [] s0 I0) as (I & Ht & _ & _ & _ & Hsp & _).
    split_and!.
    + destruct (run_total _ I) as (fuel & o & Hrun & Ho). exists fuel, o.
      split; [done|]. destruct Ho as [(s' & -> & _)|(s' & -> & HN)]; [done|].
      by rewrite <- Ht.
    + intros HA. destruct (run_total _ I) as (fuel & o & Hrun & Ho).
      destruct Ho as [(s' & -> & _)|(s' & -> & HN)]; [by exists fuel, s'|].
      destruct HN. by rewrite Ht.
    + intros fuel s' Hrun. destruct (run_inv fuel _ s' I Hrun) as (I' & Hq & Hle).
      pose proof (inv_entered _ _ I') as Hen. pose proof (inv_exited _ _ I') as Hex.
      rewrite Hq in Hen, Hex. simpl in Hen, Hex. rewrite app_nil_r in Hen, Hex.
      split_and!; [done..|lia].
  - intros s0 I0 Hq0. unfold test_recursive.
    set (fs := [nested 1 incr_fiber; nested 2 incr_fiber; nested 3 incr_fiber]).
    assert (I : Inv [] (fresh_locals s0)) by (by apply set_world_inv).
    assert (exists a', Abstract.run 9
              {| Abstract.vars := world (fresh_locals s0);
                 Abstract.ready :=
                   zip_with Unstarted (seq (spawned (fresh_locals s0)) (length fs)) fs;
                 Abstract.next_id := (spawned (fresh_locals s0) + length fs)%nat;
                 Abstract.trace := log (fresh_locals s0) |} = Some (Some a') /\
              x (Abstract.vars a') = 3) as (a' & Ha & Hx).
    { generalize (spawned (fresh_locals s0)) (log (fresh_locals s0)). intros n tr.
      match goal with |- exists a', ?r = _ /\ _ =>
        assert (H : match r with
                    | Some (Some a) => Some (x (Abstract.vars a))
                    | _ => None
                    end = Some 3) by (vm_compute; reflexivity);
        destruct r as [[a'|]|]; try discriminate H
      end.
      exists a'. split; [done|]. by injection H. }
    destruct (scheduled_then_run fs 9 _ a' I Hq0 Ha)
      as (s2 & Hall & _ & _ & Hrun & Ha2 & _ & Hq2).
    exists s2. rewrite Hall. cbn [and_then]. rewrite Hrun. cbn [and_then].
    unfold assert_that.
    assert (Hw : x (world s2) = 3) by (by rewrite <- Ha2 in Hx).
    rewrite Hw. by split_and!.
Qed.

(** C5: a fiber whose loop increments [x] and yields, [n] times over,
    scheduled alone with [x == 0]: [schedule] leaves [x] at 0, and [run]
    returns after switching to the fiber [n + 1] times with [x == n] and
    the queue empty.  [test_yield_one] is the case [n = ITERS = 10]: both of
    its assertions hold and it ends with [x == 10]. *)
Theorem yield_neither_ends_nor_skips :
  (forall (n : nat) (s0 : State TestVars),
      Inv [] s0 -> queue s0 = [] -> x (world s0) = 0 -> Z.of_nat n < 2 ^ 31 ->
      let s1 := FiberScheduler.schedule (yield_loop n) s0 in
      x (world s1) = 0 /\
      exists s2, FiberScheduler.run (S n) s1 = Some (Returned s2) /\
                 x (world s2) = Z.of_nat n /\ queue s2 = [] /\
                 length (activations (log s2)) =
                 (length (activations (log s0)) + S n)%nat) /\
  (forall s0 : State TestVars,
      Inv [] s0 -> queue s0 = [] ->
      exists s', test_yield_one 11 s0 = Some (Returned s') /\ x (world s') = 10 /\
                 queue s' = []).
Proof.
  assert (General : forall (n : nat) (s0 : State TestVars),
      Inv [] s0 -> queue s0 = [] -> x (world s0) = 0 -> Z.of_nat n < 2 ^ 31 ->
      exists s2,
        schedule_all [yield_loop n] s0 =
          Some (Returned (FiberScheduler.schedule (yield_loop n) s0)) /\
        x (world (FiberScheduler.schedule (yield_loop n) s0)) = 0 /\
        FiberScheduler.run (S n) (FiberScheduler.schedule (yield_loop n) s0)
          = Some (Returned s2) /\
        run_global_scheduler (S n) (FiberScheduler.schedule (yield_loop n) s0)
          = Some (Returned s2) /\
        x (world s2) = Z.of_nat n /\ queue s2 = [] /\
        length (activations (log s2)) = (length (activations (log s0)) + S n)%nat).
  { intros n s0 I Hq Hx Hn.
    destruct (abstract_yield_loop_trace n (Unstarted (spawned s0) (yield_loop n))
                (world s0) (spawned s0 + 1)%nat (log s0) eq_refl) as (tr' & Hrun & Htr).
    destruct (scheduled_then_run [yield_loop n] (S n) s0 _ I Hq Hrun)
      as (s2 & Hall & Hw & Hr & Hrg & Ha & _ & Hq2).
    exists s2. change (schedule_each [yield_loop n] s0)
      with (FiberScheduler.schedule (yield_loop n) s0) in *.
    split_and!; try done; [congruence| |].
    - change (world s2) with (Abstract.vars (abstract s2)). rewrite Ha. state_simpl.
      destruct (incr_x_iter n (world s0)) as [-> _]; lia.
    - change (log s2) with (Abstract.trace (abstract s2)). by rewrite Ha. }
  split.
  - intros n s0 I Hq Hx Hn. cbv zeta.
    destruct (General n s0 I Hq Hx Hn) as (s2 & _ & Hx1 & Hr & _ & Hx2 & Hq2 & Hact).
    split; [done|]. by exists s2.
  - intros s0 I Hq.
    destruct (General ITERS (fresh_locals s0)) as (s2 & Hall & Hx1 & _ & Hrg & Hx2 & Hq2 & _);
      [by apply set_world_inv|done|done|done|].
    exists s2. unfold test_yield_one. change yield_one_fiber with (yield_loop ITERS).
    rewrite Hall. cbn [and_then]. unfold assert_that at 1. rewrite Hx1.
    rewrite bool_decide_eq_true_2 by done. cbn [and_then].
    change 11%nat with (S ITERS). rewrite Hrg.
    cbn [and_then]. unfold assert_that. rewrite Hx2.
    rewrite bool_decide_eq_true_2 by done. by split_and!.
Qed.

Lemma zip_with_rr_entries (n : nat) (fids : list Z) : forall n0,
  zip_with Unstarted (seq n0 (length fids)) (create_fiber_loop n <$> fids) =
  rr_entry false n <$> zip (seq n0 (length fids)) fids.
Proof.
  induction fids as [|fid fids IH]; intros n0; [done|]. simpl. f_equal. apply IH.
Qed.

Lemma zip_with_loop_entries {W} (n : nat) (ts : list (Fiber W -> Fiber W)) : forall n0,
  zip_with Unstarted (seq n0 (length ts)) ((fun t => for_loop n t Return) <$> ts) =
  loop_entry false n <$> zip (seq n0 (length ts)) ts.
Proof.
  induction ts as [|t ts IH]; intros n0; [done|]. simpl. f_equal. apply IH.
Qed.

(** C3: [yield] puts the calling fiber's context at the back of the queue,
    and each turn of [run] takes the front of the queue, keeps the order of
    what was queued and queues behind it what the fiber scheduled and, last,
    the fiber itself if it yielded; the fiber that is next in the queue is a
    different one.  So fibers that each go [n] times through a loop with
    one [yield] per turn, whatever else the turn does to the captured
    variables, are switched to in the order they were scheduled in, round
    after round, and when there are two or more of them none is switched to
    twice in a row.  For two or more fibers made by [create_fiber] with
    distinct ids the assertion [cur_fiber != fiber_id] holds every time and
    [x] grows by [n] for each fiber.  [test_yield_many] is the case of
    three fibers and [n = ITERS = 10]: it ends with [x == 30]. *)
Theorem yield_round_robin :
  (forall W (k : Fiber W) cur (s : State W),
      Inv [cur] s -> main_loop s = FiberScheduler.scheduler_context ->
      exists s', FiberScheduler.yield k cur s = Returned s' /\
        queue s' = queue s ++ [{| eip := EipRetLabel; esp := EspIn cur |}] /\
        Abstract.ready (abstract s') =
          Abstract.ready (abstract s) ++ [Suspended (blk_id (heap s) cur) k]) /\
  (forall W (s s' : State W) e1 e2 rest,
      Inv [] s -> Abstract.ready (abstract s) = e1 :: e2 :: rest ->
      FiberScheduler.run_one s = Returned s' ->
      activations (log s') = activations (log s) ++ [entry_id e1] /\
      entry_id e2 <> entry_id e1 /\
      exists created,
        Forall (fun e => exists i body, e = Unstarted i body) created /\
        (Abstract.ready (abstract s') = e2 :: rest ++ created \/
         exists k, Abstract.ready (abstract s') =
                   e2 :: rest ++ created ++ [Suspended (entry_id e1) k])) /\
  (forall W (ts : list (Fiber W -> Fiber W)) (n : nat) (s0 : State W),
      Inv [] s0 -> queue s0 = [] -> Forall YieldsOnce ts ->
      let s1 := schedule_each ((fun t => for_loop n t Return) <$> ts) s0 in
      let ids := seq (spawned s0) (length ts) in
      exists s2,
        FiberScheduler.run (S n * length ts) s1 = Some (Returned s2) /\
        queue s2 = [] /\
        activations (log s2) = activations (log s0) ++ concat (replicate (S n) ids) /\
        ((2 <= length ts)%nat -> no_repeat (concat (replicate (S n) ids)) = true)) /\
  (forall (fids : list Z) (n : nat) (s0 : State TestVars),
      Inv [] s0 -> queue s0 = [] ->
      NoDup fids -> (2 <= length fids)%nat -> cur_fiber (world s0) ∉ fids ->
      0 <= x (world s0) -> x (world s0) + Z.of_nat (n * length fids) < 2 ^ 31 ->
      let s1 := schedule_each (create_fiber_loop n <$> fids) s0 in
      let ids := seq (spawned s0) (length fids) in
      exists s2,
        FiberScheduler.run (S n * length fids) s1 = Some (Returned s2) /\
        x (world s2) = x (world s0) + Z.of_nat (n * length fids) /\
        activations (log s2) = activations (log s0) ++ concat (replicate (S n) ids) /\
        no_repeat (concat (replicate (S n) ids)) = true) /\
  (forall s0 : State TestVars,
      Inv [] s0 -> queue s0 = [] ->
      exists s', test_yield_many 33 s0 = Some (Returned s') /\ x (world s') = 30 /\
        no_repeat (drop (length (activations (log s0))) (activations (log s'))) = true).
Proof.
  assert (General : forall (fids : list Z) (n : nat) (s0 : State TestVars),
      Inv [] s0 -> queue s0 = [] ->
      NoDup fids -> (2 <= length fids)%nat -> cur_fiber (world s0) ∉ fids ->
      0 <= x (world s0) -> x (world s0) + Z.of_nat (n * length fids) < 2 ^ 31 ->
      let s1 := schedule_each (create_fiber_loop n <$> fids) s0 in
      let ids := seq (spawned s0) (length fids) in
      exists s2,
        schedule_all (create_fiber_loop n <$> fids) s0 = Some (Returned s1) /\
        world s1 = world s0 /\
        FiberScheduler.run (S n * length fids) s1 = Some (Returned s2) /\
        run_global_scheduler (S n * length fids) s1 = Some (Returned s2) /\
        x (world s2) = x (world s0) + Z.of_nat (n * length fids) /\
        activations (log s2) = activations (log s0) ++ concat (replicate (S n) ids) /\
        no_repeat (concat (replicate (S n) ids)) = true).
  { intros fids n s0 I Hq ND Hlen Hcur Hx0 Hx. cbv zeta.
    set (l := zip (seq (spawned s0) (length fids)) fids).
    assert (Hl1 : l.*1 = seq (spawned s0) (length fids))
      by (apply fst_zip; by rewrite length_seq).
    assert (Hl2 : l.*2 = fids) by (apply snd_zip; by rewrite length_seq).
    assert (Hll : length l = length fids).
    { unfold l. rewrite length_zip, length_seq. lia. }
    destruct (rr_all n false l (world s0) (spawned s0 + length fids)%nat (log s0))
      as (w' & tr' & Hrun & Hxw & Hact).
    { by rewrite Hl2. }
    { by rewrite Hll. }
    { rewrite Hl2. intros Hh. apply Hcur. by apply head_Some_elem_of. }
    { done. }
    { by rewrite Hll. }
    rewrite Hll, Hl1 in *. unfold l in Hrun. rewrite <- zip_with_rr_entries in Hrun.
    rewrite <- (length_fmap (create_fiber_loop n) fids) in Hrun at 2 3.
    destruct (scheduled_then_run _ _ s0 _ I Hq Hrun)
      as (s2 & Hall & Hw & Hr & Hrg & Ha & _ & Hq2).
    exists s2. split_and!; try done.
    - change (world s2) with (Abstract.vars (abstract s2)). by rewrite Ha.
    - change (log s2) with (Abstract.trace (abstract s2)). by rewrite Ha.
    - apply no_repeat_rounds; [apply NoDup_seq|by rewrite length_seq]. }
  split_and!.
  - intros W k cur s I Hm.
    destruct (yield_inv k cur s I Hm) as (s' & E & _ & _ & Hq & _ & _ & _ & _ & Ha).
    exists s'. split_and!; [done..|]. by rewrite Ha.
  - intros W s s' e1 e2 rest I Hr Hrun.
    assert (Hq : queue s <> []).
    { intros E. unfold abstract in Hr. state_simpl. by rewrite E in Hr. }
    destruct (run_one_refines s I Hq) as [_ H1]. rewrite Hrun in H1.
    destruct H1 as [I' Ha]. unfold Abstract.run_one in Ha. rewrite Hr in Ha.
    apply abstract_exec_appends in Ha as (created & Hc & Hact & Hready).
    unfold abstract in Hact. state_simpl.
    pose proof (inv_ids_nodup s I) as ND. rewrite Hr, !fmap_cons in ND.
    apply NoDup_cons in ND as [Hne _].
    split_and!.
    + rewrite Hact, activations_app. by destruct e1.
    + intros E. apply Hne. rewrite E. left.
    + exists created. split; [done|].
      destruct Hready as [(k & -> & _)|[-> _]]; [right; by exists k|by left].
  - intros W ts n s0 I Hq Hts. cbv zeta.
    set (l := zip (seq (spawned s0) (length ts)) ts).
    assert (Hl1 : l.*1 = seq (spawned s0) (length ts))
      by (apply fst_zip; by rewrite length_seq).
    assert (Hl2 : l.*2 = ts) by (apply snd_zip; by rewrite length_seq).
    assert (Hll : length l = length ts).
    { unfold l. rewrite length_zip, length_seq. lia. }
    destruct (loop_all n false l (world s0) (spawned s0 + length ts)%nat (log s0))
      as (w' & tr' & Hrun & Hact).
    { rewrite <- Hl2, Forall_fmap in Hts. exact Hts. }
    rewrite Hll, Hl1 in *. unfold l in Hrun. rewrite <- zip_with_loop_entries in Hrun.
    rewrite <- (length_fmap (fun t => for_loop n t Return) ts) in Hrun at 2 3.
    destruct (scheduled_then_run _ _ s0 _ I Hq Hrun)
      as (s2 & _ & _ & Hr & _ & Ha & _ & Hq2).
    exists s2. split_and!; try done.
    + change (log s2) with (Abstract.trace (abstract s2)). by rewrite Ha.
    + intros Hlen. apply no_repeat_rounds; [apply NoDup_seq|by rewrite length_seq].
  - intros fids n s0 I Hq ND Hlen Hcur Hx0 Hx.
    destruct (General fids n s0 I Hq ND Hlen Hcur Hx0 Hx)
      as (s2 & _ & _ & Hr & _ & Hxw & Hact & Hnr).
    by exists s2.
  - intros s0 I Hq.
    destruct (General [1; 2; 3] ITERS (fresh_locals s0))
      as (s2 & Hall & Hw & _ & Hrg & Hxw & Hact & Hnr).
    { by apply set_world_inv. }
    { done. }
    { by apply (bool_decide_unpack _). }
    { simpl; lia. }
    { by apply (bool_decide_unpack _). }
    { done. }
    { done. }
    exists s2. unfold test_yield_many.
    change [create_fiber 1; create_fiber 2; create_fiber 3]
      with (create_fiber_loop ITERS <$> [1; 2; 3]).
    rewrite Hall. cbn [and_then]. unfold assert_that at 1. rewrite Hw.
    rewrite bool_decide_eq_true_2 by done. cbn [and_then].
    change 33%nat with (S ITERS * @length Z [1%Z; 2%Z; 3%Z])%nat. rewrite Hrg.
    cbn [and_then]. unfold assert_that. rewrite Hxw.
    rewrite bool_decide_eq_true_2 by done. split_and!; [done..|].
    rewrite Hact, drop_app_length. exact Hnr.
Qed.

(** ** The properties at the states of [main] *)

Lemma run_runs_every_fiber_once_witness :
  Inv [] test_start /\ queue test_start = [] /\
  (exists fuel o,
      FiberScheduler.run fuel (schedule_each [nested 1 incr_fiber] test_start) = Some o) /\
  exists s', test_recursive 9 test_start = Some (Returned s') /\ x (world s') = 3 /\
             queue s' = [].
Proof.
  split; [apply started_state_inv|]. split; [reflexivity|]. split.
  - destruct (proj1 run_runs_every_fiber_once TestVars [nested 1 incr_fiber] test_start)
      as ((fuel & o & Hrun & _) & _); [apply started_state_inv|].
    exists fuel, o. exact Hrun.
  - apply (proj2 run_runs_every_fiber_once test_start);
      [apply started_state_inv|reflexivity].
Defined.

Lemma yield_round_robin_witness :
  Inv [] test_start /\ queue test_start = [] /\
  exists s', test_yield_many 33 test_start = Some (Returned s') /\ x (world s') = 30 /\
    no_repeat (drop (length (activations (log test_start))) (activations (log s'))) = true.
Proof.
  split; [apply started_state_inv|]. split; [reflexivity|].
  apply (proj2 (proj2 (proj2 (proj2 yield_round_robin))) test_start);
    [apply started_state_inv|reflexivity].
Defined.

Lemma free_functions_without_scheduler_witness :
  global_scheduler (initial_state tt) = None /\
  schedule Return (initial_state tt) = Thrown "Global scheduler is empty" (initial_state tt) /\
  yield (initial_state tt) = Thrown "Global scheduler is empty" (initial_state tt) /\
  run_global_scheduler 1 (initial_state tt) = Some Undefined.
Proof.
  split; [reflexivity|].
  destruct (free_functions_without_scheduler Return 1 (initial_state tt) eq_refl)
    as (H1 & H2 & H3 & _).
  split; [exact H1|]. split; [exact H2|exact H3].
Defined.

Lemma yield_neither_ends_nor_skips_witness :
  Inv [] test_start /\ queue test_start = [] /\ x (world test_start) = 0 /\
  Z.of_nat ITERS < 2 ^ 31 /\
  (exists s2,
      FiberScheduler.run (S ITERS) (FiberScheduler.schedule (yield_loop ITERS) test_start)
        = Some (Returned s2) /\ x (world s2) = 10) /\
  exists s', test_yield_one 11 test_start = Some (Returned s') /\ x (world s') = 10 /\
             queue s' = [].
Proof.
  split; [apply started_state_inv|]. split; [reflexivity|]. split; [reflexivity|].
  split; [reflexivity|]. split.
  - destruct (proj1 yield_neither_ends_nor_skips ITERS test_start)
      as [_ (s2 & Hrun & Hx & _)]; [apply started_state_inv|reflexivity..|].
    exists s2. split; [exact Hrun|exact Hx].
  - apply (proj2 yield_neither_ends_nor_skips test_start);
      [apply started_state_inv|reflexivity].
Defined.

Lemma stack_blocks_have_one_owner_witness :
  Inv [] test_start /\
  NoDup (stacks test_start ++ [] ++ (ctx_block <$> queue test_start)) /\
  Inv [] (FiberScheduler.schedule incr_fiber test_start).
Proof.
  split; [apply started_state_inv|].
  destruct (stack_blocks_have_one_owner [] test_start (started_state_inv _))
    as ((_ & ND & _) & _ & Hs & _).
  split; [exact ND|apply Hs].
Defined.

Lemma alloc_after_free_returns_block_witness :
  heap test_running !! 1048576 = Some test_running_block /\
  stack (blk_keeper test_running_block) = 1048576 /\ 1048576 <> 0 /\
  main_loop test_running = FiberScheduler.scheduler_context /\
  exists s1, FiberScheduler.run_fiber_tail 1048576 test_running = Returned s1 /\
             stacks (FiberScheduler.schedule incr_fiber s1) = stacks test_running.
Proof.
  assert (H : heap test_running !! 1048576 = Some test_running_block)
    by reflexivity.
  split; [exact H|]. split; [reflexivity|]. split; [lia|]. split; [reflexivity|].
  destruct (proj2 (alloc_after_free_returns_block 0 incr_fiber test_running)
              1048576 test_running_block H eq_refl)
    as (s1 & Hrun & _ & _ & Hst & _); [lia|reflexivity|].
  exists s1. split; [exact Hrun|exact Hst].
Defined.

Lemma run_on_empty_queue_changes_nothing_witness :
  (queue test_start = [] \/
   exists fuel0 s0, FiberScheduler.run fuel0 s0 = Some (Returned test_start)) /\
  FiberScheduler.run 5 test_start = Some (Returned test_start) /\
  run_global_scheduler 5 test_start = Some (Returned test_start).
Proof.
  assert (H : queue test_start = [] \/
              exists fuel0 s0, FiberScheduler.run fuel0 s0 = Some (Returned test_start))
    by (left; reflexivity).
  split; [exact H|].
  destruct (run_on_empty_queue_changes_nothing 5 test_start H) as [H1 H2].
  split; [exact H1|]. apply H2. discriminate.
Defined.

Lemma run_is_deterministic_witness :
  Inv [] (schedule_each [yield_loop 1; yield_loop 1] test_start) /\
  Inv [] (schedule_each [yield_loop 1; yield_loop 1] test_start_high) /\
  brk (schedule_each [yield_loop 1; yield_loop 1] test_start) <>
  brk (schedule_each [yield_loop 1; yield_loop 1] test_start_high) /\
  abstract (schedule_each [yield_loop 1; yield_loop 1] test_start) =
  abstract (schedule_each [yield_loop 1; yield_loop 1] test_start_high) /\
  exists s1' s2',
    FiberScheduler.run 4 (schedule_each [yield_loop 1; yield_loop 1] test_start)
      = Some (Returned s1') /\
    FiberScheduler.run 6 (schedule_each [yield_loop 1; yield_loop 1] test_start)
      = Some (Returned s1') /\
    FiberScheduler.run 4 (schedule_each [yield_loop 1; yield_loop 1] test_start_high)
      = Some (Returned s2') /\
    abstract s1' = abstract s2' /\
    activations (log s1') = [0; 1; 0; 1]%nat /\ x (world s1') = 2.
Proof.
  destruct (schedule_list_inv [yield_loop 1; yield_loop 1] [] test_start
              (started_state_inv _)) as (I1 & _ & _ & _ & _ & _ & _ & A1).
  destruct (schedule_list_inv [yield_loop 1; yield_loop 1] [] test_start_high
              (set_brk_inv 3145728 _ eq_refl)) as (I2 & _ & _ & _ & _ & _ & _ & A2).
  assert (Ea : abstract (schedule_each [yield_loop 1; yield_loop 1] test_start) =
               abstract (schedule_each [yield_loop 1; yield_loop 1] test_start_high)).
  { rewrite A1, A2. reflexivity. }
  assert (Hb : brk (schedule_each [yield_loop 1; yield_loop 1] test_start) <>
               brk (schedule_each [yield_loop 1; yield_loop 1] test_start_high))
    by (vm_compute; discriminate).
  assert (Hact : out_activations
                   (FiberScheduler.run 4
                      (schedule_each [yield_loop 1; yield_loop 1] test_start))
                 = [0; 1; 0; 1]%nat) by (vm_compute; reflexivity).
  assert (Hx : out_world
                 (FiberScheduler.run 4
                    (schedule_each [yield_loop 1; yield_loop 1] test_start))
               = Some {| x := 2; cur_fiber := -1 |}) by (vm_compute; reflexivity).
  assert (Hx2 : out_world
                  (FiberScheduler.run 4
                     (schedule_each [yield_loop 1; yield_loop 1] test_start_high))
                = Some {| x := 2; cur_fiber := -1 |}) by (vm_compute; reflexivity).
  assert (H6 : out_world
                 (FiberScheduler.run 6
                    (schedule_each [yield_loop 1; yield_loop 1] test_start))
               = Some {| x := 2; cur_fiber := -1 |}) by (vm_compute; reflexivity).
  split; [exact I1|]. split; [exact I2|]. split; [exact Hb|]. split; [exact Ea|].
  destruct (FiberScheduler.run 4 (schedule_each [yield_loop 1; yield_loop 1] test_start))
    as [[s1'| | |]|] eqn:E1; try discriminate Hx.
  destruct (FiberScheduler.run 4 (schedule_each [yield_loop 1; yield_loop 1] test_start_high))
    as [[s2'| | |]|] eqn:E2; try discriminate Hx2.
  destruct (FiberScheduler.run 6 (schedule_each [yield_loop 1; yield_loop 1] test_start))
    as [o6|] eqn:E6; try discriminate H6.
  destruct (run_is_deterministic 4 6
              (schedule_each [yield_loop 1; yield_loop 1] test_start)
              (schedule_each [yield_loop 1; yield_loop 1] test_start_high)
              (Returned s1') o6) as (D1 & D2 & _).
  exists s1', s2'. split; [reflexivity|].
  split; [rewrite <- (D1 E1 E6); reflexivity|].
  split; [reflexivity|].
  specialize (D2 I1 I2 Ea). rewrite E1, E2 in D2.
  split; [exact (f_equal (fun o => match o with
                                   | Some (Some a) => a
                                   | _ => abstract s1'
                                   end) D2)|].
  split; [exact Hact|]. injection Hx as Hx. rewrite Hx. reflexivity.
Defined.

Lemma schedule_does_not_run_the_body_witness :
  Inv [] test_start /\
  world (FiberScheduler.schedule incr_fiber test_start) = world test_start /\
  log (FiberScheduler.schedule incr_fiber test_start) = [] /\
  queue (FiberScheduler.schedule incr_fiber test_start)
    = [{| eip := EipRunFiber; esp := EspIn 1048576 |}] /\
  world (schedule_each [incr_fiber; incr_fiber] test_start) = world test_start /\
  log (schedule_each [incr_fiber; incr_fiber] test_start) = [].
Proof.
  split; [apply started_state_inv|].
  destruct (schedule_does_not_run_the_body incr_fiber [incr_fiber; incr_fiber] []
              test_start (started_state_inv _))
    as (H1 & H2 & H3 & _ & _ & H4 & H5 & _).
  split; [exact H1|]. split; [exact H2|]. split; [exact H3|]. split; [exact H4|exact H5].
Defined.

(** ** [main] as a whole *)

(** The six tests of [main] pass one after the other: the run ends in the
    last test, with its [x] at 30; 57 switches into fibers were made in
    all, and the pool ends up holding the four blocks ever taken from
    [calloc]. *)
Example main_passes :
  out_world (main 33) = Some {| x := 30; cur_fiber := 3 |} /\
  length (out_activations (main 33)) = 57%nat /\
  length (out_stacks (main 33)) = 4%nat.
Proof. vm_compute. by split_and!. Qed.

(** * Beyond the specification *)

(** ** The destructors *)

Section Destructors.
Context {W : Type}.
Implicit Type s : State W.

Lemma filter_all {A} (P : A -> Prop) `{forall a, Decision (P a)} (l : list A) :
  Forall P l -> filter P l = l.
Proof.
  induction 1 as [|a l Ha _ IH]; [done|]. by rewrite filter_cons_True, IH.
Qed.

(** The blocks [~StackPool] passes to [::free] that are not null. *)
Lemma free_each_returned (l : list Z) : forall s s',
  free_each l s = Returned s' ->
  NoDup (filter (fun b => b <> 0) l) /\
  Forall (fun b => is_Some (heap s !! b)) (filter (fun b => b <> 0) l) /\
  s' = set_heap (heap s') s /\
  (forall b, heap s' !! b =
             if decide (b ∈ filter (fun b => b <> 0) l) then None else heap s !! b).
Proof.
  induction l as [|a l IH]; intros s s'; simpl.
  - intros [= <-]. split_and!; [constructor|constructor|by destruct s|done].
  - unfold free. destruct (decide (a = 0)) as [->|Ha].
    + rewrite filter_cons_False by (intros H; by apply H). apply IH.
    + rewrite filter_cons_True by done.
      destruct (heap s !! a) as [blk|] eqn:Eh; [|done].
      intros H. apply IH in H as (ND & Hall & Hs' & Hlook). state_simpl.
      assert (Hnin : a ∉ filter (fun b => b <> 0) l).
      { intros Hin. rewrite Forall_forall in Hall. destruct (Hall a Hin) as [? Hx].
        by rewrite lookup_delete_eq in Hx. }
      split_and!.
      * by constructor.
      * constructor; [by rewrite Eh|].
        eapply Forall_impl; [exact Hall|]. intros b [x Hx].
        apply lookup_delete_Some in Hx as [_ Hx]. by rewrite Hx.
      * rewrite Hs'. by destruct s.
      * intros b. rewrite Hlook.
        destruct (decide (b = a)) as [->|Hne].
        -- rewrite decide_False by done. rewrite decide_True by left.
           by rewrite lookup_delete_eq.
        -- rewrite lookup_delete_ne by done.
           destruct (decide (b ∈ filter (fun b => b <> 0) l)) as [Hin|Hin].
           ++ rewrite decide_True; [done|]. by right.
           ++ rewrite decide_False; [done|]. by intros [?|?]%elem_of_cons.
Qed.

Lemma free_each_defined (l : list Z) : forall s,
  NoDup (filter (fun b => b <> 0) l) ->
  Forall (fun b => is_Some (heap s !! b)) (filter (fun b => b <> 0) l) ->
  exists s', free_each l s = Returned s'.
Proof.
  induction l as [|a l IH]; intros s; simpl; [by eexists|].
  unfold free. destruct (decide (a = 0)) as [->|Ha].
  - rewrite filter_cons_False by (intros H; by apply H). apply IH.
  - rewrite filter_cons_True by done.
    intros [Hnin ND]%NoDup_cons [[blk Hblk] Hall]%Forall_cons. rewrite Hblk.
    apply IH; [done|]. state_simpl.
    rewrite Forall_forall in Hall |- *. intros b Hb.
    rewrite lookup_delete_ne; [by apply Hall|]. by intros <-.
Qed.

Lemma free_each_outcome (l : list Z) : forall s,
  (exists s', free_each l s = Returned s') \/ free_each l s = Undefined.
Proof.
  induction l as [|a l IH]; intros s; simpl; [left; by eexists|].
  unfold free. destruct (decide (a = 0)); [apply IH|].
  destruct (heap s !! a); [apply IH|by right].
Qed.

(** What [~StackPool] does under the invariant. *)
Lemma StackPool_delete_inv r s :
  Inv r s ->
  exists h, StackPool_delete s = Returned (set_stacks [] (set_heap h s)) /\
    (forall b, h !! b = if decide (b ∈ stacks s) then None else heap s !! b) /\
    elements (dom h) ≡ₚ r ++ (ctx_block <$> queue s).
Proof.
  intros I. pose proof (inv_nodup _ _ I) as ND.
  pose proof (inv_brk _ _ I) as [_ Hpos].
  assert (Hin : forall b, b ∈ stacks s -> is_Some (heap s !! b)).
  { intros b Hb. apply (inv_dom r s b I). rewrite elem_of_app. by left. }
  assert (Hf : filter (fun b => b <> 0) (stacks s) = stacks s).
  { apply filter_all, Forall_forall. intros b Hb.
    apply Hin, Hpos in Hb. lia. }
  destruct (free_each_defined (stacks s) s) as [s' Hs'].
  { rewrite Hf. by apply NoDup_app in ND as [? _]. }
  { rewrite Hf. by apply Forall_forall. }
  destruct (free_each_returned _ _ _ Hs') as (_ & _ & E & Hlook). rewrite Hf in Hlook.
  exists (heap s'). unfold StackPool_delete. rewrite Hs', E at 1. split_and!; [done..|].
  apply NoDup_Permutation; [apply NoDup_elements|by apply NoDup_app in ND as (_ & _ & ?)|].
  intros b. rewrite elem_of_elements, elem_of_dom, Hlook.
  destruct (decide (b ∈ stacks s)) as [Hb|Hb].
  - split; [by intros [? ?]|]. intros Hb'.
    apply NoDup_app in ND as (_ & Hd & _). by destruct (Hd b Hb).
  - rewrite (inv_dom r s b I), elem_of_app. split; [by intros [?|?]|by right].
Qed.
End Destructors.

Section DestructorTheorems.
Context {W : Type}.
Implicit Type s : State W.

(** X1: [~StackPool] is defined exactly when the pointers of the free list
    that are not null are distinct blocks that are still allocated (a
    pointer held twice would be released twice); otherwise it runs into
    undefined behaviour.  When it is defined it releases those blocks and
    no other, and touches nothing else. *)
Theorem StackPool_destructor_frees_each_block_once s :
  let live := filter (fun b => b <> 0) (stacks s) in
  ((exists s', StackPool_delete s = Returned s') <->
   NoDup live /\ Forall (fun b => is_Some (heap s !! b)) live) /\
  ((exists s', StackPool_delete s = Returned s') \/ StackPool_delete s = Undefined) /\
  (forall s', StackPool_delete s = Returned s' ->
     s' = set_stacks [] (set_heap (heap s') s) /\
     forall b, heap s' !! b = if decide (b ∈ live) then None else heap s !! b).
Proof.
  cbv zeta. unfold StackPool_delete. split_and!.
  - split.
    + intros [s' H]. destruct (free_each (stacks s) s) as [s1| | |] eqn:E; try done.
      by apply free_each_returned in E as (? & ? & _).
    + intros [ND Hall]. destruct (free_each_defined _ s ND Hall) as [s' ->]. by eexists.
  - destruct (free_each_outcome (stacks s) s) as [[s' ->]| ->]; [left; by eexists|by right].
  - intros s' H. destruct (free_each (stacks s) s) as [s1| | |] eqn:E; try done.
    injection H as <-. apply free_each_returned in E as (_ & _ & E & Hlook).
    split; [|done]. rewrite E at 1. by destruct s.
Qed.

(** X2: at the end of the process, with the queue drained, every block
    [calloc] ever handed out is released, once, and the scheduler is
    destroyed: nothing stays allocated.  With fibers still queued, the pool
    releases the blocks of its free list and then the assertion of
    [~FiberScheduler] fails; the blocks that stay allocated are those of
    the queued fibers. *)
Theorem exit_releases_every_stack s :
  Inv [] s ->
  (queue s = [] ->
   exit_process s =
     Returned (set_global_scheduler None (set_stacks [] (set_heap ∅ s)))) /\
  (queue s <> [] ->
   exists s', exit_process s = Aborted s' /\ queue s' = queue s /\ stacks s' = [] /\
              elements (dom (heap s')) ≡ₚ ctx_block <$> queue s).
Proof.
  intros I. destruct (StackPool_delete_inv [] s I) as (h & E & Hlook & Hdom).
  unfold exit_process, global_scheduler_delete, FiberScheduler_delete. rewrite E.
  state_simpl. rewrite (inv_global _ _ I). split.
  - intros Hq. rewrite Hq in *. simpl in Hdom.
    apply Permutation_nil_r, elements_empty_inv in Hdom.
    apply leibniz_equiv, dom_empty_inv_L in Hdom. by rewrite Hdom.
  - intros Hq. destruct (queue s) as [|c q] eqn:Eq; [done|].
    eexists. split; [reflexivity|]. state_simpl. by rewrite Eq.
Qed.
End DestructorTheorems.

Lemma exit_releases_every_stack_witness :
  Inv [] test_start /\ queue test_start = [] /\
  exit_process test_start =
    Returned (set_global_scheduler None (set_stacks [] (set_heap ∅ test_start))) /\
  Inv [] (FiberScheduler.schedule incr_fiber test_start) /\
  queue (FiberScheduler.schedule incr_fiber test_start) <> [] /\
  exists s', exit_process (FiberScheduler.schedule incr_fiber test_start) = Aborted s' /\
             stacks s' = [].
Proof.
  assert (I : Inv [] (FiberScheduler.schedule incr_fiber test_start)).
  { apply schedule_inv, started_state_inv. }
  split; [apply started_state_inv|]. split; [reflexivity|].
  split; [apply (proj1 (exit_releases_every_stack _ (started_state_inv _))); reflexivity|].
  split; [exact I|]. split; [discriminate|].
  destruct (proj2 (exit_releases_every_stack _ I)) as (s' & E & _ & Hst & _);
    [discriminate|].
  exists s'. split; [exact E|exact Hst].
Defined.

(** ** Which stack a new fiber gets *)

Section Allocation.
Context {W : Type}.
Implicit Type s : State W.

(** [schedule] on an empty pool and on a pool whose back is [b]. *)
Lemma schedule_alloc (f : Fiber W) s :
  (stacks s = [] /\ fst (StackPool.alloc s) = brk s /\
   stacks (FiberScheduler.schedule f s) = [] /\
   brk (FiberScheduler.schedule f s) = brk s + 1 * StackPool.STACK_SIZE /\
   dom (heap (FiberScheduler.schedule f s)) = {[brk s]} ∪ dom (heap s)) \/
  (exists l b, stacks s = l ++ [b] /\ fst (StackPool.alloc s) = b /\
   stacks (FiberScheduler.schedule f s) = l /\
   brk (FiberScheduler.schedule f s) = brk s /\
   dom (heap (FiberScheduler.schedule f s)) = dom (heap s)).
Proof.
  unfold FiberScheduler.schedule, FiberScheduler.FiberKeeper_new.
  destruct (last_cases (stacks s)) as [[E El]|(l & b & E & El)]; [left|right; exists l, b].
  - rewrite alloc_fresh by done.
    unfold calloc, FiberScheduler.store_keeper, FiberScheduler.FiberKeeper_delete.
    change (stack (@FiberKeeper_zero W)) with 0. rewrite decide_True by done. state_unfold.
    split_and!; try done. by rewrite dom_alter_L, dom_insert_L.
  - rewrite (alloc_recycles _ l b) by done.
    unfold FiberScheduler.store_keeper, FiberScheduler.FiberKeeper_delete.
    change (stack (@FiberKeeper_zero W)) with 0. rewrite decide_True by done. state_unfold.
    split_and!; try done. by rewrite dom_alter_L.
Qed.

Lemma new_blocks_cons (f : Fiber W) fs s :
  new_blocks (f :: fs) s =
  fst (StackPool.alloc s) :: new_blocks fs (FiberScheduler.schedule f s).
Proof.
  unfold new_blocks. change (schedule_each (f :: fs) s)
    with (schedule_each fs (FiberScheduler.schedule f s)).
  destruct (schedule_frame f s) as (_ & _ & _ & _ & _ & Hq & _).
  destruct (schedule_each_frame fs (FiberScheduler.schedule f s)) as (_ & _ & new & -> & _).
  rewrite drop_app_length, Hq, <- app_assoc, drop_app_length. done.
Qed.

Lemma next_blocks_S s s' n :
  brk s' = brk s + 1 * StackPool.STACK_SIZE ->
  next_blocks s (S n) = brk s :: next_blocks s' n.
Proof.
  intros E. unfold next_blocks. rewrite E. cbn [seq fmap list_fmap]. f_equal; [lia|].
  rewrite <- fmap_S_seq, <- list_fmap_compose. apply list_fmap_ext.
  intros _ i _. simpl. lia.
Qed.

(** The blocks [n] calls of [schedule] take, what they leave in the pool,
    and how far they move the allocator. *)
Lemma schedule_each_alloc (fs : list (Fiber W)) : forall s,
  new_blocks fs s =
    take (length fs) (reverse (stacks s)) ++ next_blocks s (length fs - length (stacks s)) /\
  stacks (schedule_each fs s) = take (length (stacks s) - length fs) (stacks s) /\
  brk (schedule_each fs s) =
    brk s + Z.of_nat (length fs - length (stacks s)) * StackPool.STACK_SIZE /\
  ((length fs <= length (stacks s))%nat ->
   dom (heap (schedule_each fs s)) = dom (heap s)).
Proof.
  induction fs as [|f fs IH]; intros s.
  - unfold new_blocks, schedule_each. simpl. rewrite drop_all, Nat.sub_0_r, firstn_all.
    split_and!; [done..|lia|done].
  - rewrite new_blocks_cons.
    change (schedule_each (f :: fs) s) with (schedule_each fs (FiberScheduler.schedule f s)).
    destruct (IH (FiberScheduler.schedule f s)) as (Hn & Hs & Hb & Hd).
    destruct (schedule_alloc f s)
      as [(E & Ea & Es & Eb & Ed)|(l & b & E & Ea & Es & Eb & Ed)].
    + rewrite Hn, Hs, Hb, Es, Eb, Ea, E. change (reverse []) with (@nil Z).
      rewrite !take_nil. cbn [length app]. rewrite !Nat.sub_0_r.
      split_and!; [symmetry; by apply next_blocks_S|done|lia|lia].
    + rewrite Hn, Hs, Hb, Es, Eb, Ea, E, reverse_app, length_app. simpl.
      rewrite Nat.add_1_r. simpl.
      split_and!.
      * unfold next_blocks. by rewrite Eb.
      * by rewrite take_app_le by lia.
      * done.
      * intros Hle. rewrite Hd; [done|]. rewrite Es. lia.
Qed.
End Allocation.

Section AllocationTheorems.
Context {W : Type}.
Implicit Type s : State W.

(** X3: in a state the scheduler can be in, [n] calls of [schedule] in a
    row take their stacks from the back of the pool's free list, the block
    freed last first, and call [calloc] only once the list is empty: with
    [p] blocks in the pool the allocator moves by [n - p] blocks (not at
    all when [n <= p], and then no block is added to the heap), and the
    pool keeps its [p - n] oldest blocks.  The blocks taken are distinct
    live blocks of [STACK_SIZE] bytes, each holding the keeper that owns
    it, and the invariant still holds. *)
Theorem schedule_takes_freed_stacks_first (fs : list (Fiber W)) (r : list Z) s :
  Inv r s ->
  let n := length fs in
  let p := length (stacks s) in
  new_blocks fs s = take n (reverse (stacks s)) ++ next_blocks s (n - p) /\
  stacks (schedule_each fs s) = take (p - n) (stacks s) /\
  brk (schedule_each fs s) = brk s + Z.of_nat (n - p) * StackPool.STACK_SIZE /\
  ((n <= p)%nat -> dom (heap (schedule_each fs s)) = dom (heap s)) /\
  NoDup (new_blocks fs s) /\
  Forall (fun b => 0 < b /\
                   exists blk, heap (schedule_each fs s) !! b = Some blk /\
                               stack (blk_keeper blk) = b /\
                               blk_size blk = StackPool.STACK_SIZE)
         (new_blocks fs s) /\
  Inv r (schedule_each fs s).
Proof.
  intros I. cbv zeta.
  destruct (schedule_each_alloc fs s) as (Hnew & Hpool & Hbrk & Hdom).
  destruct (schedule_list_inv fs r s I) as (I' & _).
  destruct (schedule_each_frame fs s) as (_ & _ & new & Hq & _).
  assert (Hnb : new_blocks fs s = ctx_block <$> new).
  { unfold new_blocks. by rewrite Hq, drop_app_length. }
  split; [exact Hnew|]. split; [exact Hpool|]. split; [exact Hbrk|].
  split; [exact Hdom|]. split_and!; [| |done].
  - pose proof (inv_nodup _ _ I') as ND. rewrite Hq, fmap_app in ND.
    apply NoDup_app in ND as (_ & _ & ND). apply NoDup_app in ND as (_ & _ & ND).
    apply NoDup_app in ND as (_ & _ & ND). by rewrite Hnb.
  - pose proof (inv_queue _ _ I') as Hok. rewrite Hq, Forall_app in Hok.
    destruct Hok as [_ Hok]. rewrite Hnb, Forall_fmap.
    eapply Forall_impl; [exact Hok|]. intros c (b & blk & He & Hb & Hst & _).
    unfold ctx_block. simpl. rewrite He. split.
    + apply (inv_brk _ _ I'). by rewrite Hb.
    + exists blk. split_and!; [done..|]. by apply (inv_size _ _ I') in Hb.
Qed.

(** X4: when [run] returns, every block [calloc] has handed out so far is
    in the pool's free list, each once.  So the fibers scheduled next, up to
    the number of blocks there are, all run on recycled stacks: [calloc] is
    not called for them. *)
Theorem run_returns_every_stack_to_the_pool (fuel : nat) s s' :
  Inv [] s -> FiberScheduler.run fuel s = Some (Returned s') ->
  stacks s' ≡ₚ elements (dom (heap s')) /\ NoDup (stacks s') /\
  length (stacks s') = size (dom (heap s')) /\
  forall fs : list (Fiber W),
    (length fs <= size (dom (heap s')))%nat ->
    brk (schedule_each fs s') = brk s' /\
    dom (heap (schedule_each fs s')) = dom (heap s') /\
    new_blocks fs s' = take (length fs) (reverse (stacks s')).
Proof.
  intros I Hrun. destruct (run_inv fuel s s' I Hrun) as (I' & Hq & _).
  pose proof (inv_owned _ _ I') as Hown. pose proof (inv_nodup _ _ I') as ND.
  rewrite Hq in Hown, ND. simpl in Hown, ND. rewrite app_nil_r in Hown, ND.
  assert (Hlen : length (stacks s') = size (dom (heap s'))).
  { unfold size, set_size. simpl. by rewrite Hown. }
  split_and!; [done..|]. intros fs Hfs. rewrite <- Hlen in Hfs.
  destruct (schedule_each_alloc fs s') as (Hn & _ & Hb & Hd).
  replace (length fs - length (stacks s'))%nat with 0%nat in * by lia.
  split_and!.
  - rewrite Hb. lia.
  - by apply Hd.
  - rewrite Hn. unfold next_blocks. simpl. by rewrite app_nil_r.
Qed.
End AllocationTheorems.

Lemma run_returns_every_stack_to_the_pool_witness :
  Inv [] (FiberScheduler.schedule incr_fiber test_start) /\
  exists s', FiberScheduler.run 1 (FiberScheduler.schedule incr_fiber test_start)
             = Some (Returned s') /\
             length (stacks s') = size (dom (heap s')).
Proof.
  assert (I : Inv [] (FiberScheduler.schedule incr_fiber test_start)).
  { apply schedule_inv, started_state_inv. }
  split; [exact I|].
  destruct (FiberScheduler.run 1 (FiberScheduler.schedule incr_fiber test_start))
    as [[s'| | |]|] eqn:E; try discriminate E.
  exists s'. split; [reflexivity|].
  destruct (run_returns_every_stack_to_the_pool 1 _ s' I E) as (_ & _ & H & _).
  exact H.
Defined.

(** ** The two schedulers side by side *)

Section Inline.
Context {W : Type}.
Implicit Type s : State W.

(** A body that calls neither [yield] nor [schedule] runs through in one
    turn, as it does when [InlineScheduler] calls it. *)
Lemma straight_exec (p : Fiber W) : forall id a,
  Straight p ->
  Abstract.exec p id a =
  match InlineScheduler.schedule p (Abstract.vars a) with
  | Some w' => Some {| Abstract.vars := w'; Abstract.ready := Abstract.ready a;
                       Abstract.next_id := Abstract.next_id a;
                       Abstract.trace := Abstract.trace a ++ [EvExit id] |}
  | None => None
  end.
Proof.
  induction p as [| |f k IH|k IH|k IH|body _ k IH]; intros id a Hp; simpl in *; try done.
  - by rewrite IH.
  - by rewrite IH.
Qed.

Lemma straight_run (fs : list (Fiber W)) : forall n0 w nid tr,
  Forall Straight fs ->
  match inline_each fs w with
  | Some w' =>
      exists tr',
        Abstract.run (length fs)
          {| Abstract.vars := w;
             Abstract.ready := zip_with Unstarted (seq n0 (length fs)) fs;
             Abstract.next_id := nid; Abstract.trace := tr |} =
        Some (Some {| Abstract.vars := w'; Abstract.ready := [];
                      Abstract.next_id := nid; Abstract.trace := tr' |}) /\
        activations tr' = activations tr ++ seq n0 (length fs)
  | None =>
      Abstract.run (length fs)
        {| Abstract.vars := w;
           Abstract.ready := zip_with Unstarted (seq n0 (length fs)) fs;
           Abstract.next_id := nid; Abstract.trace := tr |} = Some None
  end.
Proof.
  induction fs as [|f fs IH]; intros n0 w nid tr Hfs.
  - simpl. exists tr. by rewrite app_nil_r.
  - apply Forall_cons in Hfs as [Hf Hfs].
    cbn [length seq zip_with inline_each]. rewrite abstract_run_step.
    cbn [entry_todo entry_id entry_event]. rewrite straight_exec by done.
    cbn [Abstract.vars Abstract.ready Abstract.next_id Abstract.trace].
    destruct (InlineScheduler.schedule f w) as [w1|]; [|done].
    specialize (IH (S n0) w1 nid ((tr ++ [EvEnter n0]) ++ [EvExit n0]) Hfs).
    destruct (inline_each fs w1) as [w'|]; [|done].
    destruct IH as (tr' & Hrun & Hact). exists tr'. split; [done|].
    rewrite Hact, !activations_app, <- !app_assoc. done.
Qed.

Lemma and_then_stops (o : Outcome W) (fs : list (Fiber W)) :
  (forall s, o <> Returned s) ->
  foldl (fun o f => and_then o (fun s => Some (schedule f s))) (Some o) fs = Some o.
Proof.
  intros Ho. induction fs as [|f fs IH]; [done|]. simpl.
  destruct o; [by destruct (Ho s)|done..].
Qed.

(** A list of [schedule] calls with the [InlineScheduler] installed. *)
Lemma inline_schedule_all (fs : list (Fiber W)) : forall s,
  global_scheduler s = Some InlineSchedulerK ->
  match inline_each fs (world s) with
  | Some w => schedule_all fs s = Some (Returned (set_world w s))
  | None => exists s', schedule_all fs s = Some (Aborted s')
  end.
Proof.
  unfold schedule_all. induction fs as [|f fs IH]; intros s Hg.
  - simpl. by destruct s.
  - cbn [inline_each foldl and_then].
    assert (E : schedule f s = match InlineScheduler.schedule f (world s) with
                               | Some w => Returned (set_world w s)
                               | None => Aborted s
                               end).
    { unfold schedule, FiberScheduler.call_schedule. by rewrite Hg. }
    rewrite E. destruct (InlineScheduler.schedule f (world s)) as [w1|].
    + specialize (IH (set_world w1 s) Hg). state_simpl.
      destruct (inline_each fs w1) as [w|]; [by rewrite IH|exact IH].
    + exists s. by apply and_then_stops.
Qed.

(** What the queue holds once the bodies [fs] have been scheduled from
    outside [run]. *)
Lemma scheduled_abstract (fs : list (Fiber W)) s :
  Inv [] s -> queue s = [] ->
  Inv [] (schedule_each fs s) /\
  abstract (schedule_each fs s) =
    {| Abstract.vars := world s;
       Abstract.ready := zip_with Unstarted (seq (spawned s) (length fs)) fs;
       Abstract.next_id := (spawned s + length fs)%nat;
       Abstract.trace := log s |}.
Proof.
  intros I Hq.
  destruct (schedule_list_inv fs [] s I) as (I1 & _ & _ & _ & _ & _ & _ & Habs).
  split; [done|]. rewrite Habs, abstract_schedule_each. unfold abstract. state_simpl.
  by rewrite Hq.
Qed.

Lemma run_aborts_from_abstract fuel s :
  Inv [] s -> Abstract.run fuel (abstract s) = Some None ->
  exists s', FiberScheduler.run fuel s = Some (Aborted s').
Proof.
  intros I Ha. pose proof (run_refines fuel s I) as H.
  destruct (FiberScheduler.run fuel s) as [[s'|? ?|s'|]|]; try done.
  - destruct H as (_ & _ & H). by rewrite Ha in H.
  - by exists s'.
  - by rewrite Ha in H.
Qed.

Lemma run_one_from_abstract s a' :
  Inv [] s -> queue s <> [] -> Abstract.run_one (abstract s) = Some a' ->
  exists s', FiberScheduler.run_one s = Returned s' /\ abstract s' = a' /\ Inv [] s'.
Proof.
  intros I Hq Ha. destruct (run_one_refines s I Hq) as [_ H].
  destruct (FiberScheduler.run_one s) as [s'|? ?|s'|]; try done.
  - destruct H as [I1 H]. rewrite Ha in H. injection H as ->. by exists s'.
  - by rewrite Ha in H.
Qed.

Lemma run_one_aborts_from_abstract s :
  Inv [] s -> queue s <> [] -> Abstract.run_one (abstract s) = None ->
  exists s', FiberScheduler.run_one s = Aborted s'.
Proof.
  intros I Hq Ha. destruct (run_one_refines s I Hq) as [_ H].
  destruct (FiberScheduler.run_one s) as [s'|? ?|s'|]; try done.
  - destruct H as [_ H]. by rewrite Ha in H.
  - by exists s'.
Qed.

(** A fiber alone in the queue whose body does not call [schedule]: each
    [yield] brings it straight back. *)
Lemma lone_exec (p : Fiber W) : forall id a,
  NoSchedule p -> Abstract.ready a = [] ->
  exists fuel,
    match Abstract.exec p id a, InlineScheduler.schedule p (Abstract.vars a) with
    | Some a1, Some w' =>
        exists a', Abstract.run fuel a1 = Some (Some a') /\
                   Abstract.vars a' = w' /\ Abstract.ready a' = []
    | Some a1, None => Abstract.run fuel a1 = Some None
    | None, None => True
    | None, Some _ => False
    end.
Proof.
  induction p as [| |f k IH|k IH|k IH|body _ k IH]; intros id a Hp Hr; simpl in *.
  - exists 0%nat. eexists. simpl. rewrite Hr. by split_and!.
  - by exists 0%nat.
  - by apply IH.
  - by apply IH.
  - destruct (IH id {| Abstract.vars := Abstract.vars a; Abstract.ready := [];
                       Abstract.next_id := Abstract.next_id a;
                       Abstract.trace := Abstract.trace a ++ [EvResume id] |} Hp eq_refl)
      as [fuel H].
    exists (S fuel). rewrite Hr. cbn [app]. rewrite abstract_run_step.
    cbn [entry_todo entry_id entry_event Abstract.vars] in *.
    destruct (Abstract.exec k id _) as [a1|]; [done|].
    by destruct (InlineScheduler.schedule k (Abstract.vars a)).
  - done.
Qed.
End Inline.

Section InlineTheorems.
Context {W : Type}.
Implicit Type s : State W.

(** X5: on bodies that call neither [yield] nor [schedule] the two
    schedulers cannot be told apart by the captured variables.  The same
    calls [schedule(f1); ...; schedule(fn); run_global_scheduler();] give
    the same variables, or fail an assertion alike, whether the
    [InlineScheduler] runs each body inside its [schedule] call or the
    [FiberScheduler] queues them and [run] switches to each once, in the
    order of the calls, in [n] turns.  The [InlineScheduler] queues
    nothing and takes no stack. *)
Theorem schedulers_agree_without_yield (fs : list (Fiber W)) (si sf : State W) fuel :
  global_scheduler si = Some InlineSchedulerK ->
  Inv [] sf -> queue sf = [] -> world sf = world si -> Forall Straight fs ->
  let inline := and_then (schedule_all fs si) (run_global_scheduler fuel) in
  let fibers := and_then (schedule_all fs sf) (run_global_scheduler (length fs)) in
  out_world fibers = out_world inline /\
  out_world inline = inline_each fs (world si) /\
  (exists o, fibers = Some o) /\
  (forall s', inline = Some (Returned s') -> s' = set_world (world s') si) /\
  (forall s', fibers = Some (Returned s') ->
     queue s' = [] /\
     activations (log s') = activations (log sf) ++ seq (spawned sf) (length fs)).
Proof.
  intros Hg I Hq Hw Hfs. cbv zeta.
  assert (Hi : and_then (schedule_all fs si) (run_global_scheduler fuel) =
               match inline_each fs (world si) with
               | Some w => Some (Returned (set_world w si))
               | None => and_then (schedule_all fs si) (run_global_scheduler fuel)
               end /\
               out_world (and_then (schedule_all fs si) (run_global_scheduler fuel)) =
               inline_each fs (world si)).
  { pose proof (inline_schedule_all fs si Hg) as H.
    destruct (inline_each fs (world si)) as [w|].
    - rewrite H. cbn [and_then]. unfold run_global_scheduler. state_simpl. by rewrite Hg.
    - destruct H as [s' ->]. done. }
  destruct Hi as [Hi1 Hi2].
  destruct (scheduled_abstract fs sf I Hq) as [I1 Ha].
  rewrite (schedule_all_each fs [] sf I). cbn [and_then].
  assert (Hrg : run_global_scheduler (length fs) (schedule_each fs sf) =
                FiberScheduler.run (length fs) (schedule_each fs sf)).
  { unfold run_global_scheduler. by rewrite (inv_global _ _ I1). }
  rewrite Hrg. clear Hrg.
  pose proof (straight_run fs (spawned sf) (world sf) (spawned sf + length fs)%nat
                (log sf) Hfs) as Hrun.
  rewrite <- Ha, Hw in Hrun. rewrite Hi2.
  destruct (inline_each fs (world si)) as [w|].
  - destruct Hrun as (tr' & Hrun & Hact).
    destruct (run_from_abstract _ _ _ I1 Hrun) as (s2 & -> & Ha2 & _ & Hq2).
    assert (Hw2 : world s2 = w)
      by (change (world s2) with (Abstract.vars (abstract s2)); by rewrite Ha2).
    assert (Hl2 : log s2 = tr')
      by (change (log s2) with (Abstract.trace (abstract s2)); by rewrite Ha2).
    simpl. rewrite Hw2. split_and!; try done.
    + by eexists.
    + rewrite Hi1. by intros s' [= <-].
    + intros s' [= <-]. by rewrite Hl2.
  - destruct (run_aborts_from_abstract _ _ I1 Hrun) as [s2 ->]. simpl.
    split_and!; try done.
    + by eexists.
    + intros s' H. pose proof (f_equal out_world H) as H'. rewrite Hi2 in H'. done.
Qed.

(** X6: a fiber alone in the queue whose body does not call [schedule]
    cannot observe its own [yield] calls: each one brings it straight back,
    [run] returns once the body has returned, and the captured variables
    are then what the [InlineScheduler], whose [yield] does nothing, leaves
    when it runs the body; if the body fails an assertion it does so under
    both. *)
Theorem lone_fiber_yield_changes_nothing (p : Fiber W) s :
  Inv [] s -> queue s = [] -> NoSchedule p ->
  exists fuel o,
    FiberScheduler.run fuel (FiberScheduler.schedule p s) = Some o /\
    match InlineScheduler.schedule p (world s) with
    | Some w' => exists s', o = Returned s' /\ world s' = w' /\ queue s' = []
    | None => exists s', o = Aborted s'
    end.
Proof.
  intros I Hq Hp. destruct (scheduled_abstract [p] s I Hq) as [I1 Ha].
  change (schedule_each [p] s) with (FiberScheduler.schedule p s) in *.
  simpl in Ha.
  destruct (lone_exec p (spawned s)
              {| Abstract.vars := world s; Abstract.ready := [];
                 Abstract.next_id := (spawned s + 1)%nat;
                 Abstract.trace := log s ++ [EvEnter (spawned s)] |} Hp eq_refl)
    as [fuel H].
  assert (Hstep := abstract_run_step fuel (Unstarted (spawned s) p) [] (world s)
                     (spawned s + 1)%nat (log s)).
  rewrite <- Ha in Hstep. cbn [entry_todo entry_id entry_event Abstract.vars] in *.
  destruct (Abstract.exec p (spawned s) _) as [a1|];
    destruct (InlineScheduler.schedule p (world s)) as [w'|]; try done.
  - destruct H as (a' & Hrun & Hv & Hr). rewrite Hrun in Hstep.
    destruct (run_from_abstract _ _ _ I1 Hstep) as (s' & E & Ha' & _ & Hq').
    exists (S fuel), (Returned s'). split; [done|]. exists s'. split_and!; [done| |done].
    change (world s') with (Abstract.vars (abstract s')). by rewrite Ha'.
  - rewrite H in Hstep. destruct (run_aborts_from_abstract _ _ I1 Hstep) as [s' E].
    exists (S fuel), (Aborted s'). split; [done|]. by exists s'.
  - destruct (run_aborts_from_abstract _ _ I1 Hstep) as [s' E].
    exists (S fuel), (Aborted s'). split; [done|]. by exists s'.
Qed.
End InlineTheorems.

Section TestFacts.
Implicit Type s : State TestVars.

Lemma inline_incr (n : nat) : forall w,
  inline_each (replicate n incr_fiber) w = Some (Nat.iter n incr_x w).
Proof.
  induction n as [|n IH]; intros w; [done|].
  simpl replicate. cbn [inline_each incr_fiber InlineScheduler.schedule].
  by rewrite IH, Nat.iter_succ_r.
Qed.

Lemma straight_incr (n : nat) : Forall Straight (replicate n incr_fiber).
Proof. apply Forall_replicate. done. Qed.

(** [n] fibers that each increment [x], scheduled from outside [run]. *)
Lemma incr_fibers_run (n : nat) s :
  Inv [] s -> queue s = [] ->
  exists s',
    schedule_all (replicate n incr_fiber) s =
      Some (Returned (schedule_each (replicate n incr_fiber) s)) /\
    FiberScheduler.run n (schedule_each (replicate n incr_fiber) s) = Some (Returned s') /\
    run_global_scheduler n (schedule_each (replicate n incr_fiber) s) = Some (Returned s') /\
    world s' = Nat.iter n incr_x (world s) /\ Inv [] s' /\ queue s' = [] /\
    activations (log s') = activations (log s) ++ seq (spawned s) n.
Proof.
  intros I Hq.
  pose proof (straight_run (replicate n incr_fiber) (spawned s) (world s)
                (spawned s + length (replicate n incr_fiber))%nat (log s)
                (straight_incr n)) as Hrun.
  rewrite inline_incr in Hrun. destruct Hrun as (tr' & Hrun & Hact).
  destruct (scheduled_then_run _ _ s _ I Hq Hrun)
    as (s' & Hall & _ & Hr & Hrg & Ha & I' & Hq').
  rewrite length_replicate in *.
  exists s'. split_and!; try done.
  - change (world s') with (Abstract.vars (abstract s')). by rewrite Ha.
  - change (log s') with (Abstract.trace (abstract s')). by rewrite Ha.
Qed.

Lemma inline_yield_loop (n : nat) : forall w,
  InlineScheduler.schedule (yield_loop n) w = Some (Nat.iter n incr_x w).
Proof.
  induction n as [|n IH]; intros w; [done|].
  change (yield_loop (S n)) with (Upd incr_x (CallYield (yield_loop n))).
  cbn [InlineScheduler.schedule]. by rewrite IH, Nat.iter_succ_r.
Qed.

Lemma inline_create_fiber (n : nat) (fid : Z) w :
  (2 <= n)%nat -> InlineScheduler.schedule (create_fiber_loop n fid) w = None.
Proof.
  destruct n as [|[|n]]; [lia..|]. intros _.
  change (create_fiber_loop (S (S n)) fid)
    with (create_fiber_turn fid (create_fiber_turn fid (create_fiber_loop n fid))).
  unfold create_fiber_turn at 1. cbn [InlineScheduler.schedule].
  destruct (decide (cur_fiber w = fid)); [done|].
  cbn [InlineScheduler.schedule]. unfold create_fiber_turn at 1.
  cbn [InlineScheduler.schedule incr_x set_cur_fiber cur_fiber].
  by rewrite decide_True.
Qed.
End TestFacts.

(** X7: [n] fibers that each increment [x] once, as [test_simple] and
    [test_multiple] schedule them: [run] switches to each once, in the
    order they were scheduled in, and returns after [n] turns with [x]
    grown by [n].  From any state between two tests, [test_simple] ends
    with [x == 1] and [test_multiple] with [x == 3], and both leave the
    queue empty. *)
Theorem incrementing_fibers_add_up :
  (forall (n : nat) (s : State TestVars),
      Inv [] s -> queue s = [] -> 0 <= x (world s) ->
      x (world s) + Z.of_nat n < 2 ^ 31 ->
      exists s',
        FiberScheduler.run n (schedule_each (replicate n incr_fiber) s) = Some (Returned s') /\
        x (world s') = x (world s) + Z.of_nat n /\ queue s' = [] /\
        activations (log s') = activations (log s) ++ seq (spawned s) n) /\
  (forall s : State TestVars,
      Inv [] s -> queue s = [] ->
      exists s', test_simple 1 s = Some (Returned s') /\ x (world s') = 1 /\
                 Inv [] s' /\ queue s' = []) /\
  (forall s : State TestVars,
      Inv [] s -> queue s = [] ->
      exists s', test_multiple 3 s = Some (Returned s') /\ x (world s') = 3 /\
                 Inv [] s' /\ queue s' = []).
Proof.
  assert (Each : forall (n : nat) (s : State TestVars),
      Inv [] s -> queue s = [] -> Z.of_nat n < 2 ^ 31 ->
      exists s',
        and_then (schedule_all (replicate n incr_fiber) (fresh_locals s)) (fun s =>
        and_then (run_global_scheduler n s)
                 (assert_that (fun w => bool_decide (x w = Z.of_nat n))))
        = Some (Returned s') /\
        x (world s') = Z.of_nat n /\ Inv [] s' /\ queue s' = []).
  { intros n s I Hq Hn.
    destruct (incr_fibers_run n (fresh_locals s)) as (s' & -> & _ & Hr & Hw & I' & Hq' & _);
      [by apply set_world_inv|done|].
    assert (Hx : x (world s') = Z.of_nat n).
    { rewrite Hw. destruct (incr_x_iter n (world (fresh_locals s))) as [-> _];
        simpl; lia. }
    exists s'. cbn [and_then]. rewrite Hr. cbn [and_then]. unfold assert_that.
    rewrite Hx, bool_decide_eq_true_2 by done. by split_and!. }
  split_and!.
  - intros n s I Hq Hx0 Hx.
    destruct (incr_fibers_run n s I Hq) as (s' & _ & Hr & _ & Hw & _ & Hq' & Hact).
    exists s'. split_and!; try done. rewrite Hw.
    by destruct (incr_x_iter n (world s)) as [-> _].
  - intros s I Hq. by apply (Each 1%nat).
  - intros s I Hq. by apply (Each 3%nat).
Qed.

(** X8: with the [InlineScheduler] installed, the tests of main.cpp whose
    fibers do not yield pass ([x == 1], [x == 3], [x == 3]) and the two
    whose fibers yield fail.  A body scheduled inline has run to its end
    when [schedule] returns, so in [test_yield_one] [x] is [ITERS] where
    the test asserts [x == 0]; and since [yield] does not switch, the
    second turn of a [create_fiber] loop finds [cur_fiber == fiber_id]:
    the body's own assertion fails for any loop of two or more turns. *)
Theorem inline_scheduler_fails_the_yield_tests (fuel : nat) (s : State TestVars) :
  global_scheduler s = Some InlineSchedulerK ->
  (exists s', test_simple fuel s = Some (Returned s') /\ x (world s') = 1) /\
  (exists s', test_multiple fuel s = Some (Returned s') /\ x (world s') = 3) /\
  (exists s', test_recursive fuel s = Some (Returned s') /\ x (world s') = 3) /\
  (exists s', test_yield_one fuel s = Some (Aborted s') /\ x (world s') = 10) /\
  (exists s', test_yield_many fuel s = Some (Aborted s')) /\
  (forall n w, InlineScheduler.schedule (yield_loop n) w = Some (Nat.iter n incr_x w)) /\
  (forall n fid w, (2 <= n)%nat ->
     InlineScheduler.schedule (create_fiber_loop n fid) w = None).
Proof.
  intros Hg.
  assert (Hg' : global_scheduler (fresh_locals s) = Some InlineSchedulerK) by done.
  assert (Pass : forall fs (v : Z),
            inline_each fs {| x := 0; cur_fiber := -1 |} = Some {| x := v; cur_fiber := -1 |} ->
            exists s',
              and_then (schedule_all fs (fresh_locals s)) (fun s =>
              and_then (run_global_scheduler fuel s)
                       (assert_that (fun w => bool_decide (x w = v))))
              = Some (Returned s') /\ x (world s') = v).
  { intros fs v E. pose proof (inline_schedule_all fs (fresh_locals s) Hg') as H.
    change (world (fresh_locals s)) with {| x := 0; cur_fiber := -1 |} in H.
    rewrite E in H. rewrite H. cbn [and_then]. unfold run_global_scheduler.
    state_simpl. rewrite Hg'. cbn [and_then]. unfold assert_that. state_simpl.
    rewrite bool_decide_eq_true_2 by done. by eexists. }
  split_and!.
  - by apply (Pass [incr_fiber] 1).
  - by apply (Pass [incr_fiber; incr_fiber; incr_fiber] 3).
  - by apply (Pass [nested 1 incr_fiber; nested 2 incr_fiber; nested 3 incr_fiber] 3).
  - pose proof (inline_schedule_all [yield_one_fiber] (fresh_locals s) Hg') as H.
    change (world (fresh_locals s)) with {| x := 0; cur_fiber := -1 |} in H.
    change (inline_each [yield_one_fiber] {| x := 0; cur_fiber := -1 |})
      with (Some {| x := 10; cur_fiber := -1 |}) in H.
    unfold test_yield_one. rewrite H. cbn [and_then]. unfold assert_that at 1.
    state_simpl. by eexists.
  - pose proof (inline_schedule_all [create_fiber 1; create_fiber 2; create_fiber 3]
                  (fresh_locals s) Hg') as H.
    change (world (fresh_locals s)) with {| x := 0; cur_fiber := -1 |} in H.
    change (inline_each _ {| x := 0; cur_fiber := -1 |}) with (@None TestVars) in H.
    destruct H as [s' H]. unfold test_yield_many. rewrite H. by exists s'.
  - apply inline_yield_loop.
  - apply inline_create_fiber.
Qed.

(** X9: the assertion [cur_fiber != fiber_id] of [create_fiber] relies on
    another fiber running in between.  A fiber made by [create_fiber] that
    is alone in the queue goes through its first turn, yields, and is the
    next to be switched to: in its second turn the assertion fails and
    [run] stops there, whatever the number of turns ([>= 2]) of the loop. *)
Theorem lone_fiber_fails_its_assertion (n : nat) (fid : Z) (s : State TestVars) :
  Inv [] s -> queue s = [] -> cur_fiber (world s) <> fid -> (2 <= n)%nat ->
  let s0 := FiberScheduler.schedule (create_fiber_loop n fid) s in
  exists s1 s2,
    FiberScheduler.run_one s0 = Returned s1 /\
    world s1 = incr_x (set_cur_fiber fid (world s)) /\
    length (queue s1) = 1%nat /\
    FiberScheduler.run_one s1 = Aborted s2 /\
    FiberScheduler.run 2 s0 = Some (Aborted s2).
Proof.
  intros I Hq Hc Hn. cbv zeta. destruct n as [|[|n]]; [lia..|].
  destruct (scheduled_abstract [create_fiber_loop (S (S n)) fid] s I Hq) as [I0 Ha0].
  change (schedule_each [create_fiber_loop (S (S n)) fid] s)
    with (FiberScheduler.schedule (create_fiber_loop (S (S n)) fid) s) in *.
  set (s0 := FiberScheduler.schedule (create_fiber_loop (S (S n)) fid) s) in *.
  assert (Hq0 : queue s0 <> []).
  { destruct (schedule_frame (create_fiber_loop (S (S n)) fid) s)
      as (_ & _ & _ & _ & _ & E & _).
    unfold s0. rewrite E. by destruct (queue s). }
  destruct (run_one_from_abstract s0
              {| Abstract.vars := incr_x (set_cur_fiber fid (world s));
                 Abstract.ready := [Suspended (spawned s) (create_fiber_loop (S n) fid)];
                 Abstract.next_id := (spawned s + 1)%nat;
                 Abstract.trace := log s ++ [EvEnter (spawned s)] |} I0 Hq0)
    as (s1 & E1 & Ha1 & I1).
  { rewrite Ha0. unfold Abstract.run_one. simpl.
    unfold create_fiber_turn at 1. simpl. by rewrite decide_False. }
  assert (Hq1 : length (queue s1) = 1%nat).
  { pose proof (f_equal (fun a => length (entry_id <$> Abstract.ready a)) Ha1) as H.
    simpl in H. unfold abstract in H. state_simpl.
    rewrite entries_ids in H by apply (inv_queue _ _ I1).
    by rewrite length_fmap in H. }
  destruct (run_one_aborts_from_abstract s1 I1) as [s2 E2].
  { by destruct (queue s1). }
  { rewrite Ha1. unfold Abstract.run_one. simpl.
    unfold create_fiber_turn at 1. simpl. by rewrite decide_True. }
  exists s1, s2. split_and!; try done.
  - change (world s1) with (Abstract.vars (abstract s1)). by rewrite Ha1.
  - simpl. destruct (queue s0); [done|]. rewrite E1.
    destruct (queue s1); [done|]. by rewrite E2.
Qed.

(** ** The order in which fibers run *)

Section Order.
Context {W : Type}.
Implicit Type s : State W.
Implicit Type a : Abstract.state W.

Lemma unstarted_ids_app (q1 q2 : list (Entry W)) :
  unstarted_ids (q1 ++ q2) = unstarted_ids q1 ++ unstarted_ids q2.
Proof. apply omap_app. Qed.

(** While a fiber runs, what it schedules lines up behind the fibers that
    have not started yet. *)
Lemma exec_order (p : Fiber W) : forall id a a',
  Abstract.exec p id a = Some a' ->
  entered (Abstract.trace a) ++ unstarted_ids (Abstract.ready a)
    = seq 0 (Abstract.next_id a) ->
  entered (Abstract.trace a') ++ unstarted_ids (Abstract.ready a')
    = seq 0 (Abstract.next_id a').
Proof.
  induction p as [| |f k IH|k IH|k IH|body _ k IH]; intros id a a'; simpl.
  - intros [= <-] H. simpl. by rewrite entered_snoc, app_nil_r.
  - done.
  - intros E H. by apply (IH _ _ _ E).
  - apply IH.
  - intros [= <-] H. simpl. by rewrite unstarted_ids_app, app_nil_r.
  - intros E H. apply (IH _ _ _ E). unfold Abstract.schedule. state_simpl.
    rewrite unstarted_ids_app, app_assoc, H, seq_S. done.
Qed.

Lemma run_one_order a a' :
  Abstract.run_one a = Some a' ->
  entered (Abstract.trace a) ++ unstarted_ids (Abstract.ready a)
    = seq 0 (Abstract.next_id a) ->
  entered (Abstract.trace a') ++ unstarted_ids (Abstract.ready a')
    = seq 0 (Abstract.next_id a').
Proof.
  unfold Abstract.run_one. destruct (Abstract.ready a) as [|e rest] eqn:E; [done|].
  intros Hx H. apply (exec_order _ _ _ _ Hx). simpl. rewrite <- H, entered_snoc.
  destruct e; simpl; [by rewrite <- app_assoc|by rewrite app_nil_r].
Qed.

Lemma run_order fuel : forall a a',
  Abstract.run fuel a = Some (Some a') ->
  entered (Abstract.trace a) ++ unstarted_ids (Abstract.ready a)
    = seq 0 (Abstract.next_id a) ->
  entered (Abstract.trace a') ++ unstarted_ids (Abstract.ready a')
    = seq 0 (Abstract.next_id a').
Proof.
  induction fuel as [|fuel IH]; intros a a'; simpl.
  - destruct (Abstract.ready a) eqn:E; [|done]. intros [= <-] H. by rewrite E.
  - destruct (Abstract.ready a) eqn:E; [intros [= <-] H; by rewrite E|].
    destruct (Abstract.run_one a) as [a1|] eqn:E1; [|done].
    intros Hrun H. apply (IH _ _ Hrun). apply (run_one_order a); [done|by rewrite E].
Qed.

Lemma unstarted_entries (h : gmap Z (Block W)) (q : list Context) :
  Forall (ctx_ok h) q ->
  unstarted_ids (omap (ctx_entry h) q) = ctx_id h <$> unstarted q.
Proof.
  unfold unstarted, unstarted_ids.
  induction q as [|c q IH]; [done|]. intros [(b & blk & He & Hb & _ & Hc) Hq]%Forall_cons.
  cbn [omap list_omap]. unfold ctx_entry at 1. unfold ctx_block at 1. rewrite He, Hb.
  destruct Hc as [[Hi [body Hbody]]|[Hi [k Hk]]]; rewrite Hi.
  - rewrite Hbody, filter_cons_True by done. cbn [fmap option_fmap option_map omap list_omap
      fmap list_fmap]. rewrite IH by done. f_equal.
    unfold ctx_id, blk_id, ctx_block. by rewrite He, Hb.
  - rewrite Hk, filter_cons_False by (by rewrite Hi). cbn [omap list_omap]. by apply IH.
Qed.

Lemma starts_in_order_abstract r s :
  Inv r s ->
  starts_in_order s <->
  entered (Abstract.trace (abstract s)) ++ unstarted_ids (Abstract.ready (abstract s))
    = seq 0 (Abstract.next_id (abstract s)).
Proof.
  intros I. unfold starts_in_order, abstract. state_simpl.
  by rewrite unstarted_entries by apply (inv_queue _ _ I).
Qed.

Lemma schedule_each_order (fs : list (Fiber W)) : forall r s,
  Inv r s -> starts_in_order s -> starts_in_order (schedule_each fs s).
Proof.
  unfold schedule_each. induction fs as [|f fs IH]; intros r s I H; [done|]. simpl.
  destruct (schedule_inv f r s I) as (I1 & _ & _ & _ & _ & _ & _ & Ha & _).
  apply (IH r); [done|]. apply (starts_in_order_abstract r); [done|].
  rewrite Ha. apply (starts_in_order_abstract r) in H; [|done].
  unfold Abstract.schedule. state_simpl.
  rewrite unstarted_ids_app, app_assoc, H, seq_S. done.
Qed.



(** What [yield] and the end of [run_fiber] leave in [main_loop]. *)
Lemma yield_main_loop (k : Fiber W) cur s :
  Inv [cur] s -> main_loop s = FiberScheduler.scheduler_context ->
  exists s', FiberScheduler.yield k cur s = Returned s' /\
    main_loop s' = FiberScheduler.scheduler_context /\
    queue s' = queue s ++ [{| eip := EipRetLabel; esp := EspIn cur |}].
Proof.
  intros I Hm. unfold FiberScheduler.yield. state_simpl.
  rewrite last_snoc, removelast_last.
  unfold FiberScheduler.switch_context, FiberScheduler.to_scheduler.
  rewrite decide_True by done. eexists. split; [reflexivity|].
  unfold FiberScheduler.store_frames. by state_simpl.
Qed.

Lemma tail_main_loop cur s :
  Inv [cur] s -> main_loop s = FiberScheduler.scheduler_context ->
  exists s' blk, FiberScheduler.run_fiber_tail cur s = Returned s' /\
    main_loop s' = {| eip := EipRetLabel; esp := EspIn cur |} /\
    stacks s' = stacks s ++ [cur] /\ queue s' = queue s /\
    heap s' !! cur = Some blk /\ blk_frames blk = FrDead.
Proof.
  intros I Hm.
  destruct (inv_running_lookup _ _ I) as (blk & Hblk & Hst).
  pose proof (inv_brk _ _ I) as [Hb0 Hlt].
  assert (Hpos : 0 < cur) by (apply Hlt; by rewrite Hblk).
  unfold FiberScheduler.run_fiber_tail. rewrite Hblk.
  unfold FiberScheduler.FiberKeeper_delete. rewrite Hst, decide_False by lia.
  unfold StackPool.free, FiberScheduler.switch_context, FiberScheduler.to_scheduler.
  state_simpl. rewrite Hm, decide_True by done. eexists _, _. split; [reflexivity|].
  unfold FiberScheduler.store_frames. state_simpl. rewrite (alter_alt_Some _ _ _ _ Hblk).
  split_and!; [done..|by rewrite lookup_insert_eq|done].
Qed.

Lemma exec_main_loop (p : Fiber W) : forall cur s s',
  Inv [cur] s -> main_loop s = FiberScheduler.scheduler_context ->
  FiberScheduler.exec p cur s = Returned s' ->
  (main_loop s' = FiberScheduler.scheduler_context /\
   last (queue s') = Some {| eip := EipRetLabel; esp := EspIn cur |}) \/
  (main_loop s' = {| eip := EipRetLabel; esp := EspIn cur |} /\
   last (stacks s') = Some cur /\
   exists blk, heap s' !! cur = Some blk /\ blk_frames blk = FrDead).
Proof.
  induction p as [| |f k IH|k IH|k IH|body _ k IH]; intros cur s s' I Hm; simpl.
  - destruct (tail_main_loop cur s I Hm) as (s1 & blk & -> & Hm1 & Hs & _ & Hb & Hf).
    intros [= <-]. right. split_and!; [done|by rewrite Hs, last_snoc|by exists blk].
  - done.
  - apply IH; [by apply set_world_inv|done].
  - by apply IH.
  - rewrite (inv_global _ _ I).
    destruct (yield_main_loop k cur s I Hm) as (s1 & -> & Hm1 & Hq).
    intros [= <-]. left. split; [done|]. by rewrite Hq, last_snoc.
  - unfold FiberScheduler.call_schedule. rewrite (inv_global _ _ I).
    destruct (schedule_inv body _ _ I) as (I1 & _ & _ & Hm1 & _).
    apply IH; [done|congruence].
Qed.

Lemma run_one_main_loop c q s s' :
  Inv [] s -> queue s = c :: q -> FiberScheduler.run_one s = Returned s' ->
  (main_loop s' = FiberScheduler.scheduler_context /\
   last (queue s') = Some {| eip := EipRetLabel; esp := EspIn (ctx_block c) |}) \/
  (main_loop s' = {| eip := EipRetLabel; esp := EspIn (ctx_block c) |} /\
   last (stacks s') = Some (ctx_block c) /\
   exists blk, heap s' !! ctx_block c = Some blk /\ blk_frames blk = FrDead).
Proof.
  intros I Hq.
  destruct (run_one_enter c q s I Hq) as (p & s1 & -> & I1 & Hm & _).
  by apply exec_main_loop.
Qed.

Lemma run_main_loop fuel : forall s s',
  Inv [] s -> queue s <> [] -> FiberScheduler.run fuel s = Some (Returned s') ->
  exists b blk,
    main_loop s' = {| eip := EipRetLabel; esp := EspIn b |} /\
    last (stacks s') = Some b /\ heap s' !! b = Some blk /\ blk_frames blk = FrDead.
Proof.
  induction fuel as [|fuel IH]; intros s s' I Hq; simpl.
  - by destruct (queue s).
  - destruct (queue s) as [|c q] eqn:E; [done|].
    pose proof (run_one_main_loop c q s) as H1.
    destruct (run_one_refines s I) as [_ H2]; [by rewrite E|].
    destruct (FiberScheduler.run_one s) as [s1|? ?|s1|]; try done.
    destruct H2 as [I1 _]. specialize (H1 s1 I E eq_refl).
    destruct (queue s1) as [|c1 q1] eqn:E1.
    + rewrite run_empty by done. intros [= <-].
      destruct H1 as [[_ Hl]|(Hm & Hl & blk & Hb & Hf)]; [done|].
      by exists (ctx_block c), blk.
    + apply IH; [done|by rewrite E1].
Qed.


End Order.

Section OrderTheorems.
Context {W : Type}.
Implicit Type s : State W.

(** X10: fibers start in the order in which they were created.  A keeper's
    number is the number of keepers constructed before it.  If so far the
    bodies were entered in the order of their numbers, with the unstarted
    ones queued in that order, then this is still so after any [schedule]
    calls from outside [run]; and when [run] returns, all bodies, those
    scheduled by running fibers included, have been entered in the order
    of their numbers: a body scheduled later never starts before one
    scheduled earlier, whatever the yields do to the queue in between. *)
Theorem fibers_start_in_creation_order (fs : list (Fiber W)) (fuel : nat) s s' :
  Inv [] s -> starts_in_order s ->
  FiberScheduler.run fuel (schedule_each fs s) = Some (Returned s') ->
  starts_in_order (schedule_each fs s) /\
  spawned (schedule_each fs s) = (spawned s + length fs)%nat /\
  entered (log s') = seq 0 (spawned s') /\
  (spawned s + length fs <= spawned s')%nat.
Proof.
  intros I H Hrun.
  destruct (schedule_list_inv fs [] s I) as (I1 & _ & _ & _ & _ & Hsp & _).
  pose proof (schedule_each_order fs [] s I H) as H1.
  destruct (run_inv fuel _ s' I1 Hrun) as (I' & Hq' & Hle).
  pose proof (run_refines fuel _ I1) as Hr. rewrite Hrun in Hr.
  destruct Hr as (_ & _ & Hr).
  apply (starts_in_order_abstract []) in H1; [|done].
  apply (run_order _ _ _ Hr) in H1. apply (starts_in_order_abstract []) in H1; [|done].
  unfold starts_in_order in H1. rewrite Hq' in H1. simpl in H1. rewrite app_nil_r in H1.
  split_and!; [by apply (schedule_each_order fs [])|done|done|lia].
Qed.


(** X12: what the static [main_loop] holds between two fibers.  After a
    turn in which the fiber yielded it is the context of [run_one] itself,
    and the fiber's context is the last of the queue.  After a turn in
    which the fiber returned it is the context [run_fiber] left when it
    switched away for good: its stack pointer lies in the block that has
    just been put at the back of the pool's free list.  The latter is what
    [run] leaves when it returns after at least one turn, so a switch to
    [main_loop] from outside a fiber would resume a fiber that has ended. *)
Theorem main_loop_between_fibers (fuel : nat) s s' :
  Inv [] s -> queue s <> [] ->
  (forall c q s1,
      queue s = c :: q -> FiberScheduler.run_one s = Returned s1 ->
      (main_loop s1 = FiberScheduler.scheduler_context /\
       last (queue s1) = Some {| eip := EipRetLabel; esp := EspIn (ctx_block c) |}) \/
      (main_loop s1 = {| eip := EipRetLabel; esp := EspIn (ctx_block c) |} /\
       last (stacks s1) = Some (ctx_block c) /\
       exists blk, heap s1 !! ctx_block c = Some blk /\ blk_frames blk = FrDead)) /\
  (FiberScheduler.run fuel s = Some (Returned s') ->
   exists b blk,
     main_loop s' = {| eip := EipRetLabel; esp := EspIn b |} /\
     last (stacks s') = Some b /\ heap s' !! b = Some blk /\ blk_frames blk = FrDead /\
     FiberScheduler.to_fiber (main_loop s') s' = Undefined).
Proof.
  intros I Hq. split.
  - intros c q s1 E H. by apply (run_one_main_loop c q s).
  - intros Hrun.
    destruct (run_main_loop fuel s s' I Hq Hrun) as (b & blk & Hm & Hl & Hb & Hf).
    exists b, blk. split_and!; try done.
    unfold FiberScheduler.to_fiber. rewrite Hm. simpl. by rewrite Hb, Hf.
Qed.
End OrderTheorems.

(** ** Chains of nested [schedule] calls *)

Section Nested.

Lemma sum_list_snoc (l : list nat) (n : nat) : sum_list (l ++ [n]) = (sum_list l + n)%nat.
Proof. induction l as [|a l IH]; simpl; lia. Qed.

Lemma sum_list_S (ds : list nat) : sum_list (S <$> ds) = (length ds + sum_list ds)%nat.
Proof.
  induction ds as [|d ds IH]; [done|]. rewrite fmap_cons. cbn [sum_list length].
  rewrite IH. unfold id. lia.
Qed.

(** Each turn either takes one level off a chain or runs its innermost
    body. *)
Lemma nested_run (m : nat) : forall (l : list (nat * nat)) w nid tr,
  sum_list ((fun f => S (snd f)) <$> l) = m ->
  exists tr',
    Abstract.run m {| Abstract.vars := w; Abstract.ready := nested_entry <$> l;
                      Abstract.next_id := nid; Abstract.trace := tr |} =
    Some (Some {| Abstract.vars := Nat.iter (length l) incr_x w; Abstract.ready := [];
                  Abstract.next_id := (nid + sum_list (snd <$> l))%nat;
                  Abstract.trace := tr' |}).
Proof.
  induction m as [|m IH]; intros l w nid tr Hm.
  - destruct l as [|[i d] l]; [|done]. exists tr. simpl. by rewrite Nat.add_0_r.
  - destruct l as [|[i d] l]; [done|]. rewrite fmap_cons in Hm. simpl in Hm.
    injection Hm as Hm. rewrite !fmap_cons.
    change (nested_entry (i, d)) with (Unstarted i (nested d incr_fiber)).
    rewrite abstract_run_step. cbn [entry_todo entry_id entry_event fst snd].
    destruct d as [|d].
    + cbn [nested incr_fiber Abstract.exec Abstract.vars Abstract.ready Abstract.next_id
           Abstract.trace].
      destruct (IH l (incr_x w) nid ((tr ++ [EvEnter i]) ++ [EvExit i]) Hm) as [tr' ->].
      exists tr'. cbn [length sum_list]. by rewrite Nat.iter_succ_r.
    + cbn [nested Abstract.exec Abstract.schedule Abstract.vars Abstract.ready
           Abstract.next_id Abstract.trace].
      change [Unstarted nid (nested d incr_fiber)] with (nested_entry <$> [(nid, d)]).
      rewrite <- fmap_app.
      destruct (IH (l ++ [(nid, d)]) w (S nid) ((tr ++ [EvEnter i]) ++ [EvExit i]))
        as [tr' ->].
      { rewrite fmap_app. cbn [fmap list_fmap snd]. rewrite sum_list_snoc. lia. }
      exists tr'. rewrite length_app, fmap_app. cbn [fmap list_fmap snd fst].
      rewrite sum_list_snoc. cbn [length sum_list]. rewrite Nat.add_1_r.
      replace (S nid + (sum_list l.*2 + d))%nat
        with (nid + (id (S d) + sum_list l.*2))%nat by (unfold id; lia).
      done.
Qed.

Lemma zip_with_nested_entries (ds : list nat) : forall n0,
  zip_with Unstarted (seq n0 (length ds)) ((fun d => nested d incr_fiber) <$> ds) =
  nested_entry <$> zip (seq n0 (length ds)) ds.
Proof.
  induction ds as [|d ds IH]; intros n0; [done|]. simpl. f_equal. apply IH.
Qed.
End Nested.

(** X13: chains of nested [schedule] calls, as in [test_recursive], of any
    number and any depths.  A chain of depth [d] around the body [++x]
    takes [d + 1] turns of [run] and as many keepers, one per level; one
    call of [run] goes through all chains to their innermost bodies, so
    that [x] has grown by the number of chains when it returns. *)
Theorem nested_chains_end_in_one_drain (ds : list nat) (s : State TestVars) :
  Inv [] s -> queue s = [] ->
  0 <= x (world s) -> x (world s) + Z.of_nat (length ds) < 2 ^ 31 ->
  let turns := sum_list (S <$> ds) in
  exists s',
    FiberScheduler.run turns (schedule_each ((fun d => nested d incr_fiber) <$> ds) s)
      = Some (Returned s') /\
    x (world s') = x (world s) + Z.of_nat (length ds) /\
    spawned s' = (spawned s + turns)%nat /\ queue s' = [].
Proof.
  intros I Hq Hx0 Hx. cbv zeta.
  set (l := zip (seq (spawned s) (length ds)) ds).
  assert (Hl2 : l.*2 = ds) by (apply snd_zip; by rewrite length_seq).
  assert (Hll : length l = length ds).
  { unfold l. rewrite length_zip, length_seq. lia. }
  assert (Hsum : sum_list ((fun f => S (snd f)) <$> l) = sum_list (S <$> ds)).
  { transitivity (sum_list (S <$> l.*2)); [by rewrite <- list_fmap_compose|by rewrite Hl2]. }
  destruct (nested_run _ l (world s) (spawned s + length ds)%nat (log s) Hsum)
    as [tr' Hrun].
  destruct (scheduled_abstract ((fun d => nested d incr_fiber) <$> ds) s I Hq) as [I1 Ha].
  rewrite length_fmap, zip_with_nested_entries in Ha. fold l in Ha.
  rewrite <- Ha in Hrun.
  destruct (run_from_abstract _ _ _ I1 Hrun) as (s' & E & Ha' & _ & Hq').
  exists s'. split_and!; try done.
  - change (world s') with (Abstract.vars (abstract s')). rewrite Ha'. simpl.
    rewrite Hll. by destruct (incr_x_iter (length ds) (world s)) as [-> _].
  - change (spawned s') with (Abstract.next_id (abstract s')). rewrite Ha'. simpl.
    rewrite Hl2, sum_list_S. lia.
Qed.

(** ** When a body scheduled by a running fiber runs *)

Section Deferred.
Context {W : Type}.
Implicit Type s : State W.

Lemma deferred_run (body k : Fiber W) i w nid tr :
  Straight body -> Straight k ->
  match InlineScheduler.schedule k w ≫= InlineScheduler.schedule body with
  | Some w' =>
      exists tr',
        Abstract.run 2 {| Abstract.vars := w;
                          Abstract.ready := [Unstarted i (CallSchedule body k)];
                          Abstract.next_id := nid; Abstract.trace := tr |} =
        Some (Some {| Abstract.vars := w'; Abstract.ready := [];
                      Abstract.next_id := S nid; Abstract.trace := tr' |}) /\
        activations tr' = activations tr ++ [i; nid]
  | None =>
      Abstract.run 2 {| Abstract.vars := w;
                        Abstract.ready := [Unstarted i (CallSchedule body k)];
                        Abstract.next_id := nid; Abstract.trace := tr |} = Some None
  end.
Proof.
  intros Hb Hk. rewrite abstract_run_step.
  cbn [entry_todo entry_id entry_event Abstract.exec]. rewrite straight_exec by done.
  unfold Abstract.schedule.
  cbn [Abstract.vars Abstract.ready Abstract.next_id Abstract.trace app].
  destruct (InlineScheduler.schedule k w) as [w1|]; [|done]. cbn [mbind option_bind].
  rewrite abstract_run_step.
  cbn [entry_todo entry_id entry_event]. rewrite straight_exec by done.
  cbn [Abstract.vars Abstract.ready Abstract.next_id Abstract.trace].
  destruct (InlineScheduler.schedule body w1) as [w2|]; [|done].
  eexists. split; [reflexivity|].
  rewrite !activations_app, <- !app_assoc. done.
Qed.

(** X14: a body passed to [schedule] by a running fiber is not run until
    that fiber has given up the processor: with a parent that calls
    [schedule(body)] and then goes on with [k] (neither of which calls
    [yield] or [schedule]), the [FiberScheduler] runs [k] first and [body]
    in the next turn, so the captured variables are those of [k] followed
    by [body].  The [InlineScheduler] runs [body] inside the call, before
    [k]. *)
Theorem scheduled_body_runs_after_its_parent (body k : Fiber W) s :
  Inv [] s -> queue s = [] -> Straight body -> Straight k ->
  let parent := CallSchedule body k in
  let fibers := FiberScheduler.run 2 (FiberScheduler.schedule parent s) in
  (exists o, fibers = Some o) /\
  out_world fibers =
    InlineScheduler.schedule k (world s) ≫= InlineScheduler.schedule body /\
  (forall s', fibers = Some (Returned s') ->
     activations (log s') = activations (log s) ++ [spawned s; S (spawned s)]) /\
  InlineScheduler.schedule parent (world s) =
    InlineScheduler.schedule body (world s) ≫= InlineScheduler.schedule k.
Proof.
  intros I Hq Hb Hk. cbv zeta.
  destruct (scheduled_abstract [CallSchedule body k] s I Hq) as [I1 Ha].
  change (schedule_each [CallSchedule body k] s)
    with (FiberScheduler.schedule (CallSchedule body k) s) in *.
  pose proof (deferred_run body k (spawned s) (world s) (spawned s + 1)%nat (log s) Hb Hk)
    as Hrun.
  cbn [length seq zip_with] in Ha. rewrite <- Ha in Hrun.
  split_and!.
  - destruct (_ ≫= _) as [w'|].
    + destruct Hrun as (tr' & Hrun & _).
      destruct (run_from_abstract _ _ _ I1 Hrun) as (s' & -> & _). by eexists.
    + destruct (run_aborts_from_abstract _ _ I1 Hrun) as [s' ->]. by eexists.
  - destruct (_ ≫= _) as [w'|].
    + destruct Hrun as (tr' & Hrun & _).
      destruct (run_from_abstract _ _ _ I1 Hrun) as (s' & -> & Ha' & _). simpl.
      change (world s') with (Abstract.vars (abstract s')). by rewrite Ha'.
    + by destruct (run_aborts_from_abstract _ _ I1 Hrun) as [s' ->].
  - intros s' E. destruct (_ ≫= _) as [w'|].
    + destruct Hrun as (tr' & Hrun & Hact).
      destruct (run_from_abstract _ _ _ I1 Hrun) as (s2 & E2 & Ha' & _).
      rewrite E in E2. injection E2 as <-.
      change (log s') with (Abstract.trace (abstract s')). rewrite Ha'. simpl.
      rewrite Hact. by rewrite Nat.add_1_r.
    + destruct (run_aborts_from_abstract _ _ I1 Hrun) as [s2 E2]. by rewrite E in E2.
  - simpl. by destruct (InlineScheduler.schedule body (world s)).
Qed.
End Deferred.

Lemma scheduled_body_runs_after_its_parent_witness :
  Inv [] test_start /\ queue test_start = [] /\
  Straight (Upd (set_cur_fiber 1) Return) /\ Straight (Upd (set_cur_fiber 2) Return) /\
  out_world (FiberScheduler.run 2
               (FiberScheduler.schedule
                  (CallSchedule (Upd (set_cur_fiber 1) Return) (Upd (set_cur_fiber 2) Return))
                  test_start))
    = Some {| x := 0; cur_fiber := 1 |} /\
  InlineScheduler.schedule
    (CallSchedule (Upd (set_cur_fiber 1) Return) (Upd (set_cur_fiber 2) Return))
    (world test_start)
    = Some {| x := 0; cur_fiber := 2 |}.
Proof.
  split; [apply started_state_inv|]. split; [reflexivity|]. split; [exact I|].
  split; [exact I|].
  destruct (scheduled_body_runs_after_its_parent
              (Upd (set_cur_fiber 1) Return) (Upd (set_cur_fiber 2) Return) test_start
              (started_state_inv _) eq_refl I I) as (_ & H1 & _ & H2).
  split; [exact H1|exact H2].
Defined.

(** ** The program as a whole *)

Section WholeProgram.
Implicit Type s : State TestVars.

(** More turns than [run] needs change nothing. *)
Lemma run_fuel_mono {W} (fuel : nat) : forall fuel' (s : State W) o,
  FiberScheduler.run fuel s = Some o -> (fuel <= fuel')%nat ->
  FiberScheduler.run fuel' s = Some o.
Proof.
  induction fuel as [|fuel IH]; intros fuel' s o; simpl.
  - destruct (queue s) eqn:E; [|done]. intros [= <-] _. by apply run_empty.
  - destruct (queue s) eqn:E; [intros [= <-] _; by apply run_empty|].
    intros H Hle. destruct fuel' as [|fuel']; [lia|]. simpl. rewrite E.
    destruct (FiberScheduler.run_one s); try done. apply IH; [done|lia].
Qed.

(** A test of main.cpp up to its last assertion: fresh locals, the
    [schedule] calls, and the drain; [k] turns are enough when they are
    enough for the queue of fibers. *)
Lemma test_body_passes (fs : list (Fiber TestVars)) (k : nat) (v : Z) :
  (forall n tr,
      match Abstract.run k
              {| Abstract.vars := {| x := 0; cur_fiber := -1 |};
                 Abstract.ready := zip_with Unstarted (seq n (length fs)) fs;
                 Abstract.next_id := (n + length fs)%nat; Abstract.trace := tr |} with
      | Some (Some a) => Some (x (Abstract.vars a))
      | _ => None
      end = Some v) ->
  forall fuel s, (k <= fuel)%nat -> Inv [] s -> queue s = [] ->
  exists s1 s',
    schedule_all fs (fresh_locals s) = Some (Returned s1) /\ x (world s1) = 0 /\
    run_global_scheduler fuel s1 = Some (Returned s') /\
    x (world s') = v /\ Inv [] s' /\ queue s' = [].
Proof.
  intros Hk fuel s Hle I Hq.
  assert (I0 : Inv [] (fresh_locals s)) by (by apply set_world_inv).
  specialize (Hk (spawned (fresh_locals s)) (log (fresh_locals s))).
  destruct (Abstract.run k _) as [[a'|]|] eqn:Ha; try done. injection Hk as Hx.
  destruct (scheduled_then_run fs k (fresh_locals s) a' I0 Hq Ha)
    as (s' & Hall & Hw & Hr & _ & Ha' & I' & Hq').
  exists (schedule_each fs (fresh_locals s)), s'. split_and!; try done.
  - by rewrite Hw.
  - destruct (schedule_list_inv fs [] _ I0) as (I1 & _).
    unfold run_global_scheduler. rewrite (inv_global _ _ I1).
    by apply (run_fuel_mono k).
  - change (world s') with (Abstract.vars (abstract s')). by rewrite Ha'.
Qed.

Lemma test_simple_passes fuel s :
  (1 <= fuel)%nat -> Inv [] s -> queue s = [] ->
  exists s', test_simple fuel s = Some (Returned s') /\ x (world s') = 1 /\
             Inv [] s' /\ queue s' = [].
Proof.
  intros Hle I Hq.
  destruct (test_body_passes [incr_fiber] 1 1) with (fuel := fuel) (s := s)
    as (s1 & s' & Hall & _ & Hr & Hx & I' & Hq'); [by intros|done..|].
  exists s'. unfold test_simple. rewrite Hall. cbn [and_then]. rewrite Hr. cbn [and_then].
  unfold assert_that. rewrite Hx, bool_decide_eq_true_2 by done. by split_and!.
Qed.

Lemma test_multiple_passes fuel s :
  (3 <= fuel)%nat -> Inv [] s -> queue s = [] ->
  exists s', test_multiple fuel s = Some (Returned s') /\ x (world s') = 3 /\
             Inv [] s' /\ queue s' = [].
Proof.
  intros Hle I Hq.
  destruct (test_body_passes [incr_fiber; incr_fiber; incr_fiber] 3 3)
    with (fuel := fuel) (s := s)
    as (s1 & s' & Hall & _ & Hr & Hx & I' & Hq'); [by intros|done..|].
  exists s'. unfold test_multiple. rewrite Hall. cbn [and_then]. rewrite Hr. cbn [and_then].
  unfold assert_that. rewrite Hx, bool_decide_eq_true_2 by done. by split_and!.
Qed.

Lemma test_recursive_passes fuel s :
  (9 <= fuel)%nat -> Inv [] s -> queue s = [] ->
  exists s', test_recursive fuel s = Some (Returned s') /\ x (world s') = 3 /\
             Inv [] s' /\ queue s' = [].
Proof.
  intros Hle I Hq.
  destruct (test_body_passes
              [nested 1 incr_fiber; nested 2 incr_fiber; nested 3 incr_fiber] 9 3)
    with (fuel := fuel) (s := s)
    as (s1 & s' & Hall & _ & Hr & Hx & I' & Hq'); [by intros|done..|].
  exists s'. unfold test_recursive. rewrite Hall. cbn [and_then]. rewrite Hr.
  cbn [and_then]. unfold assert_that. rewrite Hx, bool_decide_eq_true_2 by done.
  by split_and!.
Qed.

Lemma test_yield_one_passes fuel s :
  (11 <= fuel)%nat -> Inv [] s -> queue s = [] ->
  exists s', test_yield_one fuel s = Some (Returned s') /\ x (world s') = 10 /\
             Inv [] s' /\ queue s' = [].
Proof.
  intros Hle I Hq.
  destruct (test_body_passes [yield_one_fiber] 11 10) with (fuel := fuel) (s := s)
    as (s1 & s' & Hall & Hx1 & Hr & Hx & I' & Hq');
    [intros; vm_compute; reflexivity|done..|].
  exists s'. unfold test_yield_one. rewrite Hall. cbn [and_then].
  unfold assert_that at 1. rewrite Hx1, bool_decide_eq_true_2 by done. cbn [and_then].
  rewrite Hr. cbn [and_then].
  unfold assert_that. rewrite Hx, bool_decide_eq_true_2 by done. by split_and!.
Qed.

Lemma test_yield_many_passes fuel s :
  (33 <= fuel)%nat -> Inv [] s -> queue s = [] ->
  exists s', test_yield_many fuel s = Some (Returned s') /\ x (world s') = 30 /\
             Inv [] s' /\ queue s' = [].
Proof.
  intros Hle I Hq.
  destruct (test_body_passes [create_fiber 1; create_fiber 2; create_fiber 3] 33 30)
    with (fuel := fuel) (s := s)
    as (s1 & s' & Hall & Hx1 & Hr & Hx & I' & Hq');
    [intros; vm_compute; reflexivity|done..|].
  exists s'. unfold test_yield_many. rewrite Hall. cbn [and_then].
  unfold assert_that at 1. rewrite Hx1, bool_decide_eq_true_2 by done. cbn [and_then].
  rewrite Hr. cbn [and_then].
  unfold assert_that. rewrite Hx, bool_decide_eq_true_2 by done. by split_and!.
Qed.

Lemma exit_drained {W} (s : State W) :
  Inv [] s -> queue s = [] ->
  exit_process s = Returned (set_global_scheduler None (set_stacks [] (set_heap ∅ s))).
Proof.
  intros I Hq. destruct (StackPool_delete_inv [] s I) as (h & E & Hlook & Hdom).
  unfold exit_process, global_scheduler_delete, FiberScheduler_delete. rewrite E.
  state_simpl. rewrite (inv_global _ _ I), Hq in *. simpl in Hdom.
  apply Permutation_nil_r, elements_empty_inv in Hdom.
  apply leibniz_equiv, dom_empty_inv_L in Hdom. by rewrite Hdom.
Qed.
End WholeProgram.

(** X15: the program runs to its end.  Each of the six tests of [main],
    started in a state in which the scheduler is installed and idle,
    passes its assertions and leaves the scheduler idle again, with every
    stack back in the pool; so [main] returns (whenever [run] is given the
    33 turns its longest drain takes), with [x == 30] in the last test, and
    the destructors that run after it release every block that was
    allocated and find the queue empty. *)
Theorem main_runs_to_a_clean_exit (fuel : nat) :
  (33 <= fuel)%nat ->
  exists s,
    main fuel = Some (Returned s) /\ x (world s) = 30 /\
    Inv [] s /\ queue s = [] /\ stacks s ≡ₚ elements (dom (heap s)) /\
    exit_process s = Returned (set_global_scheduler None (set_stacks [] (set_heap ∅ s))).
Proof.
  intros Hle. unfold main.
  change (init_global_scheduler (initial_state {| x := 0; cur_fiber := 0 |}))
    with (Returned (started_state {| x := 0; cur_fiber := 0 |})).
  cbn [and_then].
  destruct (test_simple_passes fuel (started_state {| x := 0; cur_fiber := 0 |}))
    as (s1 & -> & _ & I1 & Hq1); [lia|apply started_state_inv|done|]. cbn [and_then].
  destruct (test_multiple_passes fuel s1) as (s2 & -> & _ & I2 & Hq2); [lia|done..|].
  cbn [and_then].
  destruct (test_recursive_passes fuel s2) as (s3 & -> & _ & I3 & Hq3); [lia|done..|].
  cbn [and_then].
  destruct (test_yield_one_passes fuel s3) as (s4 & -> & _ & I4 & Hq4); [lia|done..|].
  cbn [and_then].
  destruct (test_yield_many_passes fuel s4) as (s5 & -> & Hx & I5 & Hq5); [lia|done..|].
  cbn [and_then]. unfold test_secret, run_global_scheduler.
  rewrite (inv_global _ _ I5), run_empty by done.
  exists s5. split_and!; try done.
  - pose proof (inv_owned _ _ I5) as H. rewrite Hq5 in H. simpl in H.
    by rewrite app_nil_r in H.
  - by apply exit_drained.
Qed.

Lemma main_runs_to_a_clean_exit_witness :
  (33 <= 33)%nat /\
  exists s, main 33 = Some (Returned s) /\ x (world s) = 30 /\ queue s = [].
Proof.
  split; [apply le_n|].
  destruct (main_runs_to_a_clean_exit 33 (le_n 33)) as (s & E & Hx & _ & Hq & _).
  exists s. split; [exact E|]. split; [exact Hx|exact Hq].
Defined.

(** ** These properties at the states of [main] *)

Lemma StackPool_destructor_frees_each_block_once_witness :
  exists s',
    StackPool_delete (StackPool.free 1048576 (snd (calloc 1 StackPool.STACK_SIZE test_start)))
      = Returned s' /\
    heap s' !! 1048576 = None.
Proof.
  destruct (StackPool_delete
              (StackPool.free 1048576 (snd (calloc 1 StackPool.STACK_SIZE test_start))))
    as [s'| | |] eqn:E; try discriminate E.
  exists s'. split; [reflexivity|].
  destruct (proj2 (proj2 (StackPool_destructor_frees_each_block_once _)) s' E) as [_ H].
  rewrite H. reflexivity.
Defined.

Lemma schedule_takes_freed_stacks_first_witness :
  exists s',
    FiberScheduler.run 1 (FiberScheduler.schedule incr_fiber test_start)
      = Some (Returned s') /\
    Inv [] s' /\ stacks s' = [1048576] /\
    new_blocks [incr_fiber; incr_fiber] s' = [1048576; 2097152] /\
    stacks (schedule_each [incr_fiber; incr_fiber] s') = [] /\
    NoDup (new_blocks [incr_fiber; incr_fiber] s').
Proof.
  assert (I : Inv [] (FiberScheduler.schedule incr_fiber test_start)).
  { apply schedule_inv, started_state_inv. }
  assert (Hs : out_stacks (FiberScheduler.run 1 (FiberScheduler.schedule incr_fiber
                                                    test_start)) = [1048576])
    by (vm_compute; reflexivity).
  assert (Hb : match FiberScheduler.run 1 (FiberScheduler.schedule incr_fiber test_start)
               with Some (Returned s) => brk s | _ => 0 end = 2097152)
    by (vm_compute; reflexivity).
  destruct (FiberScheduler.run 1 (FiberScheduler.schedule incr_fiber test_start))
    as [[s'| | |]|] eqn:E; try discriminate Hs.
  simpl in Hs.
  destruct (run_inv 1 _ s' I E) as (I' & _).
  destruct (schedule_takes_freed_stacks_first [incr_fiber; incr_fiber] [] s' I')
    as (H1 & H2 & _ & _ & H3 & _).
  exists s'. split; [reflexivity|]. split; [exact I'|]. split; [exact Hs|].
  split; [|split; [|exact H3]].
  - rewrite H1, Hs. unfold next_blocks. rewrite Hb. reflexivity.
  - rewrite H2, Hs. reflexivity.
Defined.

Lemma schedulers_agree_without_yield_witness :
  global_scheduler (set_global_scheduler (Some InlineSchedulerK) test_start)
    = Some InlineSchedulerK /\
  Inv [] test_start /\ queue test_start = [] /\ Forall Straight [incr_fiber] /\
  out_world (and_then (schedule_all [incr_fiber] test_start) (run_global_scheduler 1)) =
  out_world (and_then (schedule_all [incr_fiber]
                         (set_global_scheduler (Some InlineSchedulerK) test_start))
                      (run_global_scheduler 0)).
Proof.
  assert (HF : Forall Straight [incr_fiber]) by (constructor; [exact I|constructor]).
  split; [reflexivity|]. split; [apply started_state_inv|]. split; [reflexivity|].
  split; [exact HF|].
  apply (proj1 (schedulers_agree_without_yield [incr_fiber]
                  (set_global_scheduler (Some InlineSchedulerK) test_start) test_start 0%nat
                  eq_refl (started_state_inv _) eq_refl eq_refl HF)).
Defined.

Lemma lone_fiber_yield_changes_nothing_witness :
  Inv [] test_start /\ queue test_start = [] /\ NoSchedule (yield_loop 2) /\
  exists fuel o,
    FiberScheduler.run fuel (FiberScheduler.schedule (yield_loop 2) test_start) = Some o /\
    exists s', o = Returned s' /\ world s' = {| x := 2; cur_fiber := -1 |} /\ queue s' = [].
Proof.
  split; [apply started_state_inv|]. split; [reflexivity|]. split; [exact I|].
  apply (lone_fiber_yield_changes_nothing (yield_loop 2) test_start
           (started_state_inv _) eq_refl I).
Defined.

Lemma incrementing_fibers_add_up_witness :
  Inv [] test_start /\ queue test_start = [] /\
  (exists s', test_simple 1 test_start = Some (Returned s') /\ x (world s') = 1 /\
              Inv [] s' /\ queue s' = []) /\
  (exists s', test_multiple 3 test_start = Some (Returned s') /\ x (world s') = 3 /\
              Inv [] s' /\ queue s' = []).
Proof.
  split; [apply started_state_inv|]. split; [reflexivity|]. split.
  - apply (proj1 (proj2 incrementing_fibers_add_up) test_start);
      [apply started_state_inv|reflexivity].
  - apply (proj2 (proj2 incrementing_fibers_add_up) test_start);
      [apply started_state_inv|reflexivity].
Defined.

Lemma inline_scheduler_fails_the_yield_tests_witness :
  global_scheduler (set_global_scheduler (Some InlineSchedulerK) test_start)
    = Some InlineSchedulerK /\
  (exists s', test_yield_one 0 (set_global_scheduler (Some InlineSchedulerK) test_start)
              = Some (Aborted s') /\ x (world s') = 10) /\
  (exists s', test_yield_many 0 (set_global_scheduler (Some InlineSchedulerK) test_start)
              = Some (Aborted s')).
Proof.
  split; [reflexivity|].
  destruct (inline_scheduler_fails_the_yield_tests 0
              (set_global_scheduler (Some InlineSchedulerK) test_start) eq_refl)
    as (_ & _ & _ & H1 & H2 & _).
  split; [exact H1|exact H2].
Defined.

Lemma lone_fiber_fails_its_assertion_witness :
  Inv [] test_start /\ queue test_start = [] /\ cur_fiber (world test_start) <> 1 /\
  (2 <= 2)%nat /\
  exists s2,
    FiberScheduler.run 2 (FiberScheduler.schedule (create_fiber_loop 2 1) test_start)
    = Some (Aborted s2).
Proof.
  assert (Hc : cur_fiber (world test_start) <> 1) by discriminate.
  split; [apply started_state_inv|]. split; [reflexivity|]. split; [exact Hc|].
  split; [apply le_n|].
  destruct (lone_fiber_fails_its_assertion 2 1 test_start (started_state_inv _) eq_refl
              Hc (le_n 2)) as (s1 & s2 & _ & _ & _ & _ & H).
  exists s2. exact H.
Defined.

Lemma fibers_start_in_creation_order_witness :
  Inv [] test_start /\ starts_in_order test_start /\
  exists s',
    FiberScheduler.run 2 (schedule_each [nested 1 incr_fiber] test_start)
      = Some (Returned s') /\
    entered (log s') = [0; 1]%nat.
Proof.
  split; [apply started_state_inv|]. split; [reflexivity|].
  destruct (FiberScheduler.run 2 (schedule_each [nested 1 incr_fiber] test_start))
    as [[s'| | |]|] eqn:E; try discriminate E.
  exists s'. split; [reflexivity|].
  destruct (fibers_start_in_creation_order [nested 1 incr_fiber] 2 test_start s'
              (started_state_inv _) eq_refl E) as (_ & _ & H & _).
  rewrite H. injection E as <-. reflexivity.
Defined.


Lemma main_loop_between_fibers_witness :
  Inv [] (FiberScheduler.schedule incr_fiber test_start) /\
  queue (FiberScheduler.schedule incr_fiber test_start) <> [] /\
  exists s',
    FiberScheduler.run 1 (FiberScheduler.schedule incr_fiber test_start)
      = Some (Returned s') /\
    FiberScheduler.to_fiber (main_loop s') s' = Undefined.
Proof.
  assert (I : Inv [] (FiberScheduler.schedule incr_fiber test_start)).
  { apply schedule_inv, started_state_inv. }
  assert (Hq : queue (FiberScheduler.schedule incr_fiber test_start) <> [])
    by discriminate.
  split; [exact I|]. split; [exact Hq|].
  destruct (FiberScheduler.run 1 (FiberScheduler.schedule incr_fiber test_start))
    as [[s'| | |]|] eqn:E; try discriminate E.
  exists s'. split; [reflexivity|].
  destruct (proj2 (main_loop_between_fibers 1 _ s' I Hq) E) as (b & blk & _ & _ & _ & _ & H).
  exact H.
Defined.

Lemma nested_chains_end_in_one_drain_witness :
  Inv [] test_start /\ queue test_start = [] /\ 0 <= x (world test_start) /\
  x (world test_start) + Z.of_nat (length [1; 2; 3]%nat) < 2 ^ 31 /\
  exists s',
    FiberScheduler.run 9
      (schedule_each [nested 1 incr_fiber; nested 2 incr_fiber; nested 3 incr_fiber]
                     test_start)
      = Some (Returned s') /\
    x (world s') = 3 /\ spawned s' = 9%nat.
Proof.
  assert (H0 : 0 <= x (world test_start)) by (apply Z.le_refl).
  assert (H1 : x (world test_start) + Z.of_nat (length [1; 2; 3]%nat) < 2 ^ 31)
    by reflexivity.
  split; [apply started_state_inv|]. split; [reflexivity|]. split; [exact H0|].
  split; [exact H1|].
  destruct (nested_chains_end_in_one_drain [1; 2; 3]%nat test_start
              (started_state_inv _) eq_refl H0 H1) as (s' & E & Hx & Hs & _).
  exists s'. split; [exact E|]. split; [exact Hx|exact Hs].
Defined.
